(* ===== verification/_CoqProject ===== *)
-Q . S2P
Prelude.v
JsRuntime.v
Templates.v
Levels.v
Puzzle.v
Dom.v
Render.v
Click.v
Check.v
Matcher.v
Session.v
Liveness.v
PageShape.v
SessionSpec.v
Ledger.v
