(* ===== verification/Prelude.v ===== *)
(** * A verification development for the matchstick-equation game
      (repository ayrazahraa/TP, file [src/script.js])

    ** The program

    [src/script.js] is a single [DOMContentLoaded] callback.  It keeps three
    module-level variables ([currentLevel], [movesMadeThisLevel],
    [selectedStick]), two constant tables ([stickTemplates], lines 20-36, and
    [levels], lines 39-59) and a DOM tree: a [#puzzle-area] holding one
    container [div] per symbol of the equation, each holding the matchstick
    [div]s of that symbol.  Its parts and how they interact:

    - the symbol library [stickTemplates]: a JS object from characters to
      arrays of stick descriptors (only ['1'] is filled in);
    - the level catalog [levels]: puzzle string, move budget, an unused
      [solution] predicate and a hint string per level;
    - [renderPuzzle] (lines 62-106): clears the puzzle area, resets the
      counters and the displays, parses the puzzle string with the regular
      expression [/(\d+)([-+=])(\d+)([-+=])(\d+)/] and creates one container
      per group and one stick element per template entry;
    - [handleStickClick] (lines 109-158): the click listener of every stick;
      the first click selects a stick (if the budget allows), the second one
      moves it to the container of the clicked stick, counting a move when
      the containers differ;
    - [updatePuzzleState] (lines 161-167): only logs;
    - the check button handler (lines 170-217) with
      [determineCharFromSticks] (219-229) and [parseVisualEquation]
      (231-262): reads the stored [dataset.char] of the containers back,
      evaluates the equation and compares it with the fixed target 1+1=2,
      then schedules the advance to the next level with [setTimeout];
    - the reset and hint handlers (266-275) and the initial render (278).

    ** Files, and how they correspond to the code

    - [Prelude] (this file): the JS completion monad [JS] in which every
      handler is written (normal completion or a thrown [TypeError], both
      carrying the state reached, as a JS event handler that throws keeps
      the mutations done before the throw), its weakest-precondition
      calculus [wp], the tactics and hint database [js] that carry the
      handler proofs, and shared list lemmas.
    - [JsRuntime]: the JS built-ins the code calls, on ASCII strings:
      [parseInt], [isNaN], the number-to-string conversion of
      [textContent = n], the relational comparison of two strings ([>] at
      line 93) and the truthiness of a string ([||] at line 228).
    - [Templates]: [StickData], [stickTemplates], the orientation test.
    - [Levels]: [Level], [levels], and the class [GameConfig] that packs the
      two tables: every handler is defined against a [GameConfig], so that
      the generic theorems hold for any catalog, and [source_config] is the
      instance of the repository's tables.
    - [Puzzle]: the match of the puzzle regular expression (line 76).
    - [Dom]: the state: globals, the puzzle area (a list of containers with
      their child stick ids, in document order) and the heap of stick
      elements (a [gmap] from element id to its attributes); the DOM
      operations [appendChild] and [parentElement].
    - [Render]: [renderPuzzle] and element creation.
    - [Click]: [handleStickClick] and [updatePuzzleState].
    - [Check]: [determineCharFromSticks], [parseVisualEquation], the check
      handler and the [setTimeout] callback.
    - [Matcher]: the specification's Stick Pattern Matcher ([resolve],
      exact orientation-aware set equality of slot positions), its library
      validation ([validateLibrary]) and its Equation Model ([deriveCurrent],
      [isArithmeticallyTrue]), stated over the code's templates and pages.
    - [Session]: the reset and hint handlers, the initial load, the event
      loop as a step relation [step] (one event: a click on a displayed
      stick, on one of the three buttons, or a pending timer firing) with
      [reachable] from the loaded page, and the invariant [page_ok]
      (budget respected, well-formed area, live selection, no
      "Too many moves!") proved for every reachable page by rule induction;
      then, for the repository's catalog ([source_config]), the invariant
      [src_ok] that shows the shipped game stuck at level 1.
    - [Liveness]: the timer steps and the steps of the page as relations
      ([timer_step], [any_step]) and their termination and progress.
    - [PageShape]: what a render of a level shows ([level_chars],
      [level_stick_count]) and the invariant that ties rendering, clicks,
      checks and callbacks together: the area shows the current level.
    - [SessionSpec]: the specification's Level Session machine of section
      4.5 as a step relation [sstep] on [Loading], [Active], [Solved],
      [Failed] and [Completed]; the session state read off a page
      ([session_state]: past the catalog, an advance pending, or the
      feedback text); the code's events mapped to its commands
      ([event_commands]) and the runs that keep to its command surface
      ([conforming]).
    - [Ledger]: the specification's move ledger ([Ledger], [recordMove],
      read off a page by [ledger_of]) and the refinement of the click
      handler to it.

    ** The theorems

    - Event loop invariants, for any catalog ([Session]): the move budget
      is never exceeded (C1), the "Too many moves!" branch is dead (C11), a
      click permutes the sticks of the area (C7), two successful checks
      before the timer fires skip a level (C17), a reset rebuilds the level
      as a fresh load with new stick elements (C19), the moves-left display
      reads back as the moves still allowed (C20) and the level display as
      the 1-based level number (C27, both with the round trip of
      number printing and [parseInt] proved in [JsRuntime]), a stick taken
      out of its container and brought back costs two moves on any page
      (C22, from the relocation lemma of [Click]), the
      [selected] class of the displayed sticks matches [selectedStick]
      (C24), once the catalog is exhausted the clicks only throw (C26),
      every reachable page is well formed (C32), and no sequence of clicks
      changes the level or cancels a scheduled advance (C33).
    - Termination and progress ([Liveness]): the callbacks terminate (C28),
      every scheduled advance happens (C29), a solved level is left (C30).
    - Composition ([PageShape]): the area of every reachable page shows the
      current level's puzzle with its number of sticks (C31).
    - The ledger ([Ledger]): every placement on a reachable page is a move
      the specification's ledger accepts, with the same counter (C21).
    - The shipped game ([Session], last part): never solved, level 1 forever (C2);
      the check always answers "Not quite right" (C3).
    - The check ([Check]): it succeeds exactly on 1, '+', 1, _, 2 whatever
      the level (C4), and depends only on the characters stored on the
      containers (C5).
    - The click handler ([Click]): the characters of the containers never
      change (C6); a move inside a container is free (C8), across
      containers costs one (C9); with the budget spent the selection is
      refused (C10).
    - The parser ([Puzzle]): the round trip from five groups (C12), the
      soundness of any match (C13), and its equality with the backtracking
      matcher of the ECMAScript specification (C23).
    - Rendering ([Render]): the page built for a level (C14), the
      [TypeError] past the catalog (C15), the container kinds of any match
      (C25); with the repository's library a render draws one vertical
      stick in each container of a '1' and leaves the others empty (C16).
    - The symbol library ([Templates]): the
      orientation compares strings, which is right for percentages with
      the same number of digits and wrong otherwise (C18, with the order of
      digit strings proved in [JsRuntime]).
    - The specification's matcher and equation model ([Matcher]): the
      round trip holds for '1' only (C34), the library fails its own
      validation ([library_validation_fails]), no page derives a
      well-formed equation (C35), and [parseVisualEquation] agrees with
      [isArithmeticallyTrue] on printed integers (C36).
    - The specification's session machine ([SessionSpec]): the code refines
      it on the runs that keep to its commands, for catalogs whose puzzles
      parse (C37); a reset does not cancel a scheduled advance (C38).

    ** What is not modelled

    [console.log] and [console.error] (output only); the geometry of the
    CSS styles (kept as strings on the stick); the browser's timing of the
    1.5 s timer beyond "a pending callback fires later, between handlers".
    The JS built-ins are modelled on the inputs the program gives them.

    The specification's Stick Pattern Matcher, Equation Model, Move Ledger
    and Level Session are not implemented by the code: the check reads the
    stored characters and only shows messages.  They are therefore stated
    as abstract specifications ([Matcher], [SessionSpec], [Ledger]) and
    related to the code.  They are not translations of it, and the map does
    not list them.  The map covers every line of [src/script.js] that is not
    a comment, so no code is left to model.  The refinement of C37 excludes
    the runs on which the code and the machine diverge:
    - a reset of a [Solved] session (C38);
    - a reset past the catalog (C26);
    - a click or check outside [Active];
    - catalogs whose puzzles do not parse.

    ** Bounds and fuel

    JS numbers are modelled as [Z] (counters as [nat]): every number the
    code computes is a small integer (a level index, a move count, a digit
    run of a level string), far below 2^53, where doubles are exact.  The
    numbers [parseVisualEquation] reads are unbounded integers: a container
    character of more than 15 digits would be rounded by a double, which
    the model does not do; the containers of the catalog hold single
    characters.  The
    only fuel is that of the decimal printing of a natural number, which
    takes [N.size_nat n + 1] steps, more than its number of decimal
    digits; every other recursion is structural.
*)

From stdpp Require Export base list gmap strings.
From Stdlib Require Export ZArith Lia.

(** ** The JS completion monad *)

(** The thrown value: the code only ever throws [TypeError]s, from a property
    access on [undefined] or [null]. *)
Inductive JSExn := TypeError (msg : string).

(** The completion of a handler: normal, or abrupt with the state reached at
    the throw. *)
Inductive Completion (St A : Type) :=
| Normal (a : A) (s : St)
| Abrupt (e : JSExn) (s : St).
Arguments Normal {St A} _ _.
Arguments Abrupt {St A} _ _.

Definition JS (St A : Type) : Type := St -> Completion St A.

#[export] Instance js_ret {St} : MRet (JS St) := fun A a s => Normal a s.
#[export] Instance js_bind {St} : MBind (JS St) := fun A B f m s =>
  match m s with
  | Normal a s' => f a s'
  | Abrupt e s' => Abrupt e s'
  end.

Definition js_get {St} : JS St St := fun s => Normal s s.
Definition js_modify {St} (f : St -> St) : JS St unit := fun s => Normal tt (f s).
Definition js_throw {St A} (msg : string) : JS St A := fun s => Abrupt (TypeError msg) s.

(** Reading a property of a value that may be [undefined]. *)
Definition js_deref {St A} (o : option A) (msg : string) : JS St A :=
  match o with
  | Some a => mret a
  | None => js_throw msg
  end.

Declare Scope js_scope.
Delimit Scope js_scope with js.
Notation "o '??' msg" := (js_deref o msg) (at level 40, no associativity) : js_scope.
Notation "'throw!' msg" := (js_throw msg) (at level 10) : js_scope.
Open Scope js_scope.

(** [Array.prototype.forEach] with the index argument. *)
Fixpoint js_forEach_from {St A} (f : A -> nat -> JS St unit) (i : nat) (l : list A)
    : JS St unit :=
  match l with
  | [] => mret tt
  | x :: l' => f x i ;; js_forEach_from f (S i) l'
  end.

(** [l.forEach((x, i) => parent.appendChild(f(x, i)))]: the elements [f]
    creates, collected in order. *)
Fixpoint js_mapi_from {St A B} (f : A -> nat -> JS St B) (i : nat) (l : list A)
    : JS St (list B) :=
  match l with
  | [] => mret []
  | x :: l' => y ← f x i; ys ← js_mapi_from f (S i) l'; mret (y :: ys)
  end.

Definition final_state {St A} (c : Completion St A) : St :=
  match c with Normal _ s => s | Abrupt _ s => s end.

Definition threw {St A} (c : Completion St A) : bool :=
  match c with Normal _ _ => false | Abrupt _ _ => true end.

(** ** Weakest preconditions *)

Definition wp {St A} (m : JS St A) (Q : A -> St -> Prop) (E : St -> Prop) (s : St) : Prop :=
  match m s with
  | Normal a s' => Q a s'
  | Abrupt _ s' => E s'
  end.

Section Wp.
Context {St : Type}.

Lemma wp_ret {A} (a : A) Q E (s : St) : wp (mret a) Q E s <-> Q a s.
Proof. done. Qed.

Lemma wp_bind {A B} (m : JS St A) (f : A -> JS St B) Q E s :
  wp (m ≫= f) Q E s <-> wp m (fun a => wp (f a) Q E) E s.
Proof. unfold wp, mbind, js_bind. by destruct (m s). Qed.

Lemma wp_get Q E (s : St) : wp js_get Q E s <-> Q s s.
Proof. done. Qed.

Lemma wp_modify f Q E (s : St) : wp (js_modify f) Q E s <-> Q tt (f s).
Proof. done. Qed.

Lemma wp_throw {A} msg Q E (s : St) : wp (js_throw (St:=St) (A:=A) msg) Q E s <-> E s.
Proof. done. Qed.

Lemma wp_deref {A} (o : option A) msg Q E (s : St) :
  wp (o ?? msg) Q E s <-> match o with Some a => Q a s | None => E s end.
Proof. by destruct o. Qed.

Lemma wp_forEach_from {A} (f : A -> nat -> JS St unit) i l Q E s :
  wp (js_forEach_from f i l) Q E s <->
  match l with
  | [] => Q tt s
  | x :: l' => wp (f x i) (fun _ => wp (js_forEach_from f (S i) l') Q E) E s
  end.
Proof. destruct l; simpl; [done | apply wp_bind]. Qed.

Lemma wp_mono {A} (m : JS St A) (Q Q' : A -> St -> Prop) (E E' : St -> Prop) s :
  wp m Q E s -> (forall a s', Q a s' -> Q' a s') -> (forall s', E s' -> E' s') ->
  wp m Q' E' s.
Proof. unfold wp. destruct (m s); eauto. Qed.

Lemma wp_mapi_from {A B} (f : A -> nat -> JS St B) i l Q E s :
  wp (js_mapi_from f i l) Q E s <->
  match l with
  | [] => Q [] s
  | x :: l' => wp (f x i) (fun y => wp (js_mapi_from f (S i) l') (fun ys => Q (y :: ys)) E) E s
  end.
Proof.
  destruct l; simpl; [done|]. rewrite wp_bind.
  split; intros H; (eapply wp_mono; [exact H| |done]); intros y s' Hy;
    rewrite wp_bind in *; (eapply wp_mono; [exact Hy| |done]); done.
Qed.

(** A callback that only reads: the collected results, state unchanged. *)
Lemma js_mapi_pure {A B} (f : A -> nat -> JS St B) (g : A -> B) :
  (forall x i s, f x i s = Normal (g x) s) ->
  forall l i s, js_mapi_from f i l s = Normal (map g l) s.
Proof.
  intros Hf l. induction l as [|x l IH]; intros i s; [done|].
  simpl. unfold mbind, js_bind. rewrite Hf, IH. done.
Qed.

End Wp.

(** [wp_steps] walks a handler from left to right, rewriting each monadic
    combinator with its [wp] equation and splitting on the branches of the
    code. *)
Ltac wp_step :=
  match goal with
  | |- wp (mret _) _ _ _ => rewrite wp_ret
  | |- wp (_ ≫= _) _ _ _ => rewrite wp_bind
  | |- wp js_get _ _ _ => rewrite wp_get
  | |- wp (js_modify _) _ _ _ => rewrite wp_modify
  | |- wp (js_throw _) _ _ _ => rewrite wp_throw
  | |- wp (_ ?? _) _ _ _ => rewrite wp_deref
  | |- wp (js_forEach_from _ _ _) _ _ _ => rewrite wp_forEach_from
  | |- wp (js_mapi_from _ _ _) _ _ _ => rewrite wp_mapi_from
  | |- wp (match ?x with _ => _ end) _ _ _ => destruct x eqn:?
  | |- wp (if ?b then _ else _) _ _ _ => destruct b eqn:?
  | |- match ?x with _ => _ end => destruct x eqn:?
  | |- if ?b then _ else _ => destruct b eqn:?
  end.

Ltac wp_steps := repeat (wp_step; simpl).

(** [js_simpl] runs a handler on a symbolic state: it unfolds the monad and
    reduces, keeping the comparisons of the code folded so that they can be
    rewritten with the hypotheses on the state. *)
Ltac js_simpl :=
  repeat progress (
    unfold mbind, js_bind, mret, js_ret, js_get, js_modify, js_deref, js_throw;
    cbn -[Nat.ltb Nat.leb Nat.eqb Z.ltb Z.leb Z.eqb String.eqb bool_decide decide]).

Create HintDb js.
Create Rewrite HintDb js_rw.

(** ** Shared list lemmas *)

Section Lists.
Context {A : Type} `{EqDecision A}.

(** Removing every occurrence of an element, as [Node.removeChild] does
    with the single occurrence of a child. *)
Definition list_remove (x : A) (l : list A) : list A := filter (fun y => y ≠ x) l.

Lemma list_remove_not_in x l : x ∉ l -> list_remove x l = l.
Proof.
  induction l as [|y l IH]; intros Hx; [done|]. unfold list_remove in *.
  rewrite filter_cons_True by set_solver. f_equal. apply IH. set_solver.
Qed.

Lemma list_remove_perm x l : NoDup l -> x ∈ l -> x :: list_remove x l ≡ₚ l.
Proof.
  intros Hnd Hx. apply list_elem_of_split in Hx as (l1 & l2 & ->).
  apply NoDup_app in Hnd as (Hnd1 & Hdis & Hnd2). apply NoDup_cons in Hnd2 as [Hx2 _].
  assert (x ∉ l1) by (intros Hx1; apply (Hdis x); [done | by left]).
  unfold list_remove. rewrite filter_app, filter_cons_False by naive_solver.
  fold (list_remove x l1) (list_remove x l2).
  rewrite !list_remove_not_in by done. by rewrite Permutation_middle.
Qed.

Lemma list_remove_NoDup x l : NoDup l -> NoDup (list_remove x l).
Proof. intros. by apply NoDup_filter. Qed.

Lemma list_remove_elem x y l : y ∈ list_remove x l <-> y ∈ l /\ y ≠ x.
Proof. unfold list_remove. rewrite list_elem_of_filter. tauto. Qed.
End Lists.

#[export] Hint Resolve list_remove_NoDup : js.
