(* ===== verification/JsRuntime.v ===== *)
(** * The JavaScript built-ins that [src/script.js] calls

    Strings are ASCII strings ([String.string]); JS numbers are [Z] and [NaN]
    is [None].  Modelled from the ECMAScript definitions:
    - [parseInt] with no radix ([Number.parseInt], ECMA-262 21.1.2.13):
      skip leading white space, read a sign, switch to radix 16 on a
      ["0x"]/["0X"] prefix, read the longest run of digits of the radix,
      [NaN] when the run is empty;
    - [isNaN];
    - [js_number_to_string]: [Number::toString] on an integer, as done by an
      assignment [el.textContent = n];
    - [js_string_lt]: [IsLessThan] on two strings (code unit order, a proper
      prefix is smaller), which gives [a > b] as [js_string_lt b a];
    - [js_or_string]: [a || b] on a string [a] (the empty string is falsy). *)

From S2P Require Import Prelude.
From Stdlib Require Import Ascii.
Local Open Scope string_scope.

(** ** Characters *)

Definition is_decimal_digit (c : ascii) : bool :=
  let n := nat_of_ascii c in (48 <=? n)%nat && (n <=? 57)%nat.

(** The value of [c] as a digit of radix 16 (or of any smaller radix). *)
Definition hex_digit_value (c : ascii) : option nat :=
  let n := nat_of_ascii c in
  if (48 <=? n)%nat && (n <=? 57)%nat then Some (n - 48)%nat
  else if (97 <=? n)%nat && (n <=? 102)%nat then Some (n - 87)%nat
  else if (65 <=? n)%nat && (n <=? 70)%nat then Some (n - 55)%nat
  else None.

Definition radix_digit (radix : nat) (c : ascii) : option nat :=
  match hex_digit_value c with
  | Some v => if (v <? radix)%nat then Some v else None
  | None => None
  end.

(** [StrWhiteSpaceChar] restricted to code units below 256: TAB, LF, VT, FF,
    CR, SPACE and NO-BREAK SPACE. *)
Definition is_js_space (c : ascii) : bool :=
  let n := nat_of_ascii c in
  bool_decide (n ∈ [9; 10; 11; 12; 13; 32; 160]%nat).

Fixpoint trim_start (s : string) : string :=
  match s with
  | String c s' => if is_js_space c then trim_start s' else s
  | EmptyString => s
  end.

(** ** parseInt *)

(** The value of the longest prefix of radix digits, [acc] being the value
    of the digits already read; [None] when no digit at all was read. *)
Fixpoint digits_value (radix : nat) (seen : bool) (acc : Z) (s : string) : option Z :=
  match s with
  | String c s' =>
      match radix_digit radix c with
      | Some v => digits_value radix true (acc * Z.of_nat radix + Z.of_nat v)%Z s'
      | None => if seen then Some acc else None
      end
  | EmptyString => if seen then Some acc else None
  end.

Definition parse_sign (s : string) : Z * string :=
  match s with
  | String "-"%char r => (-1, r)%Z
  | String "+"%char r => (1, r)%Z
  | _ => (1, s)%Z
  end.

Definition parseInt (s : string) : option Z :=
  let '(sign, s2) := parse_sign (trim_start s) in
  let '(radix, s3) :=
    match s2 with
    | String "0"%char (String x r) =>
        if (x =? "x")%char || (x =? "X")%char then (16%nat, r) else (10%nat, s2)
    | _ => (10%nat, s2)
    end in
  option_map (Z.mul sign) (digits_value radix false 0 s3).

Definition isNaN (n : option Z) : bool :=
  match n with None => true | Some _ => false end.

(** ** Number to string *)

Definition digit_char (d : N) : ascii := ascii_of_N (48 + d).

(** The decimal digits of [n], least significant first; [fuel] bounds the
    number of digits. *)
Fixpoint decimal_rev (fuel : nat) (n : N) : list ascii :=
  match fuel with
  | O => []
  | S f => digit_char (n mod 10) :: (if (n <? 10)%N then [] else decimal_rev f (n / 10))
  end.

(** [N.size_nat n] (the number of bits of [n]) is at least its number of
    decimal digits. *)
Definition N_to_decimal (n : N) : string :=
  String.string_of_list_ascii (rev (decimal_rev (S (N.size_nat n)) n)).

Definition js_number_to_string (z : Z) : string :=
  if (z <? 0)%Z then "-" ++ N_to_decimal (Z.to_N (- z)) else N_to_decimal (Z.to_N z).

(** Conversion is evaluated on concrete numbers only ([vm_compute]); in
    proofs about symbolic states it stays folded. *)
Arguments js_number_to_string : simpl never.

(** ** Strings *)

Fixpoint js_string_lt (a b : string) : bool :=
  match a, b with
  | EmptyString, EmptyString => false
  | EmptyString, String _ _ => true
  | String _ _, EmptyString => false
  | String ca a', String cb b' =>
      if (nat_of_ascii ca <? nat_of_ascii cb)%nat then true
      else if (nat_of_ascii cb <? nat_of_ascii ca)%nat then false
      else js_string_lt a' b'
  end.

Definition js_string_gt (a b : string) : bool := js_string_lt b a.

Definition js_truthy_string (s : string) : bool := negb (String.eqb s "").

Definition js_or_string (a b : string) : string := if js_truthy_string a then a else b.

(** A string of decimal digits, as matched by [\d+]. *)
Definition all_digits (s : string) : bool :=
  forallb is_decimal_digit (String.list_ascii_of_string s).

(** ** Facts *)

(** [parseInt(c || '?')] is [parseInt(c)]: both are [NaN] on [""]. *)
Lemma parseInt_or_qmark c : parseInt (js_or_string c "?") = parseInt c.
Proof. unfold js_or_string, js_truthy_string. by destruct c. Qed.

Lemma or_qmark_eq_plus c : js_or_string c "?" = "+" <-> c = "+".
Proof. unfold js_or_string, js_truthy_string. destruct c; simpl; naive_solver. Qed.

(** ** Printing a number and reading it back *)

Lemma digit_char_spec d :
  (d < 10)%N -> radix_digit 10 (digit_char d) = Some (N.to_nat d) /\
  is_decimal_digit (digit_char d) = true.
Proof.
  intros Hd.
  assert (d = 0 \/ d = 1 \/ d = 2 \/ d = 3 \/ d = 4 \/ d = 5 \/ d = 6 \/ d = 7 \/ d = 8 \/ d = 9)%N
    as Hc by lia.
  repeat destruct Hc as [->|Hc]; [..|subst d]; split; reflexivity.
Qed.

Lemma decimal_rev_S f n :
  decimal_rev (S f) n =
  digit_char (n mod 10) :: (if (n <? 10)%N then [] else decimal_rev f (n / 10)).
Proof. reflexivity. Qed.

Lemma string_app_cons c s1 s2 : (String c s1 ++ s2)%string = String c (s1 ++ s2).
Proof. reflexivity. Qed.

Lemma string_app_nil s : ("" ++ s)%string = s.
Proof. reflexivity. Qed.

Lemma string_app_assoc s1 s2 s3 : ((s1 ++ s2) ++ s3)%string = (s1 ++ s2 ++ s3)%string.
Proof. induction s1 as [|c s1 IH]; [done|]. by rewrite !string_app_cons, IH. Qed.

Lemma string_of_list_ascii_app l1 l2 :
  String.string_of_list_ascii (l1 ++ l2) =
  (String.string_of_list_ascii l1 ++ String.string_of_list_ascii l2)%string.
Proof. induction l1 as [|c l1 IH]; simpl; [done|]. by rewrite IH. Qed.

(** The digits printed with enough fuel read back, from left to right, as
    the number: reading them after a value [acc] gives [acc * 10^k + n]. *)
Lemma decimal_rev_digits f n seen acc s :
  (n < 10 ^ N.of_nat (S f))%N ->
  exists k, digits_value 10 seen acc
              (String.string_of_list_ascii (rev (decimal_rev (S f) n)) ++ s)%string =
            digits_value 10 true (acc * 10 ^ k + Z.of_N n)%Z s /\ (0 <= k)%Z.
Proof.
  revert n acc s. induction f as [|f IH]; intros n acc s Hn; rewrite decimal_rev_S; cbn [rev].
  all: destruct (digit_char_spec (n mod 10)) as [Hr _]; [apply N.mod_lt; lia|].
  all: destruct (N.ltb_spec n 10) as [Hlt|Hge].
  - exists 1%Z. rewrite N.mod_small in * by done.
    cbn [rev app String.string_of_list_ascii].
    rewrite string_app_cons, string_app_nil. cbn. rewrite Hr.
    split; [do 2 f_equal; lia | lia].
  - rewrite N.pow_1_r in Hn. lia.
  - exists 1%Z. rewrite N.mod_small in * by done.
    cbn [rev app String.string_of_list_ascii].
    rewrite string_app_cons, string_app_nil. cbn. rewrite Hr.
    split; [do 2 f_equal; lia | lia].
  - rewrite string_of_list_ascii_app, string_app_assoc. cbn [String.string_of_list_ascii].
    rewrite string_app_cons, string_app_nil.
    destruct (IH (n / 10)%N acc (String (digit_char (n mod 10)) s)) as (k & -> & Hk).
    { rewrite Nat2N.inj_succ, N.pow_succ_r' in Hn. apply N.Div0.div_lt_upper_bound; lia. }
    exists (k + 1)%Z. cbn. rewrite Hr. split; [|lia]. f_equal.
    rewrite Z.pow_add_r, Z.pow_1_r by lia.
    pose proof (N.div_mod n 10 ltac:(lia)) as Hdm.
    rewrite N_nat_Z. change (Z.of_nat 10) with 10%Z. lia.
Qed.

Lemma size_nat_bound p : (Z.pos p < 2 ^ Z.of_nat (Pos.size_nat p))%Z.
Proof.
  induction p as [p IH|p IH|]; [| |reflexivity]; cbn [Pos.size_nat];
    rewrite Nat2Z.inj_succ, Z.pow_succ_r by lia; lia.
Qed.

(** The fuel of [N_to_decimal] is enough. *)
Lemma N_to_decimal_fuel n : (n < 10 ^ N.of_nat (S (N.size_nat n)))%N.
Proof.
  destruct n as [|p]; [cbn; lia|]. apply N2Z.inj_lt. rewrite N2Z.inj_pow, nat_N_Z.
  cbn [N.size_nat]. pose proof (size_nat_bound p) as Hb.
  assert (2 ^ Z.of_nat (Pos.size_nat p) <= 10 ^ Z.of_nat (Pos.size_nat p))%Z
    by (apply Z.pow_le_mono_l; lia).
  rewrite Nat2Z.inj_succ, Z.pow_succ_r by lia. cbn. lia.
Qed.

Lemma decimal_rev_all_digits f n : Forall (fun c => is_decimal_digit c = true) (decimal_rev f n).
Proof.
  revert n. induction f as [|f IH]; intros n; [constructor|]. rewrite decimal_rev_S.
  constructor; [apply digit_char_spec, N.mod_lt; lia|]. case_match; [constructor | apply IH].
Qed.

Lemma N_to_decimal_digits n :
  all_digits (N_to_decimal n) = true /\ N_to_decimal n <> "".
Proof.
  unfold all_digits, N_to_decimal. rewrite String.list_ascii_of_string_of_list_ascii. split.
  - apply forallb_forall. intros c Hc%in_rev.
    exact (proj1 (List.Forall_forall _ _) (decimal_rev_all_digits _ n) c Hc).
  - rewrite decimal_rev_S. cbn [rev]. rewrite string_of_list_ascii_app.
    destruct (String.string_of_list_ascii (rev _)); discriminate.
Qed.

Lemma string_app_nil_r s : (s ++ "")%string = s.
Proof. induction s as [|c s IH]; [done|]. by rewrite string_app_cons, IH. Qed.

Lemma N_to_decimal_value m : digits_value 10 false 0 (N_to_decimal m) = Some (Z.of_N m).
Proof.
  unfold N_to_decimal. rewrite <- (string_app_nil_r (String.string_of_list_ascii _)).
  destruct (decimal_rev_digits _ m false 0 "" (N_to_decimal_fuel m)) as (k & -> & _).
  cbn. f_equal; lia.
Qed.

Lemma digit_cases c :
  is_decimal_digit c = true ->
  c ∈ ["0"; "1"; "2"; "3"; "4"; "5"; "6"; "7"; "8"; "9"]%char.
Proof.
  unfold is_decimal_digit. rewrite <- (ascii_nat_embedding c). rewrite nat_ascii_embedding
    by (pose proof (nat_ascii_bounded c); lia).
  intros [H1 H2]%andb_true_iff. apply Nat.leb_le in H1, H2.
  assert (nat_of_ascii c ∈ seq 48 10) as Hn by (apply elem_of_seq; lia).
  revert Hn. generalize (nat_of_ascii c). intros n Hn.
  repeat (apply elem_of_cons in Hn as [->|Hn]; [by vm_compute; set_solver|]).
  by apply elem_of_nil in Hn.
Qed.

(** [parseInt] of a string of decimal digits, with or without a minus sign,
    is the value of the digits: the sign is read and no ["0x"] prefix can
    occur. *)
Lemma parseInt_digits sign s :
  sign = "" \/ sign = "-" -> all_digits s = true ->
  parseInt (sign ++ s) =
  option_map (Z.mul (if String.eqb sign "-" then -1 else 1)) (digits_value 10 false 0 s).
Proof.
  intros Hsign Hd. destruct s as [|c [|x r]]; [by destruct Hsign as [->| ->]| |];
    unfold all_digits in Hd; cbn in Hd; rewrite ?andb_true_iff in Hd.
  - destruct Hd as [Hc _]. apply digit_cases in Hc.
    destruct Hsign as [->| ->];
      repeat (apply elem_of_cons in Hc as [->|Hc]; [reflexivity|]); by apply elem_of_nil in Hc.
  - destruct Hd as [Hc [Hx _]]. apply digit_cases in Hc, Hx.
    destruct Hsign as [->| ->];
      repeat (apply elem_of_cons in Hc as [->|Hc];
        [repeat (apply elem_of_cons in Hx as [->|Hx]; [reflexivity|]); by apply elem_of_nil in Hx|]);
      by apply elem_of_nil in Hc.
Qed.

(** A number shown with [el.textContent = n] reads back with [parseInt]. *)
Lemma parseInt_number_to_string z : parseInt (js_number_to_string z) = Some z.
Proof.
  unfold js_number_to_string. destruct (Z.ltb_spec z 0).
  - rewrite (parseInt_digits "-") by (auto; apply N_to_decimal_digits).
    rewrite N_to_decimal_value. cbn. rewrite Z2N.id by lia. f_equal; lia.
  - rewrite <- (string_app_nil (N_to_decimal _)).
    rewrite (parseInt_digits "") by (auto; apply N_to_decimal_digits).
    rewrite N_to_decimal_value. cbn. rewrite Z2N.id by lia. f_equal; lia.
Qed.

Lemma digits_value_digits s seen acc :
  all_digits s = true -> (s <> "" \/ seen = true) -> is_Some (digits_value 10 seen acc s).
Proof.
  revert seen acc. induction s as [|c s IH]; intros seen acc Hd Hne; simpl.
  - destruct Hne as [Hne| ->]; [done | by eexists].
  - unfold all_digits in Hd. simpl in Hd. apply andb_true_iff in Hd as [Hc Hd].
    apply digit_cases in Hc.
    repeat (apply elem_of_cons in Hc as [->|Hc]; [apply IH; [done | by right]|]).
    by apply elem_of_nil in Hc.
Qed.

(** A non-empty run of decimal digits is a number for [parseInt]. *)
Lemma parseInt_digits_some s : all_digits s = true -> s <> "" -> is_Some (parseInt s).
Proof.
  intros Hd Hne. rewrite <- (string_app_nil s), (parseInt_digits "" s) by auto.
  destruct (digits_value_digits s false 0 Hd (or_introl Hne)) as [v ->]. by eexists.
Qed.

(** A non-empty string is truthy: [s || b] is [s]. *)
Lemma js_or_string_nonempty s b : s <> "" -> js_or_string s b = s.
Proof.
  intros Hs. unfold js_or_string, js_truthy_string.
  by rewrite (proj2 (String.eqb_neq s "") Hs).
Qed.

(** Printing a number never gives the empty string. *)
Lemma js_number_to_string_nonempty z : js_number_to_string z <> "".
Proof. intros E. pose proof (parseInt_number_to_string z) as H. by rewrite E in H. Qed.

(** ** Order of digit strings *)

Lemma decimal_digit_value c :
  is_decimal_digit c = true ->
  exists d, (d < 10)%nat /\ radix_digit 10 c = Some d /\ nat_of_ascii c = (48 + d)%nat.
Proof.
  intros Hc%digit_cases. exists (nat_of_ascii c - 48)%nat.
  repeat (apply elem_of_cons in Hc as [->|Hc]; [vm_compute; split_and!; done || lia|]).
  by apply elem_of_nil in Hc.
Qed.

(** A run of digits read after [acc]: [acc] shifted by the length of the
    run plus the value of the run, which is below [10 ^ length]. *)
Lemma digits_value_affine s :
  all_digits s = true ->
  exists w, (0 <= w < 10 ^ Z.of_nat (String.length s))%Z /\
    forall acc, digits_value 10 true acc s = Some (acc * 10 ^ Z.of_nat (String.length s) + w)%Z.
Proof.
  induction s as [|c s IH]; intros Hd.
  - exists 0%Z. split; [cbn; lia|]. intros acc. cbn. f_equal. lia.
  - unfold all_digits in Hd. cbn in Hd. apply andb_true_iff in Hd as [Hc Hd].
    destruct (decimal_digit_value c Hc) as (d & Hd10 & Hr & _).
    destruct (IH Hd) as (w & Hw & Hv).
    exists (Z.of_nat d * 10 ^ Z.of_nat (String.length s) + w)%Z.
    cbn [String.length]. rewrite Nat2Z.inj_succ, Z.pow_succ_r by lia. split; [nia|].
    intros acc. cbn. rewrite Hr, Hv. f_equal. lia.
Qed.

Lemma digits_value_seen s acc :
  s <> "" -> all_digits s = true -> digits_value 10 true acc s = digits_value 10 false acc s.
Proof.
  destruct s as [|c s]; [done|]. intros _ Hd. unfold all_digits in Hd. cbn in Hd.
  apply andb_true_iff in Hd as [Hc _]. destruct (decimal_digit_value c Hc) as (d & _ & Hr & _).
  cbn. by rewrite Hr.
Qed.

Lemma js_string_lt_irrefl t : js_string_lt t t = false.
Proof. induction t as [|c t IH]; [done|]. cbn -[Nat.ltb]. by rewrite Nat.ltb_irrefl. Qed.

(** Two digit runs of the same length, followed by the same text, compare
    as strings the way their values compare as numbers. *)
Lemma js_string_lt_digits s1 s2 t w1 w2 :
  all_digits s1 = true -> all_digits s2 = true -> String.length s1 = String.length s2 ->
  digits_value 10 true 0 s1 = Some w1 -> digits_value 10 true 0 s2 = Some w2 ->
  js_string_lt (s1 ++ t) (s2 ++ t) = bool_decide (w1 < w2)%Z.
Proof.
  revert s2 w1 w2. induction s1 as [|c1 s1 IH]; intros [|c2 s2] w1 w2 H1 H2 Hlen V1 V2;
    try discriminate.
  - cbn in V1, V2. simplify_eq. rewrite string_app_nil, js_string_lt_irrefl.
    by rewrite bool_decide_eq_false_2 by lia.
  - unfold all_digits in H1, H2. cbn in H1, H2, Hlen.
    apply andb_true_iff in H1 as [Hc1 H1], H2 as [Hc2 H2]. injection Hlen as Hlen.
    destruct (decimal_digit_value c1 Hc1) as (d1 & ? & R1 & N1),
      (decimal_digit_value c2 Hc2) as (d2 & ? & R2 & N2).
    destruct (digits_value_affine s1 H1) as (u1 & Hu1 & U1),
      (digits_value_affine s2 H2) as (u2 & Hu2 & U2).
    cbn in V1, V2. rewrite R1, U1 in V1. rewrite R2, U2 in V2. simplify_eq.
    rewrite !string_app_cons. cbn [js_string_lt]. rewrite N1, N2, Hlen in *.
    set (P := (10 ^ Z.of_nat (String.length s2))%Z) in *.
    destruct (Nat.ltb_spec (48 + d1) (48 + d2)).
    { assert (Z.of_nat d1 * P + P <= Z.of_nat d2 * P)%Z by nia.
      rewrite bool_decide_eq_true_2 by lia. done. }
    destruct (Nat.ltb_spec (48 + d2) (48 + d1)).
    { assert (Z.of_nat d2 * P + P <= Z.of_nat d1 * P)%Z by nia.
      rewrite bool_decide_eq_false_2 by lia. done. }
    assert (d1 = d2) as <- by lia.
    rewrite (IH s2 u1 u2); [| done | done | done | rewrite U1; f_equal; lia | rewrite U2; f_equal; lia].
    apply bool_decide_ext. lia.
Qed.

(** [N_to_decimal n] read back from the first digit. *)
Lemma N_to_decimal_value_seen n : digits_value 10 true 0 (N_to_decimal n) = Some (Z.of_N n).
Proof.
  destruct (N_to_decimal_digits n) as [Hd Hne].
  by rewrite digits_value_seen, N_to_decimal_value.
Qed.
