(* ===== verification/Templates.v ===== *)
(** * The symbol library: [stickTemplates] (src/script.js, lines 20-36)

    A JS object literal from characters to arrays of stick descriptors.  It
    is an association list here, in the order of the literal; a lookup of a
    key that is not an own property gives [undefined] ([None]), which is
    what JS does for every key the code looks up (capture groups of digits
    and operators, never the name of a property of [Object.prototype]).
    Only ['1'] has a stick; the twelve other entries are empty arrays (the
    source leaves them as placeholders).  The orientation class a rendered stick
    gets (line 93) compares the two CSS length strings with [>], which is a
    comparison of strings, not of lengths. *)

From S2P Require Import Prelude JsRuntime.
Local Open Scope string_scope.

Record StickData := mkStickData {
  sd_type : string;
  sd_top : string;
  sd_left : string;
  sd_height : string;
  sd_width : string
}.

Definition stickTemplates_table : list (string * list StickData) :=
  [("1", [mkStickData "vertical" "25%" "45%" "50%" "10%"]);
   ("2", []); ("3", []); ("4", []); ("5", []); ("6", []); ("7", []);
   ("8", []); ("9", []); ("0", []); ("+", []); ("-", []); ("=", [])].

Fixpoint assoc_lookup {A} (k : string) (l : list (string * A)) : option A :=
  match l with
  | [] => None
  | (k', v) :: l' => if String.eqb k k' then Some v else assoc_lookup k l'
  end.

(** [stickTemplates[char]] *)
Definition stickTemplates (c : string) : option (list StickData) :=
  assoc_lookup c stickTemplates_table.

(** The class added at line 93:
    [stickData.height > stickData.width ? 'vertical' : 'horizontal']. *)
Inductive Orientation := Vertical | Horizontal.

#[export] Instance Orientation_eq_dec : EqDecision Orientation.
Proof. solve_decision. Defined.

Definition stick_orientation (sd : StickData) : Orientation :=
  if js_string_gt (sd_height sd) (sd_width sd) then Vertical else Horizontal.

Lemma assoc_lookup_elem {A} k (l : list (string * A)) v :
  assoc_lookup k l = Some v -> (k, v) ∈ l.
Proof.
  induction l as [|[k' v'] l IH]; simpl; [done|].
  destruct (String.eqb_spec k k') as [->|]; intros Hv; simplify_eq; set_solver.
Qed.

(** Every template but the one of ['1'] is empty. *)
Lemma stickTemplates_other c l : stickTemplates c = Some l -> c <> "1" -> l = [].
Proof.
  intros Hl Hne. apply assoc_lookup_elem in Hl. unfold stickTemplates_table in Hl.
  repeat (apply elem_of_cons in Hl as [Hl|Hl]; [by simplify_eq|]).
  by apply elem_of_nil in Hl.
Qed.

(** The one stick of the library: the template of ['1']. *)
Lemma stickTemplates_elem c l sd :
  stickTemplates c = Some l -> sd ∈ l -> c = "1" /\ sd = mkStickData "vertical" "25%" "45%" "50%" "10%".
Proof.
  intros Hl Hsd. destruct (String.eqb_spec c "1") as [->|Hne].
  - cbn in Hl. simplify_eq. split; [done|]. set_solver.
  - rewrite (stickTemplates_other c l Hl Hne) in Hsd. set_solver.
Qed.

(** Whenever the two percentages have the same number of digits, the
    string comparison agrees with the comparison of the lengths. *)
Lemma orientation_same_digits ty top left h w :
  String.length (N_to_decimal h) = String.length (N_to_decimal w) ->
  stick_orientation (mkStickData ty top left (N_to_decimal h ++ "%") (N_to_decimal w ++ "%")) =
    if (w <? h)%N then Vertical else Horizontal.
Proof.
  intros Hlen. unfold stick_orientation, js_string_gt. cbn [sd_height sd_width].
  destruct (N_to_decimal_digits h) as [Hh _], (N_to_decimal_digits w) as [Hw _].
  rewrite (js_string_lt_digits _ _ _ (Z.of_N w) (Z.of_N h)) by auto using N_to_decimal_value_seen.
  destruct (N.ltb_spec w h); [rewrite bool_decide_eq_true_2 | rewrite bool_decide_eq_false_2]; done || lia.
Qed.

(** C18. The orientation class compares the CSS lengths as strings.  When
    the two percentages have the same number of digits, that agrees with
    the comparison of the lengths: a stick [h%] high and [w%] wide is
    classed vertical when [w < h] and horizontal otherwise, as for the
    stick of ['1'] (50% by 10%).  With different numbers of digits it can
    be wrong: a 9%-high, 10%-wide stick is classed vertical, and a
    100%-high, 20%-wide one horizontal. *)
Theorem orientation_compares_strings :
  (forall ty top left h w,
     String.length (N_to_decimal h) = String.length (N_to_decimal w) ->
     stick_orientation (mkStickData ty top left (N_to_decimal h ++ "%") (N_to_decimal w ++ "%")) =
       if (w <? h)%N then Vertical else Horizontal) /\
  stick_orientation (mkStickData "horizontal" "0%" "0%" "9%" "10%") = Vertical /\
  stick_orientation (mkStickData "vertical" "0%" "0%" "100%" "20%") = Horizontal.
Proof. split; [exact orientation_same_digits | vm_compute; auto]. Qed.

Lemma orientation_compares_strings_witness :
  stick_orientation (mkStickData "vertical" "25%" "45%" (N_to_decimal 50 ++ "%") (N_to_decimal 10 ++ "%")) =
    if (10 <? 50)%N then Vertical else Horizontal.
Proof. apply (proj1 orientation_compares_strings). vm_compute. reflexivity. Defined.
