(* ===== verification/Levels.v ===== *)
(** * The level catalog [levels] (src/script.js, lines 39-59) and the
      configuration class

    A [Level] has the four properties of the object literals of the source;
    [solution] is a JS arrow function on [(num1, op, num2, res)] comparing
    with [===]; the code never calls it.  [GameConfig] packs the two
    constant tables the handlers read ([stickTemplates] and [levels]), so
    that the handlers are defined once for any catalog: the theorems proved
    under a [GameConfig] hold for every catalog, and [source_config] is the
    instance of the repository. *)

From S2P Require Import Prelude JsRuntime Templates.
Local Open Scope string_scope.

Record Level := mkLevel {
  puzzle : string;
  movesAllowed : nat;
  solution : Z -> string -> Z -> Z -> bool;
  solutionString : string
}.

Definition levels : list Level :=
  [mkLevel "1-1=9" 2
     (fun num1 op num2 res => (num1 =? 1)%Z && String.eqb op "+" && (num2 =? 1)%Z && (res =? 2)%Z)
     "1+1=2";
   mkLevel "3-4=1" 1
     (fun num1 op num2 res => (num1 =? 5)%Z && String.eqb op "-" && (num2 =? 4)%Z && (res =? 1)%Z)
     "5-4=1";
   mkLevel "0-3=6" 1
     (fun num1 op num2 res => (num1 =? 9)%Z && String.eqb op "-" && (num2 =? 3)%Z && (res =? 6)%Z)
     "9-3=6"].

(** The message of the [TypeError] thrown by [level.movesAllowed] when
    [level] is [levels[i]] past the end of the catalog. *)
Definition movesAllowed_msg : string :=
  "Cannot read properties of undefined (reading 'movesAllowed')".

Class GameConfig := {
  cfg_templates : string -> option (list StickData);
  cfg_levels : list Level
}.

#[export] Instance source_config : GameConfig := {|
  cfg_templates := stickTemplates;
  cfg_levels := levels
|}.
