(* ===== verification/Puzzle.v ===== *)
(** * The puzzle parser: [equation.match(/(\d+)([-+=])(\d+)([-+=])(\d+)/)]
      (src/script.js, line 76)

    [String.prototype.match] with a non-global regular expression returns
    the first match, trying the start positions from left to right.  At a
    given start the backtracking matcher tries the longest digit run of a
    greedy [\d+] first; a shorter run is followed by a digit, which
    [[-+=]] rejects, so only the longest run of each of the first two groups
    can take part in a match, and the greedy last group takes the longest run
    too.  [match_at] is therefore the deterministic matcher at one start
    position, and [puzzle_match] the search over the start positions.  The
    argument is made a theorem: [pattern_at] and [regex_exec] are the
    backtracking matcher with continuations of the ECMAScript specification,
    and [puzzle_match] equals [regex_exec] on every string. *)

From S2P Require Import Prelude JsRuntime.
From Stdlib Require Import Ascii.
Local Open Scope string_scope.

(** The longest prefix of decimal digits, and the rest. *)
Fixpoint take_digits (s : string) : string * string :=
  match s with
  | String c s' =>
      if is_decimal_digit c then let '(d, r) := take_digits s' in (String c d, r)
      else ("", s)
  | EmptyString => ("", "")
  end.

(** [[-+=]] *)
Definition is_op_char (c : ascii) : bool :=
  (c =? "-")%char || (c =? "+")%char || (c =? "=")%char.

(** [(\d+)]: the group and the rest, at the current position. *)
Definition digit_group (s : string) : option (string * string) :=
  let '(d, r) := take_digits s in
  if String.eqb d "" then None else Some (d, r).

(** [([-+=])] *)
Definition op_group (s : string) : option (string * string) :=
  match s with
  | String c r => if is_op_char c then Some (String c "", r) else None
  | EmptyString => None
  end.

(** The five capture groups [parts[1]] ... [parts[5]]. *)
Record RegexMatch := mkMatch {
  g_num1 : string;
  g_op1 : string;
  g_num2 : string;
  g_op2 : string;
  g_res : string
}.

Definition groups (m : RegexMatch) : list string :=
  [g_num1 m; g_op1 m; g_num2 m; g_op2 m; g_res m].

Definition match_at (s : string) : option RegexMatch :=
  '(d1, r1) ← digit_group s;
  '(o1, r2) ← op_group r1;
  '(d2, r3) ← digit_group r2;
  '(o2, r4) ← op_group r3;
  '(d3, _) ← digit_group r4;
  Some (mkMatch d1 o1 d2 o2 d3).

(** [null] is [None]. *)
Fixpoint puzzle_match (s : string) : option RegexMatch :=
  match match_at s with
  | Some m => Some m
  | None =>
      match s with
      | String _ s' => puzzle_match s'
      | EmptyString => None
      end
  end.

(** A string that does not start with a decimal digit (where a greedy
    [\d+] stops). *)
Definition starts_with_digit (s : string) : bool :=
  match s with String c _ => is_decimal_digit c | EmptyString => false end.

(** A single character of [[-+=]]. *)
Definition is_op_group (g : string) : bool :=
  match g with String c EmptyString => is_op_char c | _ => false end.

(** ** The reference semantics: the backtracking matcher

    ECMAScript matches a pattern by continuation passing: a matcher takes
    the input and a continuation, and a greedy quantifier first tries one
    more repetition and backtracks to fewer when the continuation fails
    (RepeatMatcher, ECMA-262 22.2.2.3.1).  [star_class] is [cls*] run that
    way, [acc] holding the characters already matched; [plus_class] is
    [cls+] (one repetition, then [cls*]); [class1] is a single [[...]]. *)
Fixpoint star_class {R} (cls : ascii -> bool) (s : string)
    (k : string -> string -> option R) (acc : string) : option R :=
  match s with
  | String c s' =>
      if cls c then
        match star_class cls s' k (acc ++ String c "") with
        | Some r => Some r
        | None => k acc s
        end
      else k acc s
  | EmptyString => k acc s
  end.

Definition plus_class {R} (cls : ascii -> bool) (s : string)
    (k : string -> string -> option R) : option R :=
  match s with
  | String c s' => if cls c then star_class cls s' k (String c "") else None
  | EmptyString => None
  end.

Definition class1 {R} (cls : ascii -> bool) (s : string)
    (k : string -> string -> option R) : option R :=
  match s with
  | String c s' => if cls c then k (String c "") s' else None
  | EmptyString => None
  end.

(** [/(\d+)([-+=])(\d+)([-+=])(\d+)/] at one start position. *)
Definition pattern_at (s : string) : option RegexMatch :=
  plus_class is_decimal_digit s (fun d1 r1 =>
  class1 is_op_char r1 (fun o1 r2 =>
  plus_class is_decimal_digit r2 (fun d2 r3 =>
  class1 is_op_char r3 (fun o2 r4 =>
  plus_class is_decimal_digit r4 (fun d3 _ => Some (mkMatch d1 o1 d2 o2 d3)))))).

(** [RegExpBuiltinExec] without the global flag: the start positions from
    left to right. *)
Fixpoint regex_exec (s : string) : option RegexMatch :=
  match pattern_at s with
  | Some m => Some m
  | None =>
      match s with
      | String _ s' => regex_exec s'
      | EmptyString => None
      end
  end.

Lemma take_digits_spec s d r :
  take_digits s = (d, r) -> s = (d ++ r)%string /\ all_digits d = true /\ starts_with_digit r = false.
Proof.
  revert d r. induction s as [|c s IH]; intros d r; simpl.
  - intros [= <- <-]. done.
  - destruct (is_decimal_digit c) eqn:Hc.
    + destruct (take_digits s) as [d' r'] eqn:E. intros [= <- <-].
      destruct (IH d' r' eq_refl) as (-> & Hd & Hr). unfold all_digits in *. simpl.
      by rewrite Hc, Hd.
    + intros [= <- <-]. simpl. by rewrite Hc.
Qed.

Lemma take_digits_app d r :
  all_digits d = true -> starts_with_digit r = false -> take_digits (d ++ r)%string = (d, r).
Proof.
  induction d as [|c d IH]; simpl; intros Hd Hr.
  - destruct r as [|c r]; simpl in *; [done|]. by rewrite Hr.
  - unfold all_digits in Hd. simpl in Hd. apply andb_true_iff in Hd as [Hc Hd].
    rewrite Hc, IH by done. done.
Qed.

Lemma digit_group_app d r :
  all_digits d = true -> d <> "" -> starts_with_digit r = false ->
  digit_group (d ++ r)%string = Some (d, r).
Proof.
  intros Hd Hne Hr. unfold digit_group. rewrite take_digits_app by done.
  destruct d; [done|]. reflexivity.
Qed.

Lemma digit_group_spec s d r :
  digit_group s = Some (d, r) ->
  s = (d ++ r)%string /\ all_digits d = true /\ d <> "" /\ starts_with_digit r = false.
Proof.
  unfold digit_group. destruct (take_digits s) as [d' r'] eqn:E.
  destruct (String.eqb_spec d' "") as [|Hne]; [done|]. intros [= <- <-].
  apply take_digits_spec in E as (-> & Hd & Hr). done.
Qed.

Lemma op_group_spec s o r :
  op_group s = Some (o, r) -> s = (o ++ r)%string /\ is_op_group o = true.
Proof.
  unfold op_group. destruct s as [|c s]; [done|].
  destruct (is_op_char c) eqn:Hc; [|done]. intros [= <- <-]. simpl. by rewrite Hc.
Qed.

Lemma match_at_spec s m :
  match_at s = Some m ->
  exists post, s = (g_num1 m ++ g_op1 m ++ g_num2 m ++ g_op2 m ++ g_res m ++ post)%string /\
    all_digits (g_num1 m) = true /\ g_num1 m <> "" /\ is_op_group (g_op1 m) = true /\
    all_digits (g_num2 m) = true /\ g_num2 m <> "" /\ is_op_group (g_op2 m) = true /\
    all_digits (g_res m) = true /\ g_res m <> "".
Proof.
  unfold match_at.
  destruct (digit_group s) as [[d1 r1]|] eqn:E1; [|done]. simpl.
  destruct (op_group r1) as [[o1 r2]|] eqn:E2; [|done]. simpl.
  destruct (digit_group r2) as [[d2 r3]|] eqn:E3; [|done]. simpl.
  destruct (op_group r3) as [[o2 r4]|] eqn:E4; [|done]. simpl.
  destruct (digit_group r4) as [[d3 r5]|] eqn:E5; [|done]. simpl. intros [= <-]. simpl.
  apply digit_group_spec in E1 as (-> & ? & ? & _), E3 as (-> & ? & ? & _), E5 as (-> & ? & ? & _).
  apply op_group_spec in E2 as (-> & ?), E4 as (-> & ?).
  exists r5. by split_and!.
Qed.

(** A match at the first position is the result. *)
Lemma puzzle_match_at s m : match_at s = Some m -> puzzle_match s = Some m.
Proof. intros Hm. destruct s as [|c s]; [done|]. simpl. by rewrite Hm. Qed.

Lemma op_char_not_digit c : is_op_char c = true -> is_decimal_digit c = false.
Proof.
  unfold is_op_char. intros Hc.
  repeat (apply orb_true_iff in Hc as [Hc|Hc]); apply Ascii.eqb_eq in Hc as ->; reflexivity.
Qed.

(** The groups of any match are three non-empty digit runs and two
    operators. *)
Lemma puzzle_match_groups s m :
  puzzle_match s = Some m ->
  all_digits (g_num1 m) = true /\ g_num1 m <> "" /\ is_op_group (g_op1 m) = true /\
  all_digits (g_num2 m) = true /\ g_num2 m <> "" /\ is_op_group (g_op2 m) = true /\
  all_digits (g_res m) = true /\ g_res m <> "".
Proof.
  induction s as [|c s IH]; [done|]. cbn [puzzle_match].
  destruct (match_at (String c s)) eqn:E; [|done].
  intros [= <-]. by destruct (match_at_spec _ _ E) as (post & _ & ?).
Qed.

(** C12. The puzzle regular expression splits a string made of a digit run,
    an operator, a digit run, an operator and a digit run (followed by
    anything that does not continue the last run) into exactly those five
    groups: digit runs of any length and any operator of [[-+=]] in the
    fourth group are accepted. *)
Theorem puzzle_match_roundtrip d1 o1 d2 o2 d3 rest :
  all_digits d1 = true -> d1 <> "" -> is_op_char o1 = true ->
  all_digits d2 = true -> d2 <> "" -> is_op_char o2 = true ->
  all_digits d3 = true -> d3 <> "" -> starts_with_digit rest = false ->
  puzzle_match (d1 ++ String o1 (d2 ++ String o2 (d3 ++ rest)))%string =
  Some (mkMatch d1 (String o1 "") d2 (String o2 "") d3).
Proof.
  intros Hd1 Hn1 Ho1 Hd2 Hn2 Ho2 Hd3 Hn3 Hr.
  assert (Hm : match_at (d1 ++ String o1 (d2 ++ String o2 (d3 ++ rest)))%string =
               Some (mkMatch d1 (String o1 "") d2 (String o2 "") d3)).
  { unfold match_at.
    rewrite digit_group_app by (simpl; rewrite ?op_char_not_digit; done). simpl.
    rewrite Ho1. simpl.
    rewrite digit_group_app by (simpl; rewrite ?op_char_not_digit; done). simpl.
    rewrite Ho2. simpl. by rewrite digit_group_app. }
  by apply puzzle_match_at.
Qed.

(** C13. Whatever it is given, a successful match consists of five groups
    that occur in order and contiguously in the string: three non-empty
    decimal digit runs separated by two characters of [[-+=]]. *)
Theorem puzzle_match_sound s m :
  puzzle_match s = Some m ->
  exists pre post,
    s = (pre ++ g_num1 m ++ g_op1 m ++ g_num2 m ++ g_op2 m ++ g_res m ++ post)%string /\
    all_digits (g_num1 m) = true /\ g_num1 m <> "" /\ is_op_group (g_op1 m) = true /\
    all_digits (g_num2 m) = true /\ g_num2 m <> "" /\ is_op_group (g_op2 m) = true /\
    all_digits (g_res m) = true /\ g_res m <> "".
Proof.
  induction s as [|c s IH]; simpl.
  - done.
  - destruct (match_at (String c s)) eqn:E.
    + intros [= <-]. destruct (match_at_spec _ _ E) as (post & Hs & ?). by exists "", post.
    + intros Hm. destruct (IH Hm) as (pre & post & -> & ?). by exists (String c pre), post.
Qed.

Lemma puzzle_match_roundtrip_witness :
  puzzle_match ("12" ++ String "+" ("3" ++ String "+" ("15" ++ " extra")))%string =
  Some (mkMatch "12" (String "+" "") "3" (String "+" "") "15").
Proof. apply puzzle_match_roundtrip; reflexivity || discriminate. Defined.

Lemma puzzle_match_sound_witness :
  exists pre post,
    "ab1-1=9"%string = (pre ++ "1" ++ "-" ++ "1" ++ "=" ++ "9" ++ post)%string /\
    all_digits "1" = true /\ "1" <> "" /\ is_op_group "-" = true /\
    all_digits "1" = true /\ "1" <> "" /\ is_op_group "=" = true /\
    all_digits "9" = true /\ "9" <> "".
Proof. apply (puzzle_match_sound "ab1-1=9" (mkMatch "1" "-" "1" "=" "9")). reflexivity. Defined.

(** ** The deterministic matcher is the backtracking one *)

Lemma digit_not_op c : is_decimal_digit c = true -> is_op_char c = false.
Proof.
  intros Hc. destruct (is_op_char c) eqn:E; [|done].
  apply op_char_not_digit in E. congruence.
Qed.

(** A greedy [\d*] whose continuation either fails whenever a digit follows
    or never fails takes exactly the longest run of digits. *)
Lemma star_digits {R} s (k : string -> string -> option R) acc :
  (forall d r, starts_with_digit r = true -> k d r = None) \/ (forall d r, is_Some (k d r)) ->
  star_class is_decimal_digit s k acc = let '(d, r) := take_digits s in k (acc ++ d)%string r.
Proof.
  intros Hk. revert acc. induction s as [|c s IH]; intros acc; simpl.
  - by rewrite string_app_nil_r.
  - destruct (is_decimal_digit c) eqn:Hc; [|by rewrite string_app_nil_r].
    rewrite IH. destruct (take_digits s) as [d r].
    rewrite string_app_assoc, string_app_cons, string_app_nil.
    destruct (k (acc ++ String c d)%string r) eqn:E; [done|].
    destruct Hk as [Hk|Hk]; [apply Hk; simpl; exact Hc|].
    destruct (Hk (acc ++ String c d)%string r). congruence.
Qed.

Lemma plus_digits {R} s (k : string -> string -> option R) :
  (forall d r, starts_with_digit r = true -> k d r = None) \/ (forall d r, is_Some (k d r)) ->
  plus_class is_decimal_digit s k =
  match digit_group s with Some (d, r) => k d r | None => None end.
Proof.
  intros Hk. destruct s as [|c s]; [done|]. unfold plus_class, digit_group. simpl.
  destruct (is_decimal_digit c); [|done].
  rewrite (star_digits s k _ Hk). destruct (take_digits s) as [d r]. done.
Qed.

Lemma class1_op {R} s (k : string -> string -> option R) :
  class1 is_op_char s k = match op_group s with Some (o, r) => k o r | None => None end.
Proof. destruct s as [|c s]; [done|]. unfold class1, op_group. by destruct (is_op_char c). Qed.

(** An operator group cannot start where a digit follows. *)
Lemma class1_op_digit {R} r (k : string -> string -> option R) :
  starts_with_digit r = true -> class1 is_op_char r k = None.
Proof. destruct r as [|c r]; [done|]. simpl. intros Hc. by rewrite digit_not_op. Qed.

Lemma pattern_at_match_at s : pattern_at s = match_at s.
Proof.
  unfold pattern_at, match_at.
  rewrite plus_digits by (left; intros; by apply class1_op_digit).
  destruct (digit_group s) as [[d1 r1]|]; [cbn|done]. rewrite class1_op.
  destruct (op_group r1) as [[o1 r2]|]; [cbn|done].
  rewrite plus_digits by (left; intros; by apply class1_op_digit).
  destruct (digit_group r2) as [[d2 r3]|]; [cbn|done]. rewrite class1_op.
  destruct (op_group r3) as [[o2 r4]|]; [cbn|done].
  rewrite plus_digits by (right; intros; by eexists).
  by destruct (digit_group r4) as [[d3 r5]|].
Qed.

(** C23. The parser is the regular expression as ECMAScript runs it: the
    deterministic longest-run matcher searched over the start positions
    gives, on every string, the result of the backtracking matcher of
    [/(\d+)([-+=])(\d+)([-+=])(\d+)/] with greedy quantifiers. *)
Theorem puzzle_match_is_regex_exec s : puzzle_match s = regex_exec s.
Proof.
  induction s as [|c s IH]; [done|]. cbn [puzzle_match regex_exec]. rewrite pattern_at_match_at.
  by destruct (match_at (String c s)).
Qed.
