(* ===== verification/Dom.v ===== *)
(** * The state of the page: globals, the puzzle area and the stick elements

    The closure of the [DOMContentLoaded] callback keeps [currentLevel],
    [movesMadeThisLevel] and [selectedStick] (lines 10-12); the rest of the
    state is the DOM.  The children of [#puzzle-area] are the containers, in
    document order; each has an element id, its class ([digit-container] or
    [operator-container]), its [dataset.char] and its child stick ids in
    document order.  The stick elements themselves live in a heap from
    element id to attributes, so that [selectedStick] is a reference to an
    element, shared with the tree, as in the code.  [nextElementId] allocates
    the identities of [document.createElement].  The three text displays and
    the number of pending [setTimeout] callbacks complete the state. *)

From S2P Require Import Prelude JsRuntime Templates.
Local Open Scope string_scope.

(** A [div.matchstick]: its orientation class, its inline style, its
    [dataset] entries and whether it has the class [selected]. *)
Record Stick := mkStick {
  st_orient : Orientation;
  st_top : string;
  st_left : string;
  st_width : string;
  st_height : string;
  st_originalContainer : string;
  st_originalStickIndex : nat;
  st_selected : bool
}.

Inductive ContainerKind := DigitContainer | OperatorContainer.

#[export] Instance ContainerKind_eq_dec : EqDecision ContainerKind.
Proof. solve_decision. Defined.

Record Container := mkContainer {
  c_id : nat;
  c_kind : ContainerKind;
  c_char : string;
  c_kids : list nat
}.

Record State := mkState {
  currentLevel : nat;
  movesMadeThisLevel : nat;
  selectedStick : option nat;
  puzzleArea : list Container;
  stickHeap : gmap nat Stick;
  nextElementId : nat;
  currentLevelDisplay : string;
  movesLeftDisplay : string;
  feedbackMessage : string;
  pendingTimers : nat
}.

(** ** Field updates *)

Definition set_currentLevel n (s : State) : State :=
  let '(mkState cl mv sel area heap nid ld mld fb tm) := s in mkState n mv sel area heap nid ld mld fb tm.
Definition set_movesMade n (s : State) : State :=
  let '(mkState cl mv sel area heap nid ld mld fb tm) := s in mkState cl n sel area heap nid ld mld fb tm.
Definition set_selected o (s : State) : State :=
  let '(mkState cl mv sel area heap nid ld mld fb tm) := s in mkState cl mv o area heap nid ld mld fb tm.
Definition set_area a (s : State) : State :=
  let '(mkState cl mv sel area heap nid ld mld fb tm) := s in mkState cl mv sel a heap nid ld mld fb tm.
Definition set_heap h (s : State) : State :=
  let '(mkState cl mv sel area heap nid ld mld fb tm) := s in mkState cl mv sel area h nid ld mld fb tm.
Definition set_nextId n (s : State) : State :=
  let '(mkState cl mv sel area heap nid ld mld fb tm) := s in mkState cl mv sel area heap n ld mld fb tm.
Definition set_levelDisplay t (s : State) : State :=
  let '(mkState cl mv sel area heap nid ld mld fb tm) := s in mkState cl mv sel area heap nid t mld fb tm.
Definition set_movesLeftDisplay t (s : State) : State :=
  let '(mkState cl mv sel area heap nid ld mld fb tm) := s in mkState cl mv sel area heap nid ld t fb tm.
Definition set_feedback t (s : State) : State :=
  let '(mkState cl mv sel area heap nid ld mld fb tm) := s in mkState cl mv sel area heap nid ld mld t tm.
Definition set_timers n (s : State) : State :=
  let '(mkState cl mv sel area heap nid ld mld fb tm) := s in mkState cl mv sel area heap nid ld mld fb n.

(** ** Class lists *)

Definition orientation_class (o : Orientation) : string :=
  match o with Vertical => "vertical" | Horizontal => "horizontal" end.

Definition stick_classList (st : Stick) : list string :=
  ["matchstick"; orientation_class (st_orient st)] ++
  (if st_selected st then ["selected"] else []).

Definition classList_contains (cl : list string) (c : string) : bool :=
  bool_decide (c ∈ cl).

(** [el.classList.add('selected')] / [remove('selected')] on a stick. *)
Definition set_stick_selected (b : bool) (st : Stick) : Stick :=
  mkStick (st_orient st) (st_top st) (st_left st) (st_width st) (st_height st)
    (st_originalContainer st) (st_originalStickIndex st) b.

Definition mark_selected (id : nat) (b : bool) (s : State) : State :=
  set_heap (alter (set_stick_selected b) id (stickHeap s)) s.

(** ** The tree *)

Definition set_kids (kids : list nat) (c : Container) : Container :=
  mkContainer (c_id c) (c_kind c) (c_char c) kids.

(** [stick.parentElement]: the container holding the stick ([null] when the
    stick is in no container of the area). *)
Fixpoint parentElement (area : list Container) (id : nat) : option nat :=
  match area with
  | [] => None
  | c :: area' => if bool_decide (id ∈ c_kids c) then Some (c_id c) else parentElement area' id
  end.

(** Taking a stick out of the container holding it. *)
Definition area_detach (id : nat) (area : list Container) : list Container :=
  map (fun c => set_kids (list_remove id (c_kids c)) c) area.

(** [parent.appendChild(stick)]: the stick is removed from its parent and
    becomes the last child of [parent] (also when [parent] is already its
    parent). *)
Definition add_kid (parent id : nat) (c : Container) : Container :=
  if (c_id c =? parent)%nat then set_kids (c_kids c ++ [id]) c else c.

Definition area_append (parent id : nat) (area : list Container) : list Container :=
  map (add_kid parent id) (area_detach id area).

Definition appendChild (parent id : nat) (s : State) : State :=
  set_area (area_append parent id (puzzleArea s)) s.

(** The stick ids of the area in document order, and the characters. *)
Definition area_sticks (area : list Container) : list nat := concat (map c_kids area).
Definition area_chars (area : list Container) : list string := map c_char area.
Definition area_ids (area : list Container) : list nat := map c_id area.

(** Well-formed area: distinct container ids, each stick in one place. *)
Definition area_wf (area : list Container) : Prop :=
  NoDup (area_ids area) /\ NoDup (area_sticks area).

(** ** Sample pages for the examples

    A page of level 1 showing [area], with one identical element per stick of
    the area; containers are built from characters with ids 0, 1, ... *)
Definition demo_stick : Stick :=
  mkStick Vertical "25%" "45%" "10%" "50%" "1" 0 false.

Definition demo_page (area : list Container) (sel : option nat) (moves : nat) : State :=
  mkState 0 moves sel area
    (list_to_map (map (fun id => (id, demo_stick)) (area_sticks area))) 100 "1" "2" "" 0.

Definition demo_area (chars : list string) : list Container :=
  imap (fun i c => mkContainer i DigitContainer c []) chars.

(** [state_eq] proves an equation between two states built with the field
    updates, field by field. *)
Ltac unfold_setters :=
  unfold set_currentLevel, set_movesMade, set_selected, set_area, set_heap, set_nextId,
    set_levelDisplay, set_movesLeftDisplay, set_feedback, set_timers.

Ltac state_eq :=
  repeat match goal with s : State |- _ => destruct s end;
  unfold_setters; cbn;
  repeat match goal with
  | |- Normal _ _ = Normal _ _ => f_equal
  | |- mkState _ _ _ _ _ _ _ _ _ _ = mkState _ _ _ _ _ _ _ _ _ _ => f_equal
  end;
  try reflexivity; try lia.

(** ** The tree operations keep the containers and move one stick *)

Lemma area_chars_detach id a : area_chars (area_detach id a) = area_chars a.
Proof. induction a; simpl; by f_equal. Qed.

Lemma area_ids_detach id a : area_ids (area_detach id a) = area_ids a.
Proof. induction a; simpl; by f_equal. Qed.

Lemma area_chars_append p id a : area_chars (area_append p id a) = area_chars a.
Proof.
  unfold area_append, area_detach, area_chars. induction a as [|c a IH]; [done|].
  cbn. f_equal; [|done]. unfold add_kid. by case_match.
Qed.

Lemma area_ids_append p id a : area_ids (area_append p id a) = area_ids a.
Proof.
  unfold area_append, area_detach, area_ids. induction a as [|c a IH]; [done|].
  cbn. f_equal; [|done]. unfold add_kid. by case_match.
Qed.

#[export] Hint Rewrite area_chars_detach area_ids_detach area_chars_append area_ids_append : js_rw.

Lemma area_sticks_detach id a : area_sticks (area_detach id a) = list_remove id (area_sticks a).
Proof.
  induction a as [|c a IH]; simpl; [done|].
  unfold area_sticks in *. simpl. rewrite IH. unfold list_remove. by rewrite filter_app.
Qed.
#[export] Hint Rewrite area_sticks_detach : js_rw.

Lemma map_add_kid_notin p id a : p ∉ area_ids a -> map (add_kid p id) a = a.
Proof.
  induction a as [|c a IH]; simpl; [done|]. intros Hp. unfold add_kid at 1.
  destruct (Nat.eqb_spec (c_id c) p); [set_solver|]. f_equal. set_solver.
Qed.

Lemma area_sticks_add p id a :
  p ∈ area_ids a -> NoDup (area_ids a) ->
  area_sticks (map (add_kid p id) a) ≡ₚ id :: area_sticks a.
Proof.
  induction a as [|c a IH]; simpl; [set_solver|]. intros Hp Hnd.
  apply NoDup_cons in Hnd as [Hc Hnd]. unfold area_sticks in *. simpl. unfold add_kid at 1.
  destruct (Nat.eqb_spec (c_id c) p) as [<-|Hne]; simpl.
  - rewrite map_add_kid_notin by done. by rewrite <- app_assoc, Permutation_middle.
  - rewrite IH by set_solver. by rewrite Permutation_middle.
Qed.

(** Every stick of the area is in exactly one container and every
    container id is used once; [appendChild] keeps this and keeps the sticks
    of the area. *)
Lemma area_sticks_append p id a :
  area_wf a -> p ∈ area_ids a -> id ∈ area_sticks a ->
  area_sticks (area_append p id a) ≡ₚ area_sticks a.
Proof.
  intros [Hids Hsticks] Hp Hid. unfold area_append.
  rewrite area_sticks_add by (autorewrite with js_rw; done).
  autorewrite with js_rw. by apply list_remove_perm.
Qed.

Lemma area_wf_append p id a :
  area_wf a -> p ∈ area_ids a -> id ∈ area_sticks a -> area_wf (area_append p id a).
Proof.
  intros Hwf Hp Hid. split.
  - autorewrite with js_rw. apply Hwf.
  - rewrite area_sticks_append by done. apply Hwf.
Qed.

Lemma parentElement_Some a id p :
  parentElement a id = Some p -> p ∈ area_ids a /\ id ∈ area_sticks a.
Proof.
  induction a as [|c a IH]; simpl; [done|]. unfold area_sticks in *. simpl.
  case_bool_decide; intros Hp.
  - simplify_eq. set_solver.
  - destruct (IH Hp). set_solver.
Qed.

Lemma parentElement_None a id : parentElement a id = None <-> id ∉ area_sticks a.
Proof.
  induction a as [|c a IH]; simpl; [set_solver|]. unfold area_sticks in *. simpl.
  case_bool_decide; [set_solver|]. rewrite IH. set_solver.
Qed.

Lemma add_kid_id p id c : c_id (add_kid p id c) = c_id c.
Proof. unfold add_kid. by case_match. Qed.

Lemma add_kid_kids p id c x :
  x ∈ c_kids (add_kid p id c) <-> x ∈ c_kids c \/ (x = id /\ c_id c = p).
Proof. unfold add_kid. destruct (Nat.eqb_spec (c_id c) p); cbn; rewrite ?elem_of_app; set_solver. Qed.

(** After [p.appendChild(id)] the parent of [id] is [p], and the other
    sticks keep theirs. *)
Lemma parentElement_append_self p id a :
  p ∈ area_ids a -> parentElement (area_append p id a) id = Some p.
Proof.
  unfold area_append, area_detach. induction a as [|c a IH]; [set_solver|].
  intros Hp. cbn [map parentElement]. rewrite add_kid_id. cbn [c_id set_kids].
  case_bool_decide as Hin; rewrite add_kid_kids in Hin; cbn in Hin; rewrite list_remove_elem in Hin.
  - destruct Hin as [[_ []] | [_ ->]]; done.
  - apply IH. unfold area_ids in Hp. cbn in Hp. apply elem_of_cons in Hp as [Heq|Hp]; [|done].
    exfalso. apply Hin. by right.
Qed.

Lemma parentElement_append_other p id a x :
  x ≠ id -> parentElement (area_append p id a) x = parentElement a x.
Proof.
  intros Hx. unfold area_append, area_detach. induction a as [|c a IH]; [done|].
  cbn [map parentElement]. rewrite add_kid_id, IH. cbn [c_id set_kids].
  assert (x ∈ c_kids (add_kid p id (set_kids (list_remove id (c_kids c)) c)) <-> x ∈ c_kids c)
    as Hiff by (rewrite add_kid_kids; cbn; rewrite list_remove_elem; naive_solver).
  by rewrite (bool_decide_ext _ _ Hiff).
Qed.

(** [classList.add/remove] never removes an element from the heap. *)
Lemma alter_alive {A} (f : A -> A) k (h : gmap nat A) x :
  is_Some (h !! x) -> is_Some (alter f k h !! x).
Proof. rewrite lookup_alter. case_decide; [subst|done]. intros [st ->]. by eexists. Qed.
#[export] Hint Resolve alter_alive : js.


Lemma area_sticks_append_elem p id a x :
  area_wf a -> p ∈ area_ids a -> id ∈ area_sticks a ->
  x ∈ area_sticks (area_append p id a) <-> x ∈ area_sticks a.
Proof. intros. by rewrite area_sticks_append. Qed.

(** The [selected] class of a stick is its [st_selected] flag. *)
Lemma classList_selected st : classList_contains (stick_classList st) "selected" = st_selected st.
Proof. unfold stick_classList. by destruct (st_orient st), (st_selected st). Qed.

(** [classList.add/remove('selected')] on [id] changes the flag of [id] only. *)
Lemma mark_selected_lookup (h : gmap nat Stick) id b x st :
  h !! x = Some st ->
  exists st', alter (set_stick_selected b) id h !! x = Some st' /\
    st_selected st' = if decide (x = id) then b else st_selected st.
Proof.
  intros Hx. destruct (decide (x = id)) as [->|Hne].
  - rewrite lookup_alter, Hx, decide_True by done. by eexists.
  - rewrite lookup_alter_ne by congruence. by eexists.
Qed.
