(* ===== verification/Render.v ===== *)
(** * [renderPuzzle] (src/script.js, lines 62-106)

    The handler clears the puzzle area, looks the level up (reading
    [level.movesAllowed] throws when the index is past the catalog, after the
    area is cleared and the level number shown), resets the move counter,
    the feedback and the selection, matches the puzzle string, and creates
    one container per capture group and one stick per template entry of the
    group's character. *)

From S2P Require Import Prelude JsRuntime Templates Levels Puzzle Dom.
Local Open Scope string_scope.

Section Render.
Context `{!GameConfig}.

(** [document.createElement('div')]: a fresh element identity. *)
Definition createElement : JS State nat :=
  s ← js_get;
  js_modify (set_nextId (S (nextElementId s)));;
  mret (nextElementId s).

(** The stick element built at lines 91-101 for entry [index] of the
    template of [char]. *)
Definition stick_of_data (char : string) (stickData : StickData) (index : nat) : Stick :=
  mkStick (stick_orientation stickData) (sd_top stickData) (sd_left stickData)
    (sd_width stickData) (sd_height stickData) char index false.

Definition renderStick (char : string) (stickData : StickData) (index : nat) : JS State nat :=
  id ← createElement;
  js_modify (fun s => set_heap (<[id := stick_of_data char stickData index]> (stickHeap s)) s);;
  mret id.

(** Line 85: [isNaN(parseInt(char)) ? 'operator-container' : 'digit-container']. *)
Definition containerKind (char : string) : ContainerKind :=
  if isNaN (parseInt char) then OperatorContainer else DigitContainer.

(** Lines 84-104: the container of one group, its sticks, appended to the
    puzzle area. *)
Definition renderContainer (char : string) : JS State unit :=
  cid ← createElement;
  let kind := containerKind char in
  kids ← match cfg_templates char with
         | Some sticks => js_mapi_from (renderStick char) 0 sticks
         | None => mret []
         end;
  js_modify (fun s => set_area (puzzleArea s ++ [mkContainer cid kind char kids]) s).

Definition renderPuzzle (levelIndex : nat) : JS State unit :=
  js_modify (set_area []);;
  let level := cfg_levels !! levelIndex in
  js_modify (set_levelDisplay (js_number_to_string (Z.of_nat levelIndex + 1)));;
  lv ← level ?? movesAllowed_msg;
  js_modify (set_movesLeftDisplay (js_number_to_string (Z.of_nat (movesAllowed lv))));;
  js_modify (set_movesMade 0);;
  js_modify (set_feedback "");;
  js_modify (set_selected None);;
  match puzzle_match (puzzle lv) with
  | None => mret tt
  | Some parts => js_forEach_from (fun char _ => renderContainer char) 0 (groups parts)
  end.
End Render.

(** ** What rendering builds *)

Section Layout.
Context `{!GameConfig}.

(** [if (sticks)]: an absent template gives no stick. *)
Definition template_of (char : string) : list StickData :=
  default [] (cfg_templates char).

(** The stick elements of one container, ids from [n] on. *)
Fixpoint insert_sticks (char : string) (i n : nat) (l : list StickData)
    (h : gmap nat Stick) : gmap nat Stick :=
  match l with
  | [] => h
  | sd :: l' => insert_sticks char (S i) (S n) l' (<[n := stick_of_data char sd i]> h)
  end.

(** The containers built for the groups [chars], ids from [n] on: a
    container takes one id, then each of its sticks one. *)
Fixpoint layout (n : nat) (chars : list string) : list Container :=
  match chars with
  | [] => []
  | c :: cs =>
      let k := length (template_of c) in
      mkContainer n (containerKind c) c (seq (S n) k) :: layout (S n + k) cs
  end.

Fixpoint layout_heap (n : nat) (chars : list string) (h : gmap nat Stick) : gmap nat Stick :=
  match chars with
  | [] => h
  | c :: cs =>
      let k := length (template_of c) in
      layout_heap (S n + k) cs (insert_sticks c 0 (S n) (template_of c) h)
  end.

Fixpoint layout_size (chars : list string) : nat :=
  match chars with
  | [] => 0
  | c :: cs => S (length (template_of c)) + layout_size cs
  end.

(** The page [renderPuzzle i] leaves when level [i] is [lv]. *)
Definition rendered_page (i : nat) (lv : Level) (s : State) : State :=
  let s1 := set_selected None (set_feedback "" (set_movesMade 0
              (set_movesLeftDisplay (js_number_to_string (Z.of_nat (movesAllowed lv)))
                (set_levelDisplay (js_number_to_string (Z.of_nat i + 1)) (set_area [] s))))) in
  match puzzle_match (puzzle lv) with
  | None => s1
  | Some m =>
      set_area (layout (nextElementId s) (groups m))
        (set_heap (layout_heap (nextElementId s) (groups m) (stickHeap s))
          (set_nextId (nextElementId s + layout_size (groups m)) s1))
  end.
End Layout.

Section RenderFacts.
Context `{!GameConfig}.

Lemma renderStick_spec char sd i s :
  renderStick char sd i s =
  Normal (nextElementId s)
    (set_heap (<[nextElementId s := stick_of_data char sd i]> (stickHeap s))
       (set_nextId (S (nextElementId s)) s)).
Proof. by destruct s. Qed.

Lemma renderSticks_spec char l i s :
  js_mapi_from (renderStick char) i l s =
  Normal (seq (nextElementId s) (length l))
    (set_heap (insert_sticks char i (nextElementId s) l (stickHeap s))
       (set_nextId (nextElementId s + length l) s)).
Proof.
  revert i s. induction l as [|sd l IH]; intros i s; simpl.
  - destruct s; simpl. by rewrite Nat.add_0_r.
  - unfold mbind, js_bind at 1. rewrite renderStick_spec. simpl.
    unfold mbind, js_bind. rewrite IH. destruct s; simpl. by rewrite Nat.add_succ_r.
Qed.

Local Arguments js_mapi_from : simpl never.

Lemma renderContainer_spec c s :
  renderContainer c s =
  Normal tt
    (set_area (puzzleArea s ++
        [mkContainer (nextElementId s) (containerKind c) c
           (seq (S (nextElementId s)) (length (template_of c)))])
      (set_heap (insert_sticks c 0 (S (nextElementId s)) (template_of c) (stickHeap s))
        (set_nextId (S (nextElementId s) + length (template_of c)) s))).
Proof.
  unfold renderContainer, template_of, createElement. js_simpl.
  destruct (cfg_templates c) as [l|]; js_simpl.
  - rewrite renderSticks_spec. js_simpl. by destruct s.
  - destruct s; simpl. by rewrite Nat.add_0_r.
Qed.

Lemma renderContainers_spec chars i s :
  js_forEach_from (fun char _ => renderContainer char) i chars s =
  Normal tt
    (set_area (puzzleArea s ++ layout (nextElementId s) chars)
      (set_heap (layout_heap (nextElementId s) chars (stickHeap s))
        (set_nextId (nextElementId s + layout_size chars) s))).
Proof.
  revert i s. induction chars as [|c cs IH]; intros i s; simpl.
  - destruct s; simpl. by rewrite app_nil_r, Nat.add_0_r.
  - unfold mbind, js_bind at 1. rewrite renderContainer_spec, IH.
    state_eq. by rewrite <- app_assoc.
Qed.

Lemma layout_chars n cs : area_chars (layout n cs) = cs.
Proof. revert n. induction cs as [|c cs IH]; intros n; simpl; [done|]. by rewrite IH. Qed.

Lemma layout_kinds n cs : map c_kind (layout n cs) = map containerKind cs.
Proof. revert n. induction cs as [|c cs IH]; intros n; simpl; [done|]. by rewrite IH. Qed.

Lemma layout_bounds n cs x :
  x ∈ area_ids (layout n cs) \/ x ∈ area_sticks (layout n cs) -> n <= x < n + layout_size cs.
Proof.
  revert n. induction cs as [|c cs IH]; intros n; unfold area_sticks; simpl; [set_solver|].
  rewrite !elem_of_cons, elem_of_app, elem_of_seq.
  intros [[->|Hx]|[Hx|Hx]]; [lia| | lia |].
  - assert (S n + length (template_of c) <= x < S n + length (template_of c) + layout_size cs)
      by (apply IH; by left). lia.
  - assert (S n + length (template_of c) <= x < S n + length (template_of c) + layout_size cs)
      by (apply IH; by right). lia.
Qed.

Lemma layout_wf n cs : area_wf (layout n cs).
Proof.
  revert n. induction cs as [|c cs IH]; intros n; [split; constructor|].
  destruct (IH (S n + length (template_of c))) as [Hids Hsticks].
  split; unfold area_sticks in *; simpl.
  - constructor; [|done]. intros Hn.
    pose proof (layout_bounds (S n + length (template_of c)) cs n (or_introl Hn)). lia.
  - apply NoDup_app. split_and!; [apply NoDup_seq| |done].
    intros x Hx1 Hx2. apply elem_of_seq in Hx1.
    pose proof (layout_bounds (S n + length (template_of c)) cs x (or_intror Hx2)). lia.
Qed.

(** The sticks a container adds are unselected and leave the other
    elements alone. *)
Lemma insert_sticks_fresh c i n l h x :
  (n <= x < n + length l ->
   exists st, insert_sticks c i n l h !! x = Some st /\ st_selected st = false) /\
  (~ (n <= x < n + length l) -> insert_sticks c i n l h !! x = h !! x).
Proof.
  revert i n h. induction l as [|sd l IH]; intros i n h; simpl; [split; [lia | done]|].
  split.
  - intros Hx. destruct (decide (x = n)) as [->|Hne].
    + rewrite (proj2 (IH _ _ _)) by lia. rewrite lookup_insert_eq. by eexists.
    + apply IH. lia.
  - intros Hx. rewrite (proj2 (IH _ _ _)) by lia. rewrite lookup_insert_ne by lia. done.
Qed.

Lemma layout_heap_fresh n cs h x :
  (x ∈ area_sticks (layout n cs) ->
   exists st, layout_heap n cs h !! x = Some st /\ st_selected st = false) /\
  (x < n -> layout_heap n cs h !! x = h !! x).
Proof.
  revert n h. induction cs as [|c cs IH]; intros n h; unfold area_sticks; simpl;
    [split; [set_solver | done]|].
  split.
  - rewrite elem_of_app, elem_of_seq. intros [Hx|Hx].
    + rewrite (proj2 (IH _ _)) by lia. apply insert_sticks_fresh. lia.
    + by apply IH.
  - intros Hx. rewrite (proj2 (IH _ _)) by lia. apply insert_sticks_fresh. lia.
Qed.

(** The stick a container adds at [x] is built from an entry of its
    template. *)
Lemma insert_sticks_lookup c i n l h x :
  n <= x < n + length l ->
  exists sd k, sd ∈ l /\ insert_sticks c i n l h !! x = Some (stick_of_data c sd k).
Proof.
  revert i n h. induction l as [|sd l IH]; intros i n h Hx; simpl in *; [lia|].
  destruct (decide (x = n)) as [->|Hne].
  - rewrite (proj2 (insert_sticks_fresh _ _ _ _ _ _)) by lia. rewrite lookup_insert_eq.
    exists sd, i. split; [set_solver | done].
  - destruct (IH (S i) (S n) (<[n := stick_of_data c sd i]> h)) as (sd' & k & Hsd & ->); [lia|].
    exists sd', k. split; [set_solver | done].
Qed.

Lemma layout_heap_lookup n cs h x :
  x ∈ area_sticks (layout n cs) ->
  exists c sd k, c ∈ cs /\ sd ∈ template_of c /\ layout_heap n cs h !! x = Some (stick_of_data c sd k).
Proof.
  revert n h. induction cs as [|c cs IH]; intros n h; unfold area_sticks; simpl; [set_solver|].
  rewrite elem_of_app, elem_of_seq. intros [Hx|Hx].
  - rewrite (proj2 (layout_heap_fresh _ _ _ _)) by lia.
    destruct (insert_sticks_lookup c 0 (S n) (template_of c) h x) as (sd & k & Hsd & ->); [lia|].
    exists c, sd, k. split_and!; [set_solver | done | done].
  - destruct (IH _ (insert_sticks c 0 (S n) (template_of c) h) Hx) as (c' & sd & k & Hc & Hsd & ->).
    exists c', sd, k. split_and!; [set_solver | done | done].
Qed.

(** Each container of the layout holds as many sticks as its template. *)
Lemma layout_kid_counts n cs :
  map (fun c => length (c_kids c)) (layout n cs) = map (fun c => length (template_of c)) cs.
Proof. revert n. induction cs as [|c cs IH]; intros n; simpl; [done|]. by rewrite length_seq, IH. Qed.

(** Every stick of the layout is an element of the heap. *)
Lemma layout_heap_alive n cs h x :
  x ∈ area_sticks (layout n cs) -> is_Some (layout_heap n cs h !! x).
Proof. intros Hx. destruct (proj1 (layout_heap_fresh n cs h x) Hx) as (st & -> & _). by eexists. Qed.


Local Arguments js_forEach_from : simpl never.
Local Arguments renderContainer : simpl never.
Local Arguments layout : simpl never.
Local Arguments layout_heap : simpl never.
Local Arguments layout_size : simpl never.
Local Arguments groups : simpl never.

Lemma renderPuzzle_level i lv s :
  cfg_levels !! i = Some lv -> renderPuzzle i s = Normal tt (rendered_page i lv s).
Proof.
  intros Hlv. unfold renderPuzzle, rendered_page. js_simpl. rewrite Hlv. js_simpl.
  destruct (puzzle_match (puzzle lv)) as [m|]; js_simpl; [|by destruct s].
  rewrite renderContainers_spec. state_eq.
Qed.

(** Past the end of the catalog: the area is cleared, the level number is
    shown, and reading [level.movesAllowed] throws. *)
Lemma renderPuzzle_no_level i s :
  cfg_levels !! i = None ->
  renderPuzzle i s = Abrupt (TypeError movesAllowed_msg)
    (set_levelDisplay (js_number_to_string (Z.of_nat i + 1)) (set_area [] s)).
Proof. intros Hlv. unfold renderPuzzle. js_simpl. by rewrite Hlv. Qed.
End RenderFacts.

#[export] Hint Resolve layout_wf layout_heap_alive : js.
#[export] Hint Rewrite layout_chars layout_kinds : js_rw.

Lemma containerKind_digits g : all_digits g = true -> g <> "" -> containerKind g = DigitContainer.
Proof.
  intros Hd Hne. unfold containerKind. by destruct (parseInt_digits_some g Hd Hne) as [v ->].
Qed.

Lemma containerKind_op g : is_op_group g = true -> containerKind g = OperatorContainer.
Proof.
  destruct g as [|c [|c' g]]; [done| |done]. simpl. unfold is_op_char.
  intros Hc. repeat (apply orb_true_iff in Hc as [Hc|Hc]); by apply Ascii.eqb_eq in Hc as ->.
Qed.

Section RenderTheorems.
Context `{!GameConfig}.

(** C14. Rendering a level of the catalog whose puzzle string matches the
    regular expression shows one container per capture group, in order,
    with the group as its character and the kind [isNaN(parseInt(char))]
    gives it; the area has distinct container and stick identities, every
    stick of the area is an element of the page; the move counter, the
    selection and the feedback are reset and the level is unchanged. *)
Theorem render_builds_level i lv m s :
  cfg_levels !! i = Some lv -> puzzle_match (puzzle lv) = Some m ->
  let s' := final_state (renderPuzzle i s) in
  area_chars (puzzleArea s') = groups m /\
  map c_kind (puzzleArea s') = map containerKind (groups m) /\
  area_wf (puzzleArea s') /\
  (forall x, x ∈ area_sticks (puzzleArea s') -> is_Some (stickHeap s' !! x)) /\
  movesMadeThisLevel s' = 0 /\ selectedStick s' = None /\ feedbackMessage s' = "" /\
  currentLevel s' = currentLevel s.
Proof.
  intros Hlv Hm. rewrite (renderPuzzle_level i lv s Hlv). unfold rendered_page.
  rewrite Hm. destruct s; cbn -[layout layout_heap layout_size groups].
  split_and!; autorewrite with js_rw; auto with js.
Qed.

(** C16. With the repository's symbol library, a render draws sticks for
    the digit one only: each container of a rendered level holds one stick
    if its character is ['1'] and none otherwise (the other digits and the
    operators are empty containers), and every stick drawn is the template
    of ['1'], a vertical stick at top 25%, left 45%. *)
Theorem render_draws_only_ones i lv m s :
  (forall c, cfg_templates c = stickTemplates c) ->
  cfg_levels !! i = Some lv -> puzzle_match (puzzle lv) = Some m ->
  let s' := final_state (renderPuzzle i s) in
  map (fun c => length (c_kids c)) (puzzleArea s') =
    map (fun g => if String.eqb g "1" then 1 else 0) (groups m) /\
  (forall x, x ∈ area_sticks (puzzleArea s') ->
     exists st, stickHeap s' !! x = Some st /\ st_orient st = Vertical /\
       st_top st = "25%" /\ st_left st = "45%" /\ st_originalContainer st = "1").
Proof.
  intros Htpl Hlv Hm. rewrite (renderPuzzle_level i lv s Hlv). unfold rendered_page.
  rewrite Hm. destruct s as [cl mv sel area heap nid ld mld fb tm]; cbn -[layout layout_heap layout_size groups].
  split.
  - rewrite layout_kid_counts. apply map_ext. intros g. unfold template_of. rewrite Htpl.
    destruct (String.eqb_spec g "1") as [->|Hne]; [reflexivity|].
    destruct (stickTemplates g) as [l|] eqn:Hg; [|done]. by rewrite (stickTemplates_other g l Hg Hne).
  - intros x Hx. destruct (layout_heap_lookup _ _ heap x Hx) as (c & sd & k & _ & Hsd & ->).
    unfold template_of in Hsd. rewrite Htpl in Hsd.
    destruct (stickTemplates c) as [l|] eqn:Hc; [|set_solver].
    destruct (stickTemplates_elem c l sd Hc Hsd) as [-> ->]. by eexists.
Qed.

(** C15. Rendering an index past the end of the catalog throws a
    [TypeError] after clearing the puzzle area, and leaves the move
    counter, the selection and the feedback of the previous level. *)
Theorem render_past_catalog_throws i s :
  length cfg_levels <= i ->
  threw (renderPuzzle i s) = true /\
  let s' := final_state (renderPuzzle i s) in
  puzzleArea s' = [] /\ movesMadeThisLevel s' = movesMadeThisLevel s /\
  selectedStick s' = selectedStick s /\ feedbackMessage s' = feedbackMessage s.
Proof.
  intros Hi. rewrite renderPuzzle_no_level by (apply lookup_ge_None_2; lia).
  by destruct s.
Qed.

(** C25. The container kinds follow the groups: for every match of the
    puzzle regular expression, [isNaN(parseInt(char))] makes digit
    containers of the three digit runs and operator containers of the two
    operators. *)
Theorem match_container_kinds s m :
  puzzle_match s = Some m ->
  map containerKind (groups m) =
    [DigitContainer; OperatorContainer; DigitContainer; OperatorContainer; DigitContainer].
Proof.
  intros Hm. destruct (puzzle_match_groups s m Hm) as (H1 & H1' & H2 & H3 & H3' & H4 & H5 & H5').
  unfold groups. cbn [map].
  rewrite (containerKind_digits (g_num1 m)), (containerKind_op (g_op1 m)),
    (containerKind_digits (g_num2 m)), (containerKind_op (g_op2 m)),
    (containerKind_digits (g_res m)) by done.
  done.
Qed.
End RenderTheorems.

(** ** Examples with the repository's catalog *)

Lemma render_builds_level_witness :
  let s' := final_state (renderPuzzle 0 (demo_page [] None 1)) in
  area_chars (puzzleArea s') = groups (mkMatch "1" "-" "1" "=" "9") /\
  map c_kind (puzzleArea s') = map containerKind (groups (mkMatch "1" "-" "1" "=" "9")) /\
  area_wf (puzzleArea s') /\
  (forall x, x ∈ area_sticks (puzzleArea s') -> is_Some (stickHeap s' !! x)) /\
  movesMadeThisLevel s' = 0 /\ selectedStick s' = None /\ feedbackMessage s' = "" /\
  currentLevel s' = currentLevel (demo_page [] None 1).
Proof. eapply (render_builds_level 0); reflexivity. Defined.

Lemma render_past_catalog_throws_witness :
  threw (renderPuzzle 3 (demo_page [] (Some 7) 1)) = true /\
  let s' := final_state (renderPuzzle 3 (demo_page [] (Some 7) 1)) in
  puzzleArea s' = [] /\ movesMadeThisLevel s' = movesMadeThisLevel (demo_page [] (Some 7) 1) /\
  selectedStick s' = selectedStick (demo_page [] (Some 7) 1) /\
  feedbackMessage s' = feedbackMessage (demo_page [] (Some 7) 1).
Proof. apply render_past_catalog_throws. simpl. lia. Defined.

Lemma match_container_kinds_witness :
  map containerKind (groups (mkMatch "12" "+" "3" "=" "15")) =
    [DigitContainer; OperatorContainer; DigitContainer; OperatorContainer; DigitContainer].
Proof. apply (match_container_kinds "x12+3=15"). reflexivity. Defined.

Lemma render_draws_only_ones_witness :
  let s' := final_state (renderPuzzle 0 (demo_page [] None 1)) in
  map (fun c => length (c_kids c)) (puzzleArea s') =
    map (fun g => if String.eqb g "1" then 1 else 0) (groups (mkMatch "1" "-" "1" "=" "9")) /\
  (forall x, x ∈ area_sticks (puzzleArea s') ->
     exists st, stickHeap s' !! x = Some st /\ st_orient st = Vertical /\
       st_top st = "25%" /\ st_left st = "45%" /\ st_originalContainer st = "1").
Proof.
  apply (render_draws_only_ones 0 (mkLevel "1-1=9" 2
     (fun num1 op num2 res => (num1 =? 1)%Z && String.eqb op "+" && (num2 =? 1)%Z && (res =? 2)%Z)
     "1+1=2")); [intros c; reflexivity | vm_compute; reflexivity | vm_compute; reflexivity].
Defined.
