(* ===== verification/Click.v ===== *)
(** * [handleStickClick] (src/script.js, lines 109-158) and
      [updatePuzzleState] (lines 161-167)

    The listener is registered on the stick elements only (line 100) and a
    stick has no child element, so [event.target] is the clicked stick: the
    handler takes its element id.  With no stick selected, the click selects
    it when [movesMadeThisLevel < level.movesAllowed], and otherwise only
    writes the feedback.  With a stick selected, the click places it:
    - the branch of line 137 tests the container classes on the clicked
      element, a stick, whose class list never has them; the branch is kept
      as the code has it (the selected stick's parent is a container, never
      the clicked stick, so the move is counted, and [appendChild] moves the
      selected stick under the clicked stick, out of every container);
    - the branch of line 142 counts a move when the two parents differ and
      appends the selected stick to the parent of the clicked one;
    then the selection is cleared, the moves left are shown (reading
    [level.movesAllowed], which throws past the catalog) and
    [updatePuzzleState] runs. *)

From S2P Require Import Prelude JsRuntime Templates Levels Dom.
Local Open Scope string_scope.

Section Click.
Context `{!GameConfig}.

(** Lines 161-167: a [console.log] only. *)
Definition updatePuzzleState : JS State unit := mret tt.

Definition incr_moves (s : State) : State :=
  set_movesMade (S (movesMadeThisLevel s)) s.

(** Lines 137-150, the placement of the selected stick [sel] on the
    clicked element.  The first branch appends the stick to the clicked
    element itself; it is taken only for an element with a container
    class, and the click listener is only on sticks, so it is dead code. *)
Definition placeStick (sel clickedStick : nat) (classes : list string) : JS State unit :=
  s ← js_get;
  if classList_contains classes "digit-container" || classList_contains classes "operator-container"
  then
    (if decide (parentElement (puzzleArea s) sel ≠ Some clickedStick)
     then js_modify incr_moves else mret tt);;
    js_modify (appendChild clickedStick sel)
  else if classList_contains classes "matchstick" && negb (clickedStick =? sel)%nat then
    (if decide (parentElement (puzzleArea s) sel ≠ parentElement (puzzleArea s) clickedStick)
     then js_modify incr_moves else mret tt);;
    p ← parentElement (puzzleArea s) clickedStick
          ?? "Cannot read properties of null (reading 'appendChild')";
    js_modify (appendChild p sel)
  else mret tt.

Definition handleStickClick (clickedStick : nat) : JS State unit :=
  s ← js_get;
  let level := cfg_levels !! currentLevel s in
  match selectedStick s with
  | None =>
      lv ← level ?? movesAllowed_msg;
      if (movesMadeThisLevel s <? movesAllowed lv)%nat then
        js_modify (set_selected (Some clickedStick));;
        js_modify (mark_selected clickedStick true)
      else js_modify (set_feedback "No more moves allowed for this stick!")
  | Some sel =>
      st ← stickHeap s !! clickedStick ?? "event.target";
      placeStick sel clickedStick (stick_classList st);;
      js_modify (mark_selected sel false);;
      js_modify (set_selected None);;
      lv ← level ?? movesAllowed_msg;
      s' ← js_get;
      js_modify (set_movesLeftDisplay
        (js_number_to_string (Z.of_nat (movesAllowed lv) - Z.of_nat (movesMadeThisLevel s'))));;
      updatePuzzleState
  end.
(** The move count after placing [sel] into container [p]. *)
Definition moves_after_place (s : State) (sel p : nat) : nat :=
  if decide (parentElement (puzzleArea s) sel = Some p) then movesMadeThisLevel s
  else S (movesMadeThisLevel s).

End Click.

Section ClickFacts.
Context `{!GameConfig}.

Local Arguments stick_classList : simpl never.
Local Arguments placeStick : simpl never.
Local Arguments area_chars : simpl never.
Local Arguments area_append : simpl never.

(** A stick's class list never has the container classes: the branch of
    lines 137-141 never runs. *)
Lemma stick_classList_classes st :
  classList_contains (stick_classList st) "digit-container" = false /\
  classList_contains (stick_classList st) "operator-container" = false /\
  classList_contains (stick_classList st) "matchstick" = true.
Proof. unfold stick_classList. by destruct (st_orient st), (st_selected st). Qed.

(** [placeStick] on a stick target: the branch of line 142. *)
Lemma placeStick_on_stick sel clicked st s :
  placeStick sel clicked (stick_classList st) s =
  if (clicked =? sel)%nat then Normal tt s
  else
    let s1 := if decide (parentElement (puzzleArea s) sel ≠ parentElement (puzzleArea s) clicked)
              then incr_moves s else s in
    match parentElement (puzzleArea s) clicked with
    | Some p => Normal tt (appendChild p sel s1)
    | None => Abrupt (TypeError "Cannot read properties of null (reading 'appendChild')") s1
    end.
Proof.
  unfold placeStick. destruct (stick_classList_classes st) as (-> & -> & ->). js_simpl.
  destruct (clicked =? sel)%nat; simpl; [done|].
  by destruct (decide _), (parentElement _ clicked).
Qed.

(** Placing [sel] on the stick [clicked] of container [p]: the stick is
    appended to [p], a move is counted when its container was another one,
    the selection is cleared, and the moves left are shown; past the end
    of the catalog the handler throws at line 155, after the move. *)
Lemma handleStickClick_place s sel clicked st p :
  selectedStick s = Some sel -> stickHeap s !! clicked = Some st -> clicked ≠ sel ->
  parentElement (puzzleArea s) clicked = Some p ->
  handleStickClick clicked s =
  let s1 := set_selected None (mark_selected sel false
              (appendChild p sel (set_movesMade (moves_after_place s sel p) s))) in
  match cfg_levels !! currentLevel s with
  | Some lv => Normal tt (set_movesLeftDisplay
      (js_number_to_string (Z.of_nat (movesAllowed lv) - Z.of_nat (moves_after_place s sel p))) s1)
  | None => Abrupt (TypeError movesAllowed_msg) s1
  end.
Proof.
  intros Hsel Hst Hne Hp. destruct s; cbn in *. unfold handleStickClick. js_simpl.
  rewrite Hsel, Hst. js_simpl. rewrite placeStick_on_stick. cbn -[decide Nat.eqb]. rewrite Hp.
  rewrite (proj2 (Nat.eqb_neq _ _) Hne). cbn -[decide]. unfold moves_after_place. cbn -[decide].
  destruct (decide (parentElement _ sel ≠ Some p)) as [Hd|Hd];
    [rewrite decide_False by done | rewrite decide_True by (by apply dec_stable)];
    js_simpl; destruct (cfg_levels !! _); js_simpl; reflexivity.
Qed.

(** A second click on the selected stick only clears the selection. *)
Lemma handleStickClick_self s sel st :
  selectedStick s = Some sel -> stickHeap s !! sel = Some st ->
  handleStickClick sel s =
  let s1 := set_selected None (mark_selected sel false s) in
  match cfg_levels !! currentLevel s with
  | Some lv => Normal tt (set_movesLeftDisplay
      (js_number_to_string (Z.of_nat (movesAllowed lv) - Z.of_nat (movesMadeThisLevel s))) s1)
  | None => Abrupt (TypeError movesAllowed_msg) s1
  end.
Proof.
  intros Hsel Hst. destruct s; cbn in *. unfold handleStickClick. js_simpl.
  rewrite Hsel, Hst. js_simpl. rewrite placeStick_on_stick, Nat.eqb_refl. js_simpl.
  by destruct (cfg_levels !! _).
Qed.

(** Past the end of the catalog, a first click throws and changes nothing. *)
Lemma handleStickClick_no_level s clicked :
  selectedStick s = None -> cfg_levels !! currentLevel s = None ->
  handleStickClick clicked s = Abrupt (TypeError movesAllowed_msg) s.
Proof. intros Hsel Hlv. destruct s; cbn in *. unfold handleStickClick. js_simpl. by rewrite Hsel, Hlv. Qed.

Lemma handleStickClick_select s clicked lv :
  selectedStick s = None -> cfg_levels !! currentLevel s = Some lv ->
  movesMadeThisLevel s < movesAllowed lv ->
  handleStickClick clicked s = Normal tt (mark_selected clicked true (set_selected (Some clicked) s)).
Proof.
  intros Hsel Hlv Hlt. destruct s; cbn in *. unfold handleStickClick. js_simpl. rewrite Hsel, Hlv. js_simpl.
  by rewrite (proj2 (Nat.ltb_lt _ _) Hlt).
Qed.

Lemma handleStickClick_refuse s clicked lv :
  selectedStick s = None -> cfg_levels !! currentLevel s = Some lv ->
  movesAllowed lv <= movesMadeThisLevel s ->
  handleStickClick clicked s = Normal tt (set_feedback "No more moves allowed for this stick!" s).
Proof.
  intros Hsel Hlv Hle. destruct s; cbn in *. unfold handleStickClick. js_simpl. rewrite Hsel, Hlv. js_simpl.
  by rewrite (proj2 (Nat.ltb_ge _ _) Hle).
Qed.

(** The clicked element is not an element of the heap: nothing happens
    but the [TypeError] (never the case on a reachable page). *)
Lemma handleStickClick_no_target s sel clicked :
  selectedStick s = Some sel -> stickHeap s !! clicked = None ->
  handleStickClick clicked s = Abrupt (TypeError "event.target") s.
Proof. intros Hsel Hst. destruct s; cbn in *. unfold handleStickClick. js_simpl. by rewrite Hsel, Hst. Qed.

(** The clicked stick is in no container: [clickedStick.parentElement] is
    [null] and [appendChild] throws, after the move was counted. *)
Lemma handleStickClick_orphan s sel clicked st :
  selectedStick s = Some sel -> stickHeap s !! clicked = Some st -> clicked ≠ sel ->
  parentElement (puzzleArea s) clicked = None ->
  final_state (handleStickClick clicked s) =
  if decide (parentElement (puzzleArea s) sel ≠ None) then incr_moves s else s.
Proof.
  intros Hsel Hst Hne Hp. destruct s; cbn in *. unfold handleStickClick. js_simpl.
  rewrite Hsel, Hst. js_simpl. rewrite placeStick_on_stick. cbn -[decide Nat.eqb].
  rewrite Hp, (proj2 (Nat.eqb_neq _ _) Hne). cbn -[decide]. by repeat case_decide.
Qed.

Local Ltac frame_done := cbn; split_and!; first [done | by left | by right].

(** What a click leaves alone: the container characters, the level, the
    pending timers and the level display; the feedback is kept or becomes
    the refusal message. *)
Lemma click_frame s clicked :
  let s' := final_state (handleStickClick clicked s) in
  area_chars (puzzleArea s') = area_chars (puzzleArea s) /\
  currentLevel s' = currentLevel s /\ pendingTimers s' = pendingTimers s /\
  currentLevelDisplay s' = currentLevelDisplay s /\
  (feedbackMessage s' = feedbackMessage s \/
   feedbackMessage s' = "No more moves allowed for this stick!").
Proof.
  destruct (selectedStick s) as [sel|] eqn:Hsel.
  - destruct (stickHeap s !! clicked) as [st|] eqn:Hst;
      [|rewrite (handleStickClick_no_target s sel) by done; frame_done].
    destruct (decide (clicked = sel)) as [->|Hne].
    + rewrite (handleStickClick_self s sel st) by done.
      destruct (cfg_levels !! _); destruct s; cbn; frame_done.
    + destruct (parentElement (puzzleArea s) clicked) as [p|] eqn:Hp.
      * rewrite (handleStickClick_place s sel clicked st p) by done.
        destruct (cfg_levels !! _); destruct s; cbn; unfold appendChild; cbn;
          (autorewrite with js_rw; frame_done).
      * rewrite (handleStickClick_orphan s sel clicked st) by done.
        destruct (decide _); destruct s; cbn; frame_done.
  - destruct (cfg_levels !! currentLevel s) as [lv|] eqn:Hlv;
      [|rewrite handleStickClick_no_level by done; frame_done].
    destruct (decide (movesMadeThisLevel s < movesAllowed lv)).
    + rewrite (handleStickClick_select s clicked lv) by done.
      destruct s; cbn; frame_done.
    + rewrite (handleStickClick_refuse s clicked lv) by (done || lia).
      destruct s; cbn; frame_done.
Qed.

(** A relocation: with nothing selected and a move left, a click on [x]
    (line 116) and then a click on the stick [y] of container [q] (line 146)
    put [x] into [q]; the other sticks keep their containers, the move is
    counted as [moves_after_place], the selection is cleared and no element
    is lost. *)
Lemma relocate_stick s lv x y q :
  cfg_levels !! currentLevel s = Some lv -> selectedStick s = None ->
  movesMadeThisLevel s < movesAllowed lv ->
  parentElement (puzzleArea s) y = Some q -> y ≠ x -> is_Some (stickHeap s !! y) ->
  let s2 := final_state (handleStickClick y (final_state (handleStickClick x s))) in
  parentElement (puzzleArea s2) x = Some q /\
  (forall w, w ≠ x -> parentElement (puzzleArea s2) w = parentElement (puzzleArea s) w) /\
  area_chars (puzzleArea s2) = area_chars (puzzleArea s) /\
  movesMadeThisLevel s2 = moves_after_place s x q /\
  selectedStick s2 = None /\ currentLevel s2 = currentLevel s /\
  (forall w, is_Some (stickHeap s !! w) -> is_Some (stickHeap s2 !! w)).
Proof.
  intros Hlv Hsel Hlt Hy Hne [st Hst].
  rewrite (handleStickClick_select s x lv) by done. cbn [final_state].
  pose proof (proj1 (parentElement_Some _ _ _ Hy)) as Hq.
  rewrite (handleStickClick_place _ x y st q);
    [| by destruct s | by destruct s; cbn; rewrite lookup_alter_ne | done | by destruct s].
  destruct s as [cl mv sel area heap nid ld mld fb tm]; cbn in *. rewrite Hlv. cbn.
  unfold moves_after_place. cbn. split_and!; try done.
  - by apply parentElement_append_self.
  - intros w Hw. by apply parentElement_append_other.
  - by autorewrite with js_rw.
  - intros w Hw. by do 2 apply alter_alive.
Qed.

(** C6. A click never changes the character a container stands for:
    [dataset.char] is set by [renderPuzzle] only, and moving sticks between
    containers leaves every container's character as it was. *)
Theorem click_keeps_container_chars s clicked :
  area_chars (puzzleArea (final_state (handleStickClick clicked s))) = area_chars (puzzleArea s).
Proof. apply click_frame. Qed.

(** C8. Placing the selected stick on a stick of its own container costs no
    move: the stick becomes the last child of that container and the
    selection is cleared. *)
Theorem same_container_move_is_free s sel clicked st p :
  selectedStick s = Some sel -> stickHeap s !! clicked = Some st -> clicked ≠ sel ->
  parentElement (puzzleArea s) clicked = Some p ->
  parentElement (puzzleArea s) sel = Some p ->
  let s' := final_state (handleStickClick clicked s) in
  movesMadeThisLevel s' = movesMadeThisLevel s /\
  puzzleArea s' = area_append p sel (puzzleArea s) /\
  selectedStick s' = None.
Proof.
  intros Hsel Hst Hne Hp Hpsel. rewrite (handleStickClick_place s sel clicked st p) by done.
  unfold moves_after_place. rewrite decide_True by done.
  destruct (cfg_levels !! _); destruct s; cbn in *; by split_and!.
Qed.

(** C9. Placing the selected stick on a stick of another container costs
    exactly one move. *)
Theorem cross_container_move_costs_one s sel clicked st p :
  selectedStick s = Some sel -> stickHeap s !! clicked = Some st -> clicked ≠ sel ->
  parentElement (puzzleArea s) clicked = Some p ->
  parentElement (puzzleArea s) sel ≠ Some p ->
  let s' := final_state (handleStickClick clicked s) in
  movesMadeThisLevel s' = S (movesMadeThisLevel s) /\
  puzzleArea s' = area_append p sel (puzzleArea s) /\
  selectedStick s' = None.
Proof.
  intros Hsel Hst Hne Hp Hpsel. rewrite (handleStickClick_place s sel clicked st p) by done.
  unfold moves_after_place. rewrite decide_False by done.
  destruct (cfg_levels !! _); destruct s; cbn in *; by split_and!.
Qed.

(** C10. With the budget spent, a click on a stick selects nothing and moves
    nothing: only the feedback "No more moves allowed for this stick!" is
    shown. *)
Theorem selection_refused_when_budget_spent s clicked lv :
  selectedStick s = None -> cfg_levels !! currentLevel s = Some lv ->
  movesAllowed lv <= movesMadeThisLevel s ->
  final_state (handleStickClick clicked s) = set_feedback "No more moves allowed for this stick!" s.
Proof. intros. by rewrite (handleStickClick_refuse s clicked lv). Qed.
End ClickFacts.

(** ** Examples on a page of level 1 of the repository's catalog: a
    container "1" holding sticks 1 and 2, a container "7" holding stick 4. *)

Lemma same_container_move_is_free_witness :
  let s := demo_page [mkContainer 0 DigitContainer "1" [1; 2]; mkContainer 3 DigitContainer "7" [4]]
             (Some 1) 1 in
  let s' := final_state (handleStickClick 2 s) in
  movesMadeThisLevel s' = movesMadeThisLevel s /\
  puzzleArea s' = area_append 0 1 (puzzleArea s) /\
  selectedStick s' = None.
Proof.
  apply (same_container_move_is_free _ 1 2 demo_stick 0); first [reflexivity | lia].
Defined.

Lemma cross_container_move_costs_one_witness :
  let s := demo_page [mkContainer 0 DigitContainer "1" [1; 2]; mkContainer 3 DigitContainer "7" [4]]
             (Some 1) 0 in
  let s' := final_state (handleStickClick 4 s) in
  movesMadeThisLevel s' = S (movesMadeThisLevel s) /\
  puzzleArea s' = area_append 3 1 (puzzleArea s) /\
  selectedStick s' = None.
Proof.
  apply (cross_container_move_costs_one _ 1 4 demo_stick 3); first [reflexivity | lia | by vm_compute].
Defined.

Lemma selection_refused_when_budget_spent_witness :
  let s := demo_page [mkContainer 0 DigitContainer "1" [1; 2]; mkContainer 3 DigitContainer "7" [4]]
             None 2 in
  final_state (handleStickClick 4 s) = set_feedback "No more moves allowed for this stick!" s.
Proof.
  eapply (selection_refused_when_budget_spent _ 4); [reflexivity | reflexivity | simpl; lia].
Defined.
