(* ===== verification/Check.v ===== *)
(** * The check button (src/script.js, lines 170-217), with
      [determineCharFromSticks] (219-229), [parseVisualEquation] (231-262)
      and the [setTimeout] callback (205-213)

    [determineCharFromSticks] reads [containerElement.dataset.char || '?']
    and ignores the sticks it queries; on [undefined] (a missing child of the
    puzzle area) the query throws.  [parseVisualEquation] reads children 0, 1,
    2 and 4 (child 3, the equals sign, is never read), parses the numbers
    with [parseInt] and the operator, and returns an object with or without
    the number fields.  The check handler compares that object with the
    fixed equation 1 + 1 = 2, whatever the level, and on success schedules
    the advance to the next level: the pending callbacks are counted in
    [pendingTimers], and the event loop ([Session]) runs one of them when the
    timer fires. *)

From S2P Require Import Prelude JsRuntime Templates Levels Puzzle Dom Render.
Local Open Scope string_scope.

(** The object returned by [parseVisualEquation]: [{isValid: false, str}] or
    [{num1, op, num2, res, isValid, str}]. *)
Inductive VisualEquation :=
| VEInvalid (str : string)
| VEValid (num1 : Z) (op : string) (num2 : Z) (res : Z) (isValid : bool) (str : string).

(** Lines 197-201: the fields compared with 1, '+', 1 and 2 ([undefined]
    fields of the invalid object compare unequal). *)
Definition is_one_plus_one_is_two (e : VisualEquation) : bool :=
  match e with
  | VEValid num1 op num2 res _ _ =>
      (num1 =? 1)%Z && String.eqb op "+" && (num2 =? 1)%Z && (res =? 2)%Z
  | VEInvalid _ => false
  end.

Section Check.
Context `{!GameConfig}.

Definition determineCharFromSticks (containerElement : option Container) : JS State string :=
  c ← containerElement ?? "Cannot read properties of undefined (reading 'querySelectorAll')";
  mret (js_or_string (c_char c) "?").

Definition parseVisualEquation : JS State VisualEquation :=
  s ← js_get;
  num1Str ← determineCharFromSticks (puzzleArea s !! 0%nat);
  opStr ← determineCharFromSticks (puzzleArea s !! 1%nat);
  num2Str ← determineCharFromSticks (puzzleArea s !! 2%nat);
  resStr ← determineCharFromSticks (puzzleArea s !! 4%nat);
  let str := num1Str ++ opStr ++ num2Str ++ "=" ++ resStr in
  let opFunc :=
    if String.eqb opStr "+" then Some Z.add
    else if String.eqb opStr "-" then Some Z.sub
    else None in
  match parseInt num1Str, parseInt num2Str, parseInt resStr, opFunc with
  | Some num1, Some num2, Some res, Some f =>
      mret (VEValid num1 opStr num2 res (f num1 num2 =? res)%Z str)
  | _, _, _, _ => mret (VEInvalid str)
  end.

Definition checkButtonClick : JS State unit :=
  s ← js_get;
  let level := cfg_levels !! currentLevel s in
  lv ← level ?? "Cannot read properties of undefined (reading 'movesAllowed')";
  if (movesAllowed lv <? movesMadeThisLevel s)%nat then
    js_modify (set_feedback "Too many moves!")
  else
    chars ← js_mapi_from (fun c _ => determineCharFromSticks (Some c)) 0 (puzzleArea s);
    let currentEquationString := String.concat "" chars in
    actualCurrentEquation ← parseVisualEquation;
    if is_one_plus_one_is_two actualCurrentEquation
       && (movesMadeThisLevel s <=? movesAllowed lv)%nat then
      js_modify (set_feedback "Correct! Well done!");;
      js_modify (fun s => set_timers (S (pendingTimers s)) s)
    else js_modify (set_feedback "Not quite right. Try again!").

(** The callback passed to [setTimeout] (lines 205-213). *)
Definition advanceLevel : JS State unit :=
  js_modify (fun s => set_currentLevel (S (currentLevel s)) s);;
  s ← js_get;
  if (currentLevel s <? length cfg_levels)%nat then renderPuzzle (currentLevel s)
  else js_modify (set_feedback "You completed all levels!").
End Check.

(** The characters that make the check succeed: child 0 parses to 1, child 1
    is ['+'], child 2 parses to 1 and child 4 parses to 2; child 3 and the
    rest are not read. *)
Definition target_chars (chars : list string) : Prop :=
  exists c0 c1 c2 c3 c4 rest,
    chars = c0 :: c1 :: c2 :: c3 :: c4 :: rest /\
    parseInt c0 = Some 1%Z /\ c1 = "+" /\ parseInt c2 = Some 1%Z /\ parseInt c4 = Some 2%Z.

Section CheckFacts.
Context `{!GameConfig}.

Local Arguments parseVisualEquation : simpl never.

Lemma determineChars_spec (l : list Container) i s :
  js_mapi_from (fun c _ => determineCharFromSticks (Some c)) i l s =
  Normal (map (fun c => js_or_string (c_char c) "?") l) s.
Proof. apply js_mapi_pure. done. Qed.

Lemma target_chars_cons c0 c1 c2 c3 c4 rest :
  target_chars (c0 :: c1 :: c2 :: c3 :: c4 :: rest) <->
  parseInt c0 = Some 1%Z /\ c1 = "+" /\ parseInt c2 = Some 1%Z /\ parseInt c4 = Some 2%Z.
Proof.
  unfold target_chars. split.
  - by intros (?&?&?&?&?&?&[= <- <- <- <- <- <-]&?).
  - intros ?. by eexists _, _, _, _, _, _.
Qed.

Lemma target_chars_length chars : target_chars chars -> 5 <= length chars.
Proof. intros (?&?&?&?&?&?&->&_). simpl. lia. Qed.

(** [parseVisualEquation] reads the state, throws when the area has fewer
    than five children, and otherwise returns an equation that is 1 + 1 = 2
    exactly on [target_chars]. *)
Lemma parseVisualEquation_target s :
  wp parseVisualEquation
    (fun v s' => s' = s /\ 5 <= length (puzzleArea s) /\
       (is_one_plus_one_is_two v = true <-> target_chars (area_chars (puzzleArea s))))
    (fun s' => s' = s /\ length (puzzleArea s) < 5) s.
Proof.
  unfold parseVisualEquation, area_chars, wp. js_simpl.
  destruct (puzzleArea s) as [|c0 [|c1 [|c2 [|c3 [|c4 rest]]]]]; js_simpl;
    try (split; [done | simpl; lia]).
  destruct (parseInt (js_or_string (c_char c0) "?")) as [n0|] eqn:E0,
    (parseInt (js_or_string (c_char c2) "?")) as [n2|] eqn:E2,
    (parseInt (js_or_string (c_char c4) "?")) as [n4|] eqn:E4;
    rewrite parseInt_or_qmark in E0, E2, E4;
    destruct (String.eqb_spec (js_or_string (c_char c1) "?") "+") as [Hp|Hp];
    try destruct (String.eqb_spec (js_or_string (c_char c1) "?") "-");
    simpl; (split; [done|]); (split; [simpl; lia|]);
    rewrite target_chars_cons, <- (or_qmark_eq_plus (c_char c1)),
      ?andb_true_iff, ?Z.eqb_eq, ?String.eqb_eq;
    naive_solver.
Qed.

Local Arguments js_mapi_from : simpl never.

(** The four outcomes of the check button, one premise each: past the end
    of the catalog it throws and changes nothing; over the budget it says
    "Too many moves!"; otherwise it schedules the advance exactly on
    [target_chars], and says "Not quite right" elsewhere. *)
Lemma checkButtonClick_cases s (P : State -> Prop) :
  (cfg_levels !! currentLevel s = None -> P s) ->
  (forall lv, cfg_levels !! currentLevel s = Some lv -> movesMadeThisLevel s <= movesAllowed lv ->
     length (puzzleArea s) < 5 -> P s) ->
  (forall lv, cfg_levels !! currentLevel s = Some lv -> movesAllowed lv < movesMadeThisLevel s ->
     P (set_feedback "Too many moves!" s)) ->
  (forall lv, cfg_levels !! currentLevel s = Some lv -> movesMadeThisLevel s <= movesAllowed lv ->
     target_chars (area_chars (puzzleArea s)) ->
     P (set_timers (S (pendingTimers s)) (set_feedback "Correct! Well done!" s))) ->
  (forall lv, cfg_levels !! currentLevel s = Some lv -> movesMadeThisLevel s <= movesAllowed lv ->
     5 <= length (puzzleArea s) -> ~ target_chars (area_chars (puzzleArea s)) ->
     P (set_feedback "Not quite right. Try again!" s)) ->
  P (final_state (checkButtonClick s)).
Proof.
  intros Hthrow Hshort Htoo Hok Hko. pose proof (parseVisualEquation_target s) as W.
  unfold checkButtonClick. js_simpl.
  destruct (cfg_levels !! currentLevel s) as [lv|] eqn:Hlv; js_simpl; [|by apply Hthrow].
  destruct (Nat.ltb_spec (movesAllowed lv) (movesMadeThisLevel s)); js_simpl; [by eapply Htoo|].
  rewrite determineChars_spec. js_simpl. unfold wp in W.
  destruct (parseVisualEquation s) as [v s'|e s']; [destruct W as (-> & Hlen & W) | destruct W as [-> W]]; js_simpl;
    [|apply (Hshort lv); [done|lia|done]].
  rewrite (proj2 (Nat.leb_le _ _)) by lia. rewrite andb_true_r.
  destruct (is_one_plus_one_is_two v) eqn:Hv; js_simpl.
  - assert (Ht : target_chars (area_chars (puzzleArea s))) by (apply W; done).
    destruct s. apply (Hok lv); [done|lia|done].
  - apply (Hko lv); [done|lia|done|]. rewrite <- W. congruence.
Qed.

(** C4. Whatever the level, once the level exists and the budget holds,
    the check schedules the advance to the next level exactly when the
    containers 0, 1, 2 and 4 hold 1, '+', 1 and 2: the level's own target
    ([solution], [solutionString]) is never consulted and container 3, the
    equals sign, is never read. *)
Theorem check_schedules_advance_iff s lv :
  cfg_levels !! currentLevel s = Some lv -> movesMadeThisLevel s <= movesAllowed lv ->
  pendingTimers (final_state (checkButtonClick s)) = S (pendingTimers s) <->
  target_chars (area_chars (puzzleArea s)).
Proof.
  intros Hlv Hle.
  apply (checkButtonClick_cases s
    (fun s' => pendingTimers s' = S (pendingTimers s) <-> target_chars (area_chars (puzzleArea s)))).
  - congruence.
  - intros _ _ _ Hlen. split; [lia|]. intros Ht%target_chars_length.
    unfold area_chars in Ht. rewrite length_map in Ht. lia.
  - intros lv' Hlv' Hlt. simplify_eq. lia.
  - intros _ _ _ Ht. destruct s; cbn. tauto.
  - intros _ _ _ _ Ht. destruct s; cbn. split; [lia | done].
Qed.

(** C5. The check reads the characters stored on the containers and never
    the sticks: two pages that differ only in their sticks (same container
    characters) get the same feedback and the same scheduled advances. *)
Theorem check_ignores_sticks s area' :
  area_chars area' = area_chars (puzzleArea s) ->
  feedbackMessage (final_state (checkButtonClick (set_area area' s))) =
    feedbackMessage (final_state (checkButtonClick s)) /\
  pendingTimers (final_state (checkButtonClick (set_area area' s))) =
    pendingTimers (final_state (checkButtonClick s)).
Proof.
  intros Hchars. assert (Hlen : length area' = length (puzzleArea s))
    by (apply (f_equal length) in Hchars; unfold area_chars in Hchars; by rewrite !length_map in Hchars).
  destruct s as [cl mv sel area heap nid ld mld fb tm]. cbn in Hchars, Hlen.
  apply checkButtonClick_cases; cbn; rewrite ?Hchars, ?Hlen;
    intros; apply checkButtonClick_cases; cbn; intros; simplify_eq; try lia; try tauto;
    exfalso; unfold area_chars in *; rewrite ?Hchars in *; try tauto;
    match goal with H : target_chars _ |- _ => apply target_chars_length in H end;
    rewrite ?length_map in *; lia.
Qed.

End CheckFacts.

(** ** Examples on pages of level 1 of the repository's catalog *)

Lemma check_schedules_advance_iff_witness :
  let s := demo_page (demo_area ["1"; "+"; "1"; "="; "2"]) None 0 in
  pendingTimers (final_state (checkButtonClick s)) = S (pendingTimers s) <->
  target_chars (area_chars (puzzleArea s)).
Proof. eapply check_schedules_advance_iff; [reflexivity | simpl; lia]. Defined.

Lemma check_ignores_sticks_witness :
  let s := demo_page [mkContainer 0 DigitContainer "1" [1; 2]; mkContainer 3 DigitContainer "7" [4]]
             None 0 in
  let area' := [mkContainer 0 DigitContainer "1" []; mkContainer 3 DigitContainer "7" [4; 1; 2]] in
  feedbackMessage (final_state (checkButtonClick (set_area area' s))) =
    feedbackMessage (final_state (checkButtonClick s)) /\
  pendingTimers (final_state (checkButtonClick (set_area area' s))) =
    pendingTimers (final_state (checkButtonClick s)).
Proof. apply check_ignores_sticks. reflexivity. Defined.

