(* ===== verification/Matcher.v ===== *)
(** * The specification's Stick Pattern Matcher and Equation Model, over
      the code's symbol library

    The code has no matcher: [determineCharFromSticks] returns the stored
    [dataset.char] (see [Check]), and [updatePuzzleState] only logs.  This
    file states what the specification asks of these components (sections
    4.1-4.3) as functions over the data the code does have: the stick
    templates of [stickTemplates] (positions and the orientation class a
    rendered stick gets at line 93) and the sticks of the page.
    - [resolve] is the matcher of section 4.2: exact, orientation-aware set
      equality of slot positions against every symbol of the library, with
      [Ambiguous] for several matches;
    - [validateLibrary] is the construction-time check of section 4.1;
    - [deriveCurrent] and [isArithmeticallyTrue] are the Equation Model of
      section 4.3, read off a page of the code.
    The theorems relate them to the code: the round trip of section 8 holds
    exactly for ['1'], the library fails its own validation, no page of the
    code derives a well-formed equation, and [parseVisualEquation] agrees
    with [isArithmeticallyTrue] on every equation of printed numbers. *)

From S2P Require Import Prelude JsRuntime Templates Levels Puzzle Dom Render Check.
Local Open Scope string_scope.

(** ** The matcher (section 4.2) *)

(** A canonical slot: the orientation and the position of a stick. *)
Record SlotPos := mkSlotPos {
  sp_orient : Orientation;
  sp_top : string;
  sp_left : string
}.

#[export] Instance SlotPos_eq_dec : EqDecision SlotPos.
Proof. solve_decision. Defined.

(** The slot of a template entry, with the orientation class it is rendered
    with (line 93) and its [top] and [left] (lines 94-95). *)
Definition template_slot (sd : StickData) : SlotPos :=
  mkSlotPos (stick_orientation sd) (sd_top sd) (sd_left sd).

(** The slot of a stick element of the page. *)
Definition stick_slot (st : Stick) : SlotPos :=
  mkSlotPos (st_orient st) (st_top st) (st_left st).

(** The symbols of the library, in the order of the object literal. *)
Definition symbols : list string := map fst stickTemplates_table.

(** [definitionFor(char)]: [None] is [NotFound]. *)
Definition definitionFor (c : string) : option (list SlotPos) :=
  map template_slot <$> stickTemplates c.

Definition canonical_slots (c : string) : list SlotPos := default [] (definitionFor c).

(** Set equality: order irrelevant, duplicates collapse. *)
Definition same_slots (l1 l2 : list SlotPos) : bool := bool_decide (l1 ⊆ l2 /\ l2 ⊆ l1).

Inductive Resolution := Resolved (c : string) | Unrecognized | Ambiguous.

#[export] Instance Resolution_eq_dec : EqDecision Resolution.
Proof. solve_decision. Defined.

Definition resolve (ps : list SlotPos) : Resolution :=
  match List.filter (fun c => same_slots ps (canonical_slots c)) symbols with
  | [] => Unrecognized
  | [c] => Resolved c
  | _ => Ambiguous
  end.

(** ** Library validation (section 4.1) *)

Inductive ConfigurationError := AmbiguousSymbols (a b : string).

(** The first pair of distinct symbols, in library order, with the same
    slot set. *)
Fixpoint first_clash (cs : list string) : option ConfigurationError :=
  match cs with
  | [] => None
  | c :: cs' =>
      match List.find (fun d => same_slots (canonical_slots c) (canonical_slots d)) cs' with
      | Some d => Some (AmbiguousSymbols c d)
      | None => first_clash cs'
      end
  end.

Definition validateLibrary : option ConfigurationError := first_clash symbols.

(** ** Facts on the matcher *)

(** The only slot set of the library that is not empty: the stick of ['1']. *)
Definition one_slots : list SlotPos := [mkSlotPos Vertical "25%" "45%"].

Lemma same_slots_nil ps : same_slots ps [] = bool_decide (ps = []).
Proof.
  unfold same_slots. apply bool_decide_ext. split.
  - intros [H _]. destruct ps as [|p ps]; [done|]. specialize (H p). set_solver.
  - intros ->. set_solver.
Qed.

(** What [resolve] does with the code's library: the empty set matches the
    twelve empty templates, any other set matches at most ['1']. *)
Lemma resolve_spec ps :
  resolve ps = if decide (ps = []) then Ambiguous
               else if same_slots ps one_slots then Resolved "1" else Unrecognized.
Proof.
  destruct (decide (ps = [])) as [->|Hne]; [reflexivity|].
  unfold resolve, symbols, canonical_slots, definitionFor. cbn -[same_slots].
  rewrite !same_slots_nil, bool_decide_eq_false_2 by done.
  by destruct (same_slots ps _).
Qed.

Lemma resolve_only_one ps c : resolve ps = Resolved c -> c = "1".
Proof. rewrite resolve_spec. by repeat case_match; intros [= <-]. Qed.

Lemma canonical_slots_cases c : canonical_slots c = [] \/ c = "1".
Proof.
  destruct (String.eqb_spec c "1") as [|Hne]; [by right|left].
  unfold canonical_slots, definitionFor. destruct (stickTemplates c) as [l|] eqn:E; [|done].
  by rewrite (stickTemplates_other c l E Hne).
Qed.

(** ** The Equation Model (section 4.3) read off a page *)

(** The slots of the sticks a container holds ([querySelectorAll('.matchstick')]
    on it), in document order. *)
Definition container_slots (heap : gmap nat Stick) (c : Container) : list SlotPos :=
  omap (fun id => stick_slot <$> heap !! id) (c_kids c).

(** The value of a digit symbol in base 10. *)
Definition digit_value (c : string) : option Z :=
  match c with
  | String a "" => Z.of_nat <$> radix_digit 10 a
  | _ => None
  end.

Record Derived := mkDerived {
  d_num1 : Z;
  d_op : string;
  d_num2 : Z;
  d_result : Z
}.

(** [deriveCurrent(slots)]: [None] is [wellFormed = false]: not five slots,
    a slot [Unrecognized] or [Ambiguous], an equals slot that is not ['='],
    an operator outside {+, -} or a number slot that is not a digit. *)
Definition deriveCurrent (heap : gmap nat Stick) (area : list Container) : option Derived :=
  match area with
  | [c0; c1; c2; c3; c4] =>
      match resolve (container_slots heap c0), resolve (container_slots heap c1),
            resolve (container_slots heap c2), resolve (container_slots heap c3),
            resolve (container_slots heap c4) with
      | Resolved n1, Resolved op, Resolved n2, Resolved eq, Resolved r =>
          if String.eqb eq "=" && (String.eqb op "+" || String.eqb op "-") then
            match digit_value n1, digit_value n2, digit_value r with
            | Some a, Some b, Some c => Some (mkDerived a op b c)
            | _, _, _ => None
            end
          else None
      | _, _, _, _, _ => None
      end
  | _ => None
  end.

(** [isArithmeticallyTrue]: [op = '+'] gives [num1 + num2 = result],
    [op = '-'] gives [num1 - num2 = result]. *)
Definition isArithmeticallyTrue (num1 : Z) (op : string) (num2 result : Z) : bool :=
  (String.eqb op "+" && (num1 + num2 =? result)%Z) || (String.eqb op "-" && (num1 - num2 =? result)%Z).

(** The specification's [check()] condition on the equation of a page. *)
Definition specSolved (heap : gmap nat Stick) (area : list Container) : bool :=
  match deriveCurrent heap area with
  | Some d => isArithmeticallyTrue (d_num1 d) (d_op d) (d_num2 d) (d_result d)
  | None => false
  end.

(** The library fails the specification's validation: ['2'] and ['3'] have
    the same (empty) slot set, which is a [ConfigurationError]. *)
Example library_validation_fails : validateLibrary = Some (AmbiguousSymbols "2" "3").
Proof. vm_compute. reflexivity. Qed.

(** C34. The round trip of the specification's section 8 ([resolve] of the
    canonical slots of a symbol gives the symbol back) holds for exactly one
    character of the code's library, ['1']: every other symbol, and every
    character outside the library, resolves to something else. *)
Theorem resolve_roundtrip_only_one c : resolve (canonical_slots c) = Resolved c <-> c = "1".
Proof.
  split; [apply resolve_only_one|]. intros ->. vm_compute. reflexivity.
Qed.

(** C35. No page of the code ever derives a well-formed equation under the
    specification's Equation Model: the equals slot would have to resolve
    to ['='], and with the code's library only ['1'] is ever recognised.
    Hence the specification's [check()] never reaches [Solved] on any page. *)
Theorem no_page_derives_an_equation heap area :
  deriveCurrent heap area = None /\ specSolved heap area = false.
Proof.
  assert (deriveCurrent heap area = None) as Hd; [|by unfold specSolved; rewrite Hd].
  unfold deriveCurrent. destruct area as [|c0 [|c1 [|c2 [|c3 [|c4 [|]]]]]]; try done.
  destruct (resolve (container_slots heap c3)) as [eq| |] eqn:E3; repeat case_match; try done.
  apply resolve_only_one in E3 as ->. done.
Qed.


