(* ===== verification/Session.v ===== *)
(** * The event loop: reset and hint handlers (src/script.js, lines 266-275),
      the initial load (lines 1-12 and 278) and the step relation

    The page reacts to five kinds of events: a click on a stick that is in
    the puzzle area (the only elements with a click listener besides the
    buttons), a click on each of the three buttons, and the firing of a
    pending [setTimeout] callback.  Every handler runs to completion (or to
    its [TypeError]) before the next event; an exception ends the handler
    but keeps its mutations, and the page goes on.  [step] is one event,
    [reachable] the states reachable from the page after [DOMContentLoaded].
    The last part instantiates the development with the repository's
    catalog and shows that the shipped game can never be solved. *)

From S2P Require Import Prelude JsRuntime Templates Levels Puzzle Dom Render Click Check.
Local Open Scope string_scope.

(** The double quote character, for the template literal of line 274. *)
Definition dquote : string := String (Ascii.ascii_of_nat 34) EmptyString.

Inductive Event :=
| ClickStick (id : nat)
| ClickCheck
| ClickReset
| ClickHint
| TimerFires.

#[export] Instance Event_eq_dec : EqDecision Event.
Proof. solve_decision. Defined.

Section Session.
Context `{!GameConfig}.

Definition resetButtonClick : JS State unit :=
  s ← js_get;
  renderPuzzle (currentLevel s).

Definition hintButtonClick : JS State unit :=
  s ← js_get;
  lv ← cfg_levels !! currentLevel s
         ?? "Cannot read properties of undefined (reading 'solutionString')";
  js_modify (set_feedback ("Hint: Try to make it " ++ dquote ++ solutionString lv ++ dquote)).

(** The page when the callback starts: the three [let]s of lines 10-12 and
    an empty puzzle area. *)
Definition initial_page : State :=
  mkState 0 0 None [] ∅ 0 "" "" "" 0.

(** Line 278. *)
Definition onDOMContentLoaded : JS State unit := renderPuzzle 0.

Definition loaded_page : State := final_state (onDOMContentLoaded initial_page).

(** A stick can be clicked when it is displayed, i.e. in a container of
    the area; a timer fires when one is pending. *)
Definition enabled (ev : Event) (s : State) : bool :=
  match ev with
  | ClickStick id => bool_decide (id ∈ area_sticks (puzzleArea s))
  | TimerFires => (0 <? pendingTimers s)%nat
  | _ => true
  end.

Definition handler (ev : Event) : JS State unit :=
  match ev with
  | ClickStick id => handleStickClick id
  | ClickCheck => checkButtonClick
  | ClickReset => resetButtonClick
  | ClickHint => hintButtonClick
  | TimerFires => js_modify (fun s => set_timers (pred (pendingTimers s)) s);; advanceLevel
  end.

Definition dispatch (ev : Event) (s : State) : State := final_state (handler ev s).

Inductive step : State -> Event -> State -> Prop :=
| step_event s ev : enabled ev s = true -> step s ev (dispatch ev s).

Inductive reachable : State -> Prop :=
| reachable_loaded : reachable loaded_page
| reachable_step s ev s' : reachable s -> step s ev s' -> reachable s'.

(** ** Invariants *)

(** The move budget of the current level is respected, and strictly so
    while a stick is selected. *)
Definition budget_ok (s : State) : Prop :=
  match cfg_levels !! currentLevel s with
  | Some lv =>
      movesMadeThisLevel s <= movesAllowed lv /\
      (is_Some (selectedStick s) -> movesMadeThisLevel s < movesAllowed lv)
  | None => True
  end.

(** The page: a well-formed area whose sticks are elements of the heap, a
    selected stick that is an element and is displayed (unless the area
    was cleared by a failed render), and no "Too many moves!" shown. *)
Definition dom_ok (s : State) : Prop :=
  area_wf (puzzleArea s) /\
  (forall x, x ∈ area_sticks (puzzleArea s) -> is_Some (stickHeap s !! x)) /\
  (forall sel, selectedStick s = Some sel ->
     is_Some (stickHeap s !! sel) /\ (sel ∈ area_sticks (puzzleArea s) \/ puzzleArea s = [])) /\
  feedbackMessage s <> "Too many moves!".

Definition page_ok (s : State) : Prop := budget_ok s /\ dom_ok s.

(** A run of events; disabled events are dropped. *)
Fixpoint run (evs : list Event) (s : State) : State :=
  match evs with
  | [] => s
  | ev :: evs' => run evs' (if enabled ev s then dispatch ev s else s)
  end.
End Session.

(** ** The game as shipped

    With the repository's catalog ([source_config]) the loaded page shows
    level 1, "1-1=9", with two sticks.  Moving sticks never changes the
    character a container holds ([updatePuzzleState] only logs), and the
    check looks only at those characters and compares them with 1 + 1 = 2,
    so the check of "1-1=9" always fails: the game stays at its first level
    forever.  [src_ok] captures this. *)

(** The characters of the containers of level 1. *)
Definition level1_chars : list string := ["1"; "-"; "1"; "="; "9"].

(** Every reachable page of the shipped game: level 1, no pending advance,
    the characters of "1-1=9", and no success message. *)
Definition src_ok (s : State) : Prop :=
  currentLevel s = 0 /\ pendingTimers s = 0 /\
  area_chars (puzzleArea s) = level1_chars /\
  feedbackMessage s <> "Correct! Well done!".

(** The shape of an area up to element identity: the kind, the character
    and the number of sticks of each container. *)
Definition area_shape (area : list Container) : list (ContainerKind * string * nat) :=
  map (fun c => (c_kind c, c_char c, length (c_kids c))) area.

(** A displayed stick carries the [selected] class exactly when it is the
    selected stick. *)
Definition sel_ok (s : State) : Prop :=
  forall x, x ∈ area_sticks (puzzleArea s) ->
  exists st, stickHeap s !! x = Some st /\ (st_selected st = true <-> selectedStick s = Some x).

(** A catalog of one level, "1+1=2", whose puzzle already satisfies the
    check: the game can be completed with it. *)
Definition one_level_config : GameConfig := {|
  cfg_templates := stickTemplates;
  cfg_levels := [mkLevel "1+1=2" 2 (fun _ _ _ _ => true) "1+1=2"]
|}.

Section Display.
Context `{!GameConfig}.

(** The moves-left display shows the budget left in the current level. *)
Definition display_ok (s : State) : Prop :=
  forall lv, cfg_levels !! currentLevel s = Some lv ->
  movesLeftDisplay s =
    js_number_to_string (Z.of_nat (movesAllowed lv) - Z.of_nat (movesMadeThisLevel s)).

(** The level display shows the 1-based number of the current level. *)
Definition level_display_ok (s : State) : Prop :=
  is_Some (cfg_levels !! currentLevel s) ->
  currentLevelDisplay s = js_number_to_string (Z.of_nat (currentLevel s) + 1).
End Display.

Section InvariantProofs.
Context `{!GameConfig}.

Local Arguments layout : simpl never.
Local Arguments layout_heap : simpl never.
Local Arguments groups : simpl never.
Local Arguments area_sticks : simpl never.

Lemma dom_ok_empty_area s :
  puzzleArea s = [] -> (forall sel, selectedStick s = Some sel -> is_Some (stickHeap s !! sel)) ->
  feedbackMessage s <> "Too many moves!" -> dom_ok s.
Proof.
  intros Ha Hsel Hfb. unfold dom_ok. rewrite Ha.
  split_and!; [split; constructor | set_solver | naive_solver | done].
Qed.

(** [renderPuzzle] of the current level leaves a page that satisfies the
    invariant: the fresh layout when the level exists, the cleared area
    otherwise. *)
Lemma render_page_ok s : dom_ok s -> page_ok (final_state (renderPuzzle (currentLevel s) s)).
Proof.
  intros (Hwf & Halive & Hsel & Hfb).
  destruct (cfg_levels !! currentLevel s) as [lv|] eqn:Hlv.
  - rewrite (renderPuzzle_level _ lv) by done. unfold rendered_page.
    destruct (puzzle_match (puzzle lv)) as [m|]; destruct s; cbn in *;
      (split; [unfold budget_ok; cbn; rewrite Hlv; split; [lia | by intros []]|]).
    + unfold dom_ok; cbn.
      split_and!; [apply layout_wf | intros x Hx; by apply layout_heap_alive | done | done].
    + by apply dom_ok_empty_area.
  - rewrite renderPuzzle_no_level by done. destruct s; cbn in *.
    split; [unfold budget_ok; cbn; by rewrite Hlv|].
    apply dom_ok_empty_area; [done | | done]. intros sel Hs. by apply Hsel.
Qed.

Local Arguments area_wf : simpl never.

Ltac page_leaf Hlv :=
  unfold page_ok, budget_ok, dom_ok; cbn; rewrite ?Hlv.

(** A click on a displayed stick keeps the invariant. *)
Lemma click_page_ok s id :
  page_ok s -> id ∈ area_sticks (puzzleArea s) -> page_ok (final_state (handleStickClick id s)).
Proof.
  intros [Hb (Hwf & Halive & Hsel & Hfb)] Hid.
  destruct (selectedStick s) as [sel|] eqn:Hs.
  - destruct (Halive id Hid) as [st Hst].
    destruct (Hsel sel eq_refl) as [Hsel_alive [Hsel_in|Hempty]];
      [|rewrite Hempty in Hid; set_solver].
    unfold budget_ok in Hb.
    destruct (decide (id = sel)) as [->|Hne].
    + rewrite (handleStickClick_self s sel st) by done.
      destruct (cfg_levels !! currentLevel s) as [lv|] eqn:Hlv; destruct s; cbn in *;
        page_leaf Hlv; (split; [first [done | split; [lia | by intros []]]|]);
        (split_and!; [done | intros x Hx; by apply alter_alive, Halive | done | done]).
    + destruct (parentElement (puzzleArea s) id) as [p|] eqn:Hp;
        [|apply parentElement_None in Hp; contradiction].
      destruct (parentElement_Some _ _ _ Hp) as [Hpin _].
      rewrite (handleStickClick_place s sel id st p) by done.
      assert (Hmv : moves_after_place s sel p <= S (movesMadeThisLevel s))
        by (unfold moves_after_place; case_decide; lia).
      destruct (cfg_levels !! currentLevel s) as [lv|] eqn:Hlv; destruct s; cbn in *;
        page_leaf Hlv;
        (split; [first [done | destruct Hb as [_ Hb]; specialize (Hb (ltac:(by eexists)));
                            split; [lia | by intros []]]|]);
        (split_and!;
         [ by apply area_wf_append
         | intros x Hx; apply alter_alive;
           apply Halive; by rewrite <- area_sticks_append_elem
         | done | done]).
  - destruct (cfg_levels !! currentLevel s) as [lv|] eqn:Hlv.
    + unfold budget_ok in Hb. rewrite Hlv in Hb.
      destruct (decide (movesMadeThisLevel s < movesAllowed lv)).
      * rewrite (handleStickClick_select s id lv) by done. destruct s; cbn in *.
        page_leaf Hlv. split; [split; [lia | done]|].
        split_and!; [done | intros x Hx; by apply alter_alive, Halive | | done].
        intros sel' [= <-]. split; [apply alter_alive; by apply Halive | by left].
      * rewrite (handleStickClick_refuse s id lv) by (done || lia). destruct s; cbn in *.
        page_leaf Hlv. split; [done|]. split_and!; [done | done | naive_solver | discriminate].
    + rewrite handleStickClick_no_level by done. split; [done|].
      cbn. unfold dom_ok. rewrite Hs. split_and!; [done | done | by intros ? ? | done].
Qed.

(** Showing a message or scheduling a timer keeps the invariant. *)
Lemma page_ok_feedback s msg :
  page_ok s -> msg <> "Too many moves!" -> page_ok (set_feedback msg s).
Proof. destruct s. unfold page_ok, budget_ok, dom_ok. cbn. naive_solver. Qed.

Lemma page_ok_timers s n : page_ok s -> page_ok (set_timers n s).
Proof. by destruct s. Qed.

Lemma dom_ok_frame s n m :
  dom_ok s -> dom_ok (set_currentLevel n (set_timers m s)).
Proof. by destruct s. Qed.

Lemma check_page_ok s : page_ok s -> page_ok (final_state (checkButtonClick s)).
Proof.
  intros Hok. apply checkButtonClick_cases; [done | done | | |].
  - intros lv Hlv Hlt. destruct Hok as [Hb _]. unfold budget_ok in Hb. rewrite Hlv in Hb. lia.
  - intros lv _ _ _. apply page_ok_timers, page_ok_feedback; [done | discriminate].
  - intros lv _ _ _ _. apply page_ok_feedback; [done | discriminate].
Qed.

Lemma hint_page_ok s : page_ok s -> page_ok (final_state (hintButtonClick s)).
Proof.
  intros Hok. unfold hintButtonClick. js_simpl.
  destruct (cfg_levels !! currentLevel s); js_simpl; [|done].
  apply page_ok_feedback; [done | discriminate].
Qed.

Lemma timer_page_ok s : page_ok s -> page_ok (dispatch TimerFires s).
Proof.
  intros [_ Hdom]. unfold dispatch, handler, advanceLevel. js_simpl.
  pose proof (dom_ok_frame s (S (currentLevel s)) (pred (pendingTimers s)) Hdom) as Hdom'.
  destruct s as [cl mv sel area heap nid ld mld fb tm]. cbn -[Nat.ltb] in *.
  destruct (Nat.ltb_spec (S cl) (length cfg_levels)).
  - by apply (render_page_ok (mkState (S cl) mv sel area heap nid ld mld fb (pred tm))).
  - split.
    + unfold budget_ok. cbn. by rewrite lookup_ge_None_2.
    + destruct Hdom' as (? & ? & ? & ?). unfold dom_ok. cbn. split_and!; try done.
Qed.

Lemma page_ok_step s ev :
  page_ok s -> enabled ev s = true -> page_ok (dispatch ev s).
Proof.
  intros Hok Hen. destruct ev as [id| | | |]; simpl in Hen.
  - apply click_page_ok; [done|]. by apply bool_decide_eq_true in Hen.
  - by apply check_page_ok.
  - unfold dispatch, handler, resetButtonClick. js_simpl. apply render_page_ok, Hok.
  - by apply hint_page_ok.
  - by apply timer_page_ok.
Qed.

Lemma loaded_page_ok : page_ok loaded_page.
Proof.
  apply (render_page_ok initial_page).
  apply dom_ok_empty_area; [done | by intros ? ? | discriminate].
Qed.

(** Every reachable page satisfies the invariant. *)
Lemma reachable_page_ok s : reachable s -> page_ok s.
Proof.
  induction 1 as [|s ev s' _ IH Hstep]; [apply loaded_page_ok|].
  inversion Hstep; subst. by apply page_ok_step.
Qed.
End InvariantProofs.

Section SessionFacts.
Context `{!GameConfig}.

Local Arguments area_sticks : simpl never.
Local Arguments area_wf : simpl never.

(** Running events from a reachable page reaches a page. *)
Lemma reachable_run evs s : reachable s -> reachable (run evs s).
Proof.
  revert s. induction evs as [|ev evs IH]; intros s Hr; simpl; [done|].
  apply IH. destruct (enabled ev s) eqn:Hen; [|done].
  eapply reachable_step; [done | by constructor].
Qed.

(** A click on a displayed stick of a good page moves at most one stick
    between the containers of the area. *)
Lemma click_area_sticks s id :
  page_ok s -> id ∈ area_sticks (puzzleArea s) ->
  area_sticks (puzzleArea (final_state (handleStickClick id s))) ≡ₚ area_sticks (puzzleArea s).
Proof.
  intros [Hb (Hwf & Halive & Hsel & Hfb)] Hid.
  destruct (selectedStick s) as [sel|] eqn:Hs.
  - destruct (Halive id Hid) as [st Hst].
    destruct (Hsel sel eq_refl) as [_ [Hsel_in|Hempty]]; [|rewrite Hempty in Hid; set_solver].
    destruct (decide (id = sel)) as [->|Hne].
    + rewrite (handleStickClick_self s sel st) by done.
      destruct (cfg_levels !! _); by destruct s.
    + destruct (parentElement (puzzleArea s) id) as [p|] eqn:Hp;
        [|apply parentElement_None in Hp; contradiction].
      destruct (parentElement_Some _ _ _ Hp) as [Hpin _].
      rewrite (handleStickClick_place s sel id st p) by done.
      destruct (cfg_levels !! _); destruct s; cbn in *; by apply area_sticks_append.
  - destruct (cfg_levels !! currentLevel s) as [lv|] eqn:Hlv;
      [|by rewrite handleStickClick_no_level].
    destruct (decide (movesMadeThisLevel s < movesAllowed lv)).
    + rewrite (handleStickClick_select s id lv) by done. by destruct s.
    + rewrite (handleStickClick_refuse s id lv) by (done || lia). by destruct s.
Qed.

(** The check when it succeeds: "Correct! Well done!" and one more pending
    advance; nothing else changes. *)
Lemma check_success s lv :
  cfg_levels !! currentLevel s = Some lv -> movesMadeThisLevel s <= movesAllowed lv ->
  target_chars (area_chars (puzzleArea s)) ->
  final_state (checkButtonClick s) =
    set_timers (S (pendingTimers s)) (set_feedback "Correct! Well done!" s).
Proof.
  intros Hlv Hle Ht. pose proof (target_chars_length _ Ht) as Hlen.
  unfold area_chars in Hlen. rewrite length_map in Hlen.
  apply checkButtonClick_cases; intros; simplify_eq; try done; lia.
Qed.

Lemma render_keeps_level_timers i s :
  currentLevel (final_state (renderPuzzle i s)) = currentLevel s /\
  pendingTimers (final_state (renderPuzzle i s)) = pendingTimers s.
Proof.
  destruct (cfg_levels !! i) as [lv|] eqn:Hlv.
  - rewrite (renderPuzzle_level _ lv) by done. unfold rendered_page.
    destruct (puzzle_match _); by destruct s.
  - rewrite renderPuzzle_no_level by done. by destruct s.
Qed.

(** A firing timer advances the level by one and consumes one pending
    callback. *)
Lemma timer_advances s :
  currentLevel (dispatch TimerFires s) = S (currentLevel s) /\
  pendingTimers (dispatch TimerFires s) = pred (pendingTimers s).
Proof.
  unfold dispatch, handler, advanceLevel. js_simpl.
  destruct s as [cl mv sel area heap nid ld mld fb tm]. cbn -[Nat.ltb].
  destruct (S cl <? length cfg_levels)%nat.
  - apply (render_keeps_level_timers (S cl) (mkState (S cl) mv sel area heap nid ld mld fb (pred tm))).
  - done.
Qed.
(** The containers a render builds do not depend on the first element id. *)
Lemma layout_shape n m cs : area_shape (layout n cs) = area_shape (layout m cs).
Proof.
  revert n m. induction cs as [|c cs IH]; intros n m; [done|].
  unfold area_shape in *. cbn. rewrite !length_seq. f_equal. apply IH.
Qed.

(** A player event leaves the level alone and never removes a pending
    callback; only "Check" can add one. *)
Lemma player_event_frame s ev :
  ev <> TimerFires ->
  currentLevel (dispatch ev s) = currentLevel s /\ pendingTimers s <= pendingTimers (dispatch ev s).
Proof.
  intros Hev. destruct ev as [id| | | |]; [| | | |done].
  - destruct (click_frame s id) as (_ & Hl & Ht & _). unfold dispatch, handler. lia.
  - unfold dispatch, handler.
    apply (checkButtonClick_cases s
      (fun s' => currentLevel s' = currentLevel s /\ pendingTimers s <= pendingTimers s'));
      intros; destruct s; cbn; lia.
  - unfold dispatch, handler, resetButtonClick. js_simpl.
    destruct (render_keeps_level_timers (currentLevel s) s). lia.
  - unfold dispatch, handler, hintButtonClick. js_simpl.
    destruct (cfg_levels !! currentLevel s); js_simpl; [destruct s; cbn; lia | lia].
Qed.
(** Two clicks that relocate a displayed stick [x] onto a displayed stick
    [y], as a run of the event loop. *)
Lemma run_relocate s lv x y q evs :
  cfg_levels !! currentLevel s = Some lv -> selectedStick s = None ->
  movesMadeThisLevel s < movesAllowed lv -> x ∈ area_sticks (puzzleArea s) ->
  parentElement (puzzleArea s) y = Some q ->
  run (ClickStick x :: ClickStick y :: evs) s =
    run evs (final_state (handleStickClick y (final_state (handleStickClick x s)))).
Proof.
  intros Hlv Hsel Hlt Hx Hy. pose proof (proj2 (parentElement_Some _ _ _ Hy)) as Hy'.
  cbn [run enabled]. rewrite (bool_decide_eq_true_2 (x ∈ area_sticks (puzzleArea s))) by done.
  unfold dispatch, handler. rewrite (handleStickClick_select s x lv) by done.
  cbn [enabled final_state]. rewrite bool_decide_eq_true_2 by (by destruct s). done.
Qed.
End SessionFacts.

Section DisplayProofs.
Context `{!GameConfig}.

Local Arguments area_sticks : simpl never.

Ltac display_leaf Hlv :=
  let lv' := fresh "lv'" in let Hl := fresh "Hl" in
  intros lv' Hl; cbn in Hl; rewrite Hlv in Hl; injection Hl as <-; reflexivity.

Lemma render_display_ok s : display_ok (final_state (renderPuzzle (currentLevel s) s)).
Proof.
  destruct (cfg_levels !! currentLevel s) as [lv|] eqn:Hlv.
  - rewrite (renderPuzzle_level _ lv) by done. unfold rendered_page.
    destruct (puzzle_match _); destruct s; cbn in *; intros lv' Hl; cbn in Hl; rewrite Hlv in Hl;
      injection Hl as <-; cbn; by rewrite Z.sub_0_r.
  - rewrite renderPuzzle_no_level by done. destruct s; cbn in *. intros lv' Hl. cbn in Hl. congruence.
Qed.

Lemma click_display_ok s id :
  page_ok s -> display_ok s -> id ∈ area_sticks (puzzleArea s) ->
  display_ok (final_state (handleStickClick id s)).
Proof.
  intros [_ (Hwf & Halive & Hsel & _)] Hd Hid.
  destruct (selectedStick s) as [sel|] eqn:Hs.
  - destruct (Halive id Hid) as [st Hst].
    destruct (decide (id = sel)) as [->|Hne].
    + rewrite (handleStickClick_self s sel st) by done.
      destruct (cfg_levels !! currentLevel s) as [lv|] eqn:Hlv; destruct s; cbn in *;
        [display_leaf Hlv | intros lv' Hl; cbn in Hl; congruence].
    + destruct (parentElement (puzzleArea s) id) as [p|] eqn:Hp;
        [|apply parentElement_None in Hp; contradiction].
      rewrite (handleStickClick_place s sel id st p) by done.
      destruct (cfg_levels !! currentLevel s) as [lv|] eqn:Hlv; destruct s; cbn in *;
        [display_leaf Hlv | intros lv' Hl; cbn in Hl; congruence].
  - destruct (cfg_levels !! currentLevel s) as [lv|] eqn:Hlv;
      [|by rewrite handleStickClick_no_level].
    destruct (decide (movesMadeThisLevel s < movesAllowed lv)).
    + rewrite (handleStickClick_select s id lv) by done. by destruct s.
    + rewrite (handleStickClick_refuse s id lv) by (done || lia). by destruct s.
Qed.

Lemma display_ok_step s ev :
  page_ok s -> display_ok s -> enabled ev s = true -> display_ok (dispatch ev s).
Proof.
  intros Hok Hd Hen. destruct ev as [id| | | |]; simpl in Hen.
  - apply click_display_ok; [done | done | by apply bool_decide_eq_true in Hen].
  - unfold dispatch, handler.
    apply (checkButtonClick_cases s display_ok); intros; destruct s; exact Hd.
  - unfold dispatch, handler, resetButtonClick. js_simpl. apply render_display_ok.
  - unfold dispatch, handler, hintButtonClick. js_simpl.
    destruct (cfg_levels !! currentLevel s); js_simpl; [by destruct s | done].
  - unfold dispatch, handler, advanceLevel. js_simpl.
    destruct s as [cl mv sel area heap nid ld mld fb tm]. cbn -[Nat.ltb].
    destruct (Nat.ltb_spec (S cl) (length cfg_levels)).
    + apply (render_display_ok (mkState (S cl) mv sel area heap nid ld mld fb (pred tm))).
    + intros lv' Hl. cbn in Hl. rewrite lookup_ge_None_2 in Hl by lia. discriminate.
Qed.

Lemma reachable_display_ok s : reachable s -> display_ok s.
Proof.
  induction 1 as [|s ev s' Hr IH Hstep].
  - apply (render_display_ok initial_page).
  - inversion Hstep; subst. apply display_ok_step; [by apply reachable_page_ok | done | done].
Qed.

Lemma render_level_display_ok s : level_display_ok (final_state (renderPuzzle (currentLevel s) s)).
Proof.
  destruct (cfg_levels !! currentLevel s) as [lv|] eqn:Hlv.
  - rewrite (renderPuzzle_level _ lv) by done. unfold rendered_page.
    destruct (puzzle_match _); by destruct s.
  - rewrite renderPuzzle_no_level by done. by destruct s.
Qed.

Lemma level_display_ok_step s ev :
  level_display_ok s -> enabled ev s = true -> level_display_ok (dispatch ev s).
Proof.
  intros Hd Hen. destruct ev as [id| | | |].
  - destruct (click_frame s id) as (_ & Hl & _ & Hld & _).
    unfold dispatch, handler, level_display_ok. rewrite Hl, Hld. exact Hd.
  - unfold dispatch, handler.
    apply (checkButtonClick_cases s level_display_ok); intros; destruct s; exact Hd.
  - unfold dispatch, handler, resetButtonClick. js_simpl. apply render_level_display_ok.
  - unfold dispatch, handler, hintButtonClick. js_simpl.
    destruct (cfg_levels !! currentLevel s); js_simpl; [by destruct s | done].
  - unfold dispatch, handler, advanceLevel. js_simpl.
    destruct s as [cl mv sel area heap nid ld mld fb tm]. cbn -[Nat.ltb].
    destruct (Nat.ltb_spec (S cl) (length cfg_levels)).
    + apply (render_level_display_ok (mkState (S cl) mv sel area heap nid ld mld fb (pred tm))).
    + intros [lv Hl]. cbn in Hl. rewrite lookup_ge_None_2 in Hl by lia. discriminate.
Qed.

Lemma reachable_level_display_ok s : reachable s -> level_display_ok s.
Proof.
  induction 1 as [|s ev s' Hr IH Hstep].
  - apply (render_level_display_ok initial_page).
  - inversion Hstep; subst. by apply level_display_ok_step.
Qed.
End DisplayProofs.

Section SelectionProofs.
Context `{!GameConfig}.

Local Arguments area_sticks : simpl never.
Local Arguments layout : simpl never.
Local Arguments layout_heap : simpl never.

Lemma render_sel_ok i s : sel_ok (final_state (renderPuzzle i s)).
Proof.
  destruct (cfg_levels !! i) as [lv|] eqn:Hlv.
  - rewrite (renderPuzzle_level _ lv) by done. unfold rendered_page.
    destruct (puzzle_match _) as [m|]; destruct s; cbn; intros x Hx; cbn in *; [|set_solver].
    destruct (proj1 (layout_heap_fresh _ _ stickHeap x) Hx) as (st & -> & Hf).
    exists st. rewrite Hf. naive_solver.
  - rewrite renderPuzzle_no_level by done. destruct s; cbn. intros x Hx. set_solver.
Qed.

(** Clearing the flag of the selected stick and the selection keeps the
    invariant, on any area whose sticks were displayed before. *)
Lemma sel_ok_deselect s sel area' :
  sel_ok s -> selectedStick s = Some sel ->
  (forall x, x ∈ area_sticks area' -> x ∈ area_sticks (puzzleArea s)) ->
  forall x, x ∈ area_sticks area' ->
  exists st, alter (set_stick_selected false) sel (stickHeap s) !! x = Some st /\
    (st_selected st = true <-> @None nat = Some x).
Proof.
  intros Hok Hs Hsub x Hx. destruct (Hok x (Hsub x Hx)) as (st & Hst & Hiff).
  destruct (mark_selected_lookup _ sel false x st Hst) as (st' & -> & Hf).
  exists st'. rewrite Hf. case_decide; [naive_solver|]. rewrite Hiff, Hs. naive_solver.
Qed.

Lemma click_sel_ok s id :
  page_ok s -> sel_ok s -> id ∈ area_sticks (puzzleArea s) ->
  sel_ok (final_state (handleStickClick id s)).
Proof.
  intros [_ (Hwf & Halive & Hsel & _)] Hok Hid.
  destruct (selectedStick s) as [sel|] eqn:Hs.
  - destruct (Halive id Hid) as [st Hst].
    destruct (Hsel sel eq_refl) as [_ [Hsel_in|Hempty]]; [|rewrite Hempty in Hid; set_solver].
    destruct (decide (id = sel)) as [->|Hne].
    + rewrite (handleStickClick_self s sel st) by done.
      pose proof (sel_ok_deselect s sel (puzzleArea s) Hok Hs (fun x Hx => Hx)) as Hd.
      destruct (cfg_levels !! _); destruct s; exact Hd.
    + destruct (parentElement (puzzleArea s) id) as [p|] eqn:Hp;
        [|apply parentElement_None in Hp; contradiction].
      destruct (parentElement_Some _ _ _ Hp) as [Hpin _].
      rewrite (handleStickClick_place s sel id st p) by done.
      assert (Hsub : forall x, x ∈ area_sticks (area_append p sel (puzzleArea s)) ->
                       x ∈ area_sticks (puzzleArea s))
        by (intros x; by rewrite area_sticks_append_elem).
      pose proof (sel_ok_deselect s sel _ Hok Hs Hsub) as Hd.
      destruct (cfg_levels !! _); destruct s; exact Hd.
  - destruct (cfg_levels !! currentLevel s) as [lv|] eqn:Hlv;
      [|by rewrite handleStickClick_no_level].
    destruct (decide (movesMadeThisLevel s < movesAllowed lv)).
    + rewrite (handleStickClick_select s id lv) by done.
      intros x Hx. destruct s; cbn in *. destruct (Hok x Hx) as (st & Hst & Hiff).
      cbn in Hst, Hiff. destruct (mark_selected_lookup _ id true x st Hst) as (st' & -> & Hf).
      exists st'. rewrite Hf. case_decide; [naive_solver|].
      rewrite Hiff. naive_solver.
    + rewrite (handleStickClick_refuse s id lv) by (done || lia). by destruct s.
Qed.

Lemma sel_ok_step s ev :
  page_ok s -> sel_ok s -> enabled ev s = true -> sel_ok (dispatch ev s).
Proof.
  intros Hok Hs Hen. destruct ev as [id| | | |]; simpl in Hen.
  - apply click_sel_ok; [done | done | by apply bool_decide_eq_true in Hen].
  - unfold dispatch, handler.
    apply (checkButtonClick_cases s sel_ok); intros; destruct s; exact Hs.
  - unfold dispatch, handler, resetButtonClick. js_simpl. apply render_sel_ok.
  - unfold dispatch, handler, hintButtonClick. js_simpl.
    destruct (cfg_levels !! currentLevel s); js_simpl; [by destruct s | done].
  - unfold dispatch, handler, advanceLevel. js_simpl.
    destruct s as [cl mv sel area heap nid ld mld fb tm]. cbn -[Nat.ltb].
    destruct (Nat.ltb_spec (S cl) (length cfg_levels)); [apply render_sel_ok | exact Hs].
Qed.

Lemma reachable_sel_ok s : reachable s -> sel_ok s.
Proof.
  induction 1 as [|s ev s' Hr IH Hstep].
  - apply render_sel_ok.
  - inversion Hstep; subst. apply sel_ok_step; [by apply reachable_page_ok | done | done].
Qed.
End SelectionProofs.

Section SessionTheorems.
Context `{!GameConfig}.

(** C1. On every page reachable from the loaded page, the moves made in the
    current level never exceed the level's [movesAllowed]. *)
Theorem budget_never_exceeded s lv :
  reachable s -> cfg_levels !! currentLevel s = Some lv ->
  movesMadeThisLevel s <= movesAllowed lv.
Proof.
  intros Hr Hlv. destruct (reachable_page_ok s Hr) as [Hb _].
  unfold budget_ok in Hb. rewrite Hlv in Hb. lia.
Qed.

(** C11. The "Too many moves!" branch of the check (line 172) is dead: no
    reachable page shows that message. *)
Theorem too_many_moves_never_shown s :
  reachable s -> feedbackMessage s <> "Too many moves!".
Proof. intros Hr. apply (reachable_page_ok s Hr). Qed.

(** C7. On a reachable page, a click on a displayed stick neither creates
    nor destroys sticks: the sticks of the area after the click are a
    permutation of those before. *)
Theorem click_conserves_sticks s id :
  reachable s -> enabled (ClickStick id) s = true ->
  area_sticks (puzzleArea (dispatch (ClickStick id) s)) ≡ₚ area_sticks (puzzleArea s).
Proof.
  intros Hr Hen. apply click_area_sticks; [by apply reachable_page_ok|].
  by apply bool_decide_eq_true in Hen.
Qed.

(** C17. A check that succeeds schedules an advance each time it is
    clicked: two clicks on "Check" before the 1.5 s timer fires advance
    the game by two levels, skipping one. *)
Theorem double_check_skips_a_level s lv :
  cfg_levels !! currentLevel s = Some lv -> movesMadeThisLevel s <= movesAllowed lv ->
  target_chars (area_chars (puzzleArea s)) ->
  currentLevel (run [ClickCheck; ClickCheck; TimerFires; TimerFires] s) = currentLevel s + 2.
Proof.
  intros Hlv Hle Ht.
  assert (H1 : dispatch ClickCheck s =
    set_timers (S (pendingTimers s)) (set_feedback "Correct! Well done!" s))
    by (apply (check_success s lv); done).
  assert (H2 : dispatch ClickCheck (set_timers (S (pendingTimers s)) (set_feedback "Correct! Well done!" s)) =
    set_timers (S (S (pendingTimers s))) (set_feedback "Correct! Well done!" s))
    by (destruct s; cbn in *; unfold dispatch, handler;
        rewrite (check_success _ lv) by (cbn; done); done).
  cbn [run enabled]. rewrite H1, H2.
  set (s2 := set_timers (S (S (pendingTimers s))) (set_feedback "Correct! Well done!" s)).
  destruct (timer_advances s2) as [Hl3 Ht3].
  assert (Hp2 : pendingTimers s2 = S (S (pendingTimers s))) by (by destruct s).
  assert (Hc2 : currentLevel s2 = currentLevel s) by (by destruct s).
  rewrite Hp2 in Ht3. cbn -[dispatch]. rewrite Hp2. cbn -[dispatch]. rewrite Ht3. cbn -[dispatch].
  destruct (timer_advances (dispatch TimerFires s2)) as [Hl4 _]. rewrite Hl4, Hl3, Hc2. lia.
Qed.

(** C19. A reset rebuilds the current level as a fresh load of it would:
    whatever sticks were moved and whatever was selected, the area has the
    containers of a render of the level on the initial page (same kinds,
    characters and numbers of sticks), every stick of it is a newly created
    element, and the move counter and the selection are reset. *)
Theorem reset_restores_fresh_level s lv :
  cfg_levels !! currentLevel s = Some lv ->
  let s' := dispatch ClickReset s in
  area_shape (puzzleArea s') =
    area_shape (puzzleArea (final_state (renderPuzzle (currentLevel s) initial_page))) /\
  (forall x, x ∈ area_sticks (puzzleArea s') -> nextElementId s <= x) /\
  movesMadeThisLevel s' = 0 /\ selectedStick s' = None.
Proof.
  intros Hlv. unfold dispatch, handler, resetButtonClick. js_simpl.
  rewrite !(renderPuzzle_level _ lv) by done. unfold rendered_page.
  destruct (puzzle_match (puzzle lv)) as [m|]; destruct s; cbn -[layout layout_heap layout_size].
  - split_and!; [apply layout_shape | | done | done].
    intros x Hx. by destruct (layout_bounds nextElementId (groups m) x (or_intror Hx)).
  - split_and!; [done | set_solver | done | done].
Qed.

(** C20. On every reachable page of a level of the catalog, the moves-left
    display reads back, with [parseInt], as the number of moves still
    allowed: [movesAllowed] minus the moves made, never negative. *)
Theorem moves_left_display_reads_back s lv :
  reachable s -> cfg_levels !! currentLevel s = Some lv ->
  parseInt (movesLeftDisplay s) = Some (Z.of_nat (movesAllowed lv - movesMadeThisLevel s)).
Proof.
  intros Hr Hlv. rewrite (reachable_display_ok s Hr lv Hlv), parseInt_number_to_string.
  destruct (reachable_page_ok s Hr) as [Hb _]. unfold budget_ok in Hb. rewrite Hlv in Hb.
  f_equal. lia.
Qed.

(** C24. On every reachable page a displayed stick carries the [selected]
    class exactly when it is the selected stick: the highlight the player
    sees and the [selectedStick] variable agree. *)
Theorem highlight_matches_selection s x :
  reachable s -> x ∈ area_sticks (puzzleArea s) ->
  exists st, stickHeap s !! x = Some st /\
    (classList_contains (stick_classList st) "selected" = true <-> selectedStick s = Some x).
Proof.
  intros Hr Hx. destruct (reachable_sel_ok s Hr x Hx) as (st & ? & ?).
  exists st. by rewrite classList_selected.
Qed.

(** C26. Once the catalog is exhausted ("You completed all levels!" was
    shown), a click on a stick with nothing selected, on "Check" or on
    "Hint" only throws a [TypeError]: the page is left as it was. *)
Theorem past_catalog_clicks_throw s id :
  length cfg_levels <= currentLevel s -> selectedStick s = None ->
  dispatch (ClickStick id) s = s /\ threw (handler (ClickStick id) s) = true /\
  dispatch ClickCheck s = s /\ threw (handler ClickCheck s) = true /\
  dispatch ClickHint s = s /\ threw (handler ClickHint s) = true.
Proof.
  intros Hge Hsel. assert (Hlv : cfg_levels !! currentLevel s = None)
    by (apply lookup_ge_None_2; lia).
  unfold dispatch, handler. rewrite handleStickClick_no_level by done.
  unfold checkButtonClick, hintButtonClick. js_simpl. by rewrite Hlv.
Qed.

(** C27. On every reachable page of a level of the catalog, the level
    display reads back, with [parseInt], as the 1-based number of the
    current level. *)
Theorem level_display_reads_back s :
  reachable s -> is_Some (cfg_levels !! currentLevel s) ->
  parseInt (currentLevelDisplay s) = Some (Z.of_nat (currentLevel s) + 1)%Z.
Proof.
  intros Hr Hlv. by rewrite (reachable_level_display_ok s Hr Hlv), parseInt_number_to_string.
Qed.

(** C32. Every reachable page is well formed: container identities are
    distinct, every stick is in exactly one container and is an element of
    the page, and the selected stick is an element that is displayed
    (unless a failed render emptied the area). *)
Theorem page_well_formed s :
  reachable s ->
  area_wf (puzzleArea s) /\
  (forall x, x ∈ area_sticks (puzzleArea s) -> is_Some (stickHeap s !! x)) /\
  (forall sel, selectedStick s = Some sel ->
     is_Some (stickHeap s !! sel) /\ (sel ∈ area_sticks (puzzleArea s) \/ puzzleArea s = [])).
Proof. intros Hr. by destruct (reachable_page_ok s Hr) as [_ (? & ? & ? & _)]. Qed.

(** C33. The level changes only through the callbacks: whatever the player
    does between a successful check and the firing of its timer (moving
    sticks, resetting, asking for a hint, checking again), the level stays
    the same and no scheduled advance is cancelled. *)
Theorem player_cannot_cancel_advance s evs :
  TimerFires ∉ evs ->
  currentLevel (run evs s) = currentLevel s /\ pendingTimers s <= pendingTimers (run evs s).
Proof.
  revert s. induction evs as [|ev evs IH]; intros s Hin; [simpl; lia|].
  apply not_elem_of_cons in Hin as [Hev Hin]. cbn [run].
  destruct (IH (if enabled ev s then dispatch ev s else s) Hin) as [Hl Ht].
  destruct (enabled ev s); [|lia].
  destruct (player_event_frame s ev (not_eq_sym Hev)). lia.
Qed.

(** C22. Moves are charged per container crossed, with no memory of where
    a stick came from: on any page with two moves left, taking a stick [x]
    out of its container [p] onto a stick of another container and bringing
    it back onto another stick of [p] costs two moves, although [x] ends in
    the container it started in and no character changed. *)
Theorem round_trip_costs_two s lv x y z p q :
  cfg_levels !! currentLevel s = Some lv -> selectedStick s = None ->
  movesMadeThisLevel s + 2 <= movesAllowed lv ->
  parentElement (puzzleArea s) x = Some p -> parentElement (puzzleArea s) y = Some q -> p ≠ q ->
  parentElement (puzzleArea s) z = Some p -> z ≠ x ->
  is_Some (stickHeap s !! y) -> is_Some (stickHeap s !! z) ->
  let s' := run [ClickStick x; ClickStick y; ClickStick x; ClickStick z] s in
  parentElement (puzzleArea s') x = Some p /\ area_chars (puzzleArea s') = area_chars (puzzleArea s) /\
  movesMadeThisLevel s' = movesMadeThisLevel s + 2 /\ selectedStick s' = None.
Proof.
  intros Hlv Hsel Hb Hx Hy Hpq Hz Hzx Hhy Hhz.
  assert (y ≠ x) as Hyx by (intros ->; congruence).
  destruct (relocate_stick s lv x y q) as (Hx1 & Hoth1 & Hc1 & Hm1 & Hs1 & Hl1 & Hh1); try done; [lia|].
  unfold moves_after_place in Hm1. rewrite decide_False in Hm1 by congruence.
  set (s2 := final_state (handleStickClick y (final_state (handleStickClick x s)))) in *.
  assert (Hlv2 : cfg_levels !! currentLevel s2 = Some lv) by (by rewrite Hl1).
  destruct (relocate_stick s2 lv x z p) as (Hx2 & _ & Hc2 & Hm2 & Hs2 & _); try done;
    [lia | by rewrite Hoth1 | by apply Hh1|].
  unfold moves_after_place in Hm2. rewrite decide_False in Hm2 by congruence.
  cbn zeta. rewrite (run_relocate s lv x y q) by (done || lia || apply (proj2 (parentElement_Some _ _ _ Hx))).
  fold s2. rewrite (run_relocate s2 lv x z p) by (rewrite ?Hoth1; done || lia || apply (proj2 (parentElement_Some _ _ _ Hx1))).
  cbn [run]. split_and!; [done | by rewrite Hc2 | lia | done].
Qed.
End SessionTheorems.

(** ** Examples with the repository's catalog: the loaded page after the
    stick of the first '1' (element 1) was moved onto the second (element 4). *)

Lemma budget_never_exceeded_witness :
  movesMadeThisLevel (run [ClickStick 1; ClickStick 4] loaded_page) <=
  movesAllowed (mkLevel "1-1=9" 2
     (fun num1 op num2 res => (num1 =? 1)%Z && String.eqb op "+" && (num2 =? 1)%Z && (res =? 2)%Z)
     "1+1=2").
Proof.
  apply budget_never_exceeded; [apply reachable_run, reachable_loaded | vm_compute; reflexivity].
Defined.

Lemma too_many_moves_never_shown_witness :
  feedbackMessage (run [ClickStick 1; ClickStick 4; ClickCheck] loaded_page) <> "Too many moves!".
Proof. apply too_many_moves_never_shown, reachable_run, reachable_loaded. Defined.

Lemma click_conserves_sticks_witness :
  area_sticks (puzzleArea (dispatch (ClickStick 4) (run [ClickStick 1] loaded_page))) ≡ₚ
  area_sticks (puzzleArea (run [ClickStick 1] loaded_page)).
Proof.
  apply click_conserves_sticks; [apply reachable_run, reachable_loaded | vm_compute; reflexivity].
Defined.

Lemma double_check_skips_a_level_witness :
  currentLevel (run [ClickCheck; ClickCheck; TimerFires; TimerFires]
                  (demo_page (demo_area ["1"; "+"; "1"; "="; "2"]) None 0)) =
  currentLevel (demo_page (demo_area ["1"; "+"; "1"; "="; "2"]) None 0) + 2.
Proof.
  eapply double_check_skips_a_level; [reflexivity | simpl; lia |].
  apply target_chars_cons. split_and!; reflexivity.
Defined.

Lemma reset_restores_fresh_level_witness :
  let s' := dispatch ClickReset (run [ClickStick 1; ClickStick 4] loaded_page) in
  area_shape (puzzleArea s') =
    area_shape (puzzleArea (final_state
      (renderPuzzle (currentLevel (run [ClickStick 1; ClickStick 4] loaded_page)) initial_page))) /\
  (forall x, x ∈ area_sticks (puzzleArea s') ->
     nextElementId (run [ClickStick 1; ClickStick 4] loaded_page) <= x) /\
  movesMadeThisLevel s' = 0 /\ selectedStick s' = None.
Proof. eapply reset_restores_fresh_level. vm_compute. reflexivity. Defined.

Lemma moves_left_display_reads_back_witness :
  parseInt (movesLeftDisplay (run [ClickStick 1; ClickStick 4] loaded_page)) =
  Some (Z.of_nat (movesAllowed (mkLevel "1-1=9" 2
     (fun num1 op num2 res => (num1 =? 1)%Z && String.eqb op "+" && (num2 =? 1)%Z && (res =? 2)%Z)
     "1+1=2") - movesMadeThisLevel (run [ClickStick 1; ClickStick 4] loaded_page))).
Proof.
  apply moves_left_display_reads_back; [apply reachable_run, reachable_loaded | vm_compute; reflexivity].
Defined.

Lemma level_display_reads_back_witness :
  parseInt (currentLevelDisplay (run [ClickStick 1; ClickStick 4; ClickReset] loaded_page)) =
  Some (Z.of_nat (currentLevel (run [ClickStick 1; ClickStick 4; ClickReset] loaded_page)) + 1)%Z.
Proof.
  apply level_display_reads_back; [apply reachable_run, reachable_loaded | vm_compute; by eexists].
Defined.

Lemma page_well_formed_witness :
  let s := run [ClickStick 1; ClickStick 4; ClickStick 4] loaded_page in
  area_wf (puzzleArea s) /\
  (forall x, x ∈ area_sticks (puzzleArea s) -> is_Some (stickHeap s !! x)) /\
  (forall sel, selectedStick s = Some sel ->
     is_Some (stickHeap s !! sel) /\ (sel ∈ area_sticks (puzzleArea s) \/ puzzleArea s = [])).
Proof. apply page_well_formed, reachable_run, reachable_loaded. Defined.

Lemma player_cannot_cancel_advance_witness :
  let s := run [ClickCheck] (demo_page (demo_area ["1"; "+"; "1"; "="; "2"]) None 0) in
  currentLevel (run [ClickReset; ClickHint; ClickCheck] s) = currentLevel s /\
  pendingTimers s <= pendingTimers (run [ClickReset; ClickHint; ClickCheck] s).
Proof. apply player_cannot_cancel_advance. vm_compute. set_solver. Defined.

Lemma highlight_matches_selection_witness :
  exists st, stickHeap (run [ClickStick 1] loaded_page) !! 1 = Some st /\
    (classList_contains (stick_classList st) "selected" = true <->
     selectedStick (run [ClickStick 1] loaded_page) = Some 1).
Proof.
  apply highlight_matches_selection; [apply reachable_run, reachable_loaded | vm_compute; set_solver].
Defined.

Section SourceFacts.
Local Arguments layout : simpl never.
Local Arguments layout_heap : simpl never.
Local Arguments layout_size : simpl never.

Lemma level1_lookup : @cfg_levels source_config !! 0 = Some (mkLevel "1-1=9" 2
   (fun num1 op num2 res => (num1 =? 1)%Z && String.eqb op "+" && (num2 =? 1)%Z && (res =? 2)%Z)
   "1+1=2").
Proof. reflexivity. Qed.

Lemma level1_match : puzzle_match "1-1=9" = Some (mkMatch "1" "-" "1" "=" "9").
Proof. reflexivity. Qed.

Lemma level1_not_target : ~ target_chars level1_chars.
Proof. unfold level1_chars. rewrite target_chars_cons. by intros (_ & ? & _). Qed.

(** A reset on level 1 renders "1-1=9" again. *)
Lemma reset_src_ok s : src_ok s -> src_ok (dispatch ClickReset s).
Proof.
  intros (Hl & Ht & _ & _). unfold dispatch, handler, resetButtonClick. js_simpl.
  pose proof (render_keeps_level_timers (currentLevel s) s) as [Hl' Ht'].
  rewrite Hl in *. rewrite (renderPuzzle_level 0 _ s level1_lookup) in *.
  unfold rendered_page in *. cbn [puzzle] in *. rewrite level1_match in *.
  split_and!; [lia | lia | | by destruct s].
  destruct s; cbn. apply layout_chars.
Qed.

(** On a good page of level 1 the check always says "Not quite right". *)
Lemma check_src s :
  page_ok s -> src_ok s ->
  final_state (checkButtonClick s) = set_feedback "Not quite right. Try again!" s.
Proof.
  intros [Hb _] (Hl & _ & Hc & _).
  assert (Hlen : length (puzzleArea s) = 5)
    by (pose proof (f_equal length Hc) as E; unfold area_chars in E; by rewrite length_map in E).
  apply (checkButtonClick_cases s (fun s' => s' = set_feedback "Not quite right. Try again!" s));
    rewrite Hl.
  - done.
  - intros; lia.
  - intros lv [= <-] ?. unfold budget_ok in Hb. rewrite Hl in Hb. destruct Hb as [Hb _]. cbn in *. lia.
  - intros lv _ _ Htarget. rewrite Hc in Htarget. by destruct level1_not_target.
  - done.
Qed.

Lemma step_src_ok s ev :
  page_ok s -> src_ok s -> enabled ev s = true -> src_ok (dispatch ev s).
Proof.
  intros Hok Hs Hen. destruct ev as [id| | | |].
  - destruct (click_frame s id) as (Hc & Hl & Ht & _ & Hf). destruct Hs as (? & ? & ? & ?).
    unfold dispatch, handler. split_and!; [congruence | congruence | congruence |].
    destruct Hf as [-> | ->]; [done | discriminate].
  - unfold dispatch, handler. rewrite check_src by done.
    destruct s, Hs as (? & ? & ? & ?); cbn in *. split_and!; [done | done | done | discriminate].
  - by apply reset_src_ok.
  - destruct Hs as (Hl & ? & ? & ?). unfold dispatch, handler, hintButtonClick. js_simpl.
    rewrite Hl. cbn. destruct s; cbn in *. split_and!; [done | done | done | discriminate].
  - destruct Hs as (_ & Ht & _). cbn in Hen. rewrite Ht in Hen. discriminate.
Qed.

Lemma reachable_src_ok s : reachable s -> src_ok s.
Proof.
  induction 1 as [|s ev s' Hr IH Hstep].
  - split_and!; [reflexivity | reflexivity | reflexivity | discriminate].
  - inversion Hstep; subst. apply step_src_ok; [by apply reachable_page_ok | done | done].
Qed.
End SourceFacts.

Section SourceTheorems.
(** C2. The shipped game can never be solved: on every page reachable from
    the loaded page, the game is at level 1, its containers still hold the
    characters of "1-1=9" whatever sticks were moved, and "Correct! Well
    done!" has never been shown. *)
Theorem source_never_solved s :
  reachable s ->
  currentLevel s = 0 /\ area_chars (puzzleArea s) = ["1"; "-"; "1"; "="; "9"] /\
  feedbackMessage s <> "Correct! Well done!".
Proof. intros Hr. by destruct (reachable_src_ok s Hr) as (? & _ & ? & ?). Qed.

(** C3. In the shipped game, a click on "Check" on any reachable page only
    shows "Not quite right. Try again!" and changes nothing else. *)
Theorem source_check_always_rejects s :
  reachable s -> dispatch ClickCheck s = set_feedback "Not quite right. Try again!" s.
Proof. intros Hr. apply check_src; [by apply reachable_page_ok | by apply reachable_src_ok]. Qed.

Lemma round_trip_costs_two_witness :
  let s0 := demo_page [mkContainer 0 DigitContainer "1" [1; 2]; mkContainer 3 DigitContainer "7" [4]]
              None 0 in
  let s' := run [ClickStick 1; ClickStick 4; ClickStick 1; ClickStick 2] s0 in
  parentElement (puzzleArea s') 1 = Some 0 /\ area_chars (puzzleArea s') = area_chars (puzzleArea s0) /\
  movesMadeThisLevel s' = movesMadeThisLevel s0 + 2 /\ selectedStick s' = None.
Proof.
  apply (round_trip_costs_two _ (mkLevel "1-1=9" 2
     (fun num1 op num2 res => (num1 =? 1)%Z && String.eqb op "+" && (num2 =? 1)%Z && (res =? 2)%Z)
     "1+1=2") 1 4 2 0 3); vm_compute; (reflexivity || lia || by eexists || discriminate).
Defined.

Lemma source_never_solved_witness :
  currentLevel (run [ClickStick 1; ClickStick 4; ClickCheck] loaded_page) = 0 /\
  area_chars (puzzleArea (run [ClickStick 1; ClickStick 4; ClickCheck] loaded_page)) =
    ["1"; "-"; "1"; "="; "9"] /\
  feedbackMessage (run [ClickStick 1; ClickStick 4; ClickCheck] loaded_page) <>
    "Correct! Well done!".
Proof. apply source_never_solved, reachable_run, reachable_loaded. Defined.

Lemma source_check_always_rejects_witness :
  dispatch ClickCheck (run [ClickStick 1; ClickStick 4] loaded_page) =
  set_feedback "Not quite right. Try again!" (run [ClickStick 1; ClickStick 4] loaded_page).
Proof. apply source_check_always_rejects, reachable_run, reachable_loaded. Defined.
End SourceTheorems.

Section OneLevel.
#[local] Existing Instance one_level_config | 0.

(** With the one-level catalog, a successful check and its timer complete
    the game. *)
Lemma past_catalog_clicks_throw_witness :
  let s := run [ClickCheck; TimerFires] loaded_page in
  dispatch (ClickStick 1) s = s /\ threw (handler (ClickStick 1) s) = true /\
  dispatch ClickCheck s = s /\ threw (handler ClickCheck s) = true /\
  dispatch ClickHint s = s /\ threw (handler ClickHint s) = true.
Proof. apply past_catalog_clicks_throw; vm_compute; [lia | reflexivity]. Defined.
End OneLevel.
