(* ===== verification/Liveness.v ===== *)
(** * Termination and progress of the event loop

    The only events the page produces by itself are the [setTimeout]
    callbacks of line 205; every other event is a click of the player.
    [timer_step] is the firing of one pending callback and [any_step] one
    event of either kind.  The callbacks never schedule another one, so the
    timer steps terminate ([sn], stdpp's strong normalisation); each of them
    advances the level, so every scheduled advance happens; and a level
    whose containers spell 1 + 1 = 2 is left after two events. *)

From stdpp Require Import relations well_founded.
From S2P Require Import Prelude JsRuntime Templates Levels Puzzle Dom Render Click Check Session.

Section Steps.
Context `{!GameConfig}.

(** One pending [setTimeout] callback fires. *)
Definition timer_step (s s' : State) : Prop := step s TimerFires s'.

(** One event of the page, a click or a timer. *)
Definition any_step (s s' : State) : Prop := exists ev, step s ev s'.
End Steps.

Section LivenessFacts.
Context `{!GameConfig}.

Lemma timer_step_pending s s' :
  timer_step s s' -> pendingTimers s' < pendingTimers s /\ currentLevel s' = S (currentLevel s).
Proof.
  inversion 1 as [? ? Hen]; subst. cbn -[Nat.ltb] in Hen. apply Nat.ltb_lt in Hen.
  destruct (timer_advances s) as [Hl Ht]. lia.
Qed.

(** With [n] callbacks pending, [n] timer steps fire them all. *)
Lemma timers_fire n s :
  pendingTimers s = n ->
  exists s', nsteps timer_step n s s' /\ pendingTimers s' = 0 /\
             currentLevel s' = currentLevel s + n.
Proof.
  revert s. induction n as [|n IH]; intros s Hn.
  - exists s. split_and!; [constructor | done | lia].
  - assert (Hstep : timer_step s (dispatch TimerFires s))
      by (constructor; cbn -[Nat.ltb]; apply Nat.ltb_lt; lia).
    destruct (timer_advances s) as [Hl Ht].
    destruct (IH (dispatch TimerFires s)) as (s' & Hs' & H0 & Hl'); [lia|].
    exists s'. split_and!; [by econstructor | done | lia].
Qed.

Lemma timer_nf s : pendingTimers s = 0 -> nf timer_step s.
Proof. intros H0 [s' Hs]. apply timer_step_pending in Hs. lia. Qed.
End LivenessFacts.

Section LivenessTheorems.
Context `{!GameConfig}.

(** C28. The callbacks terminate: from any page, every sequence of timer
    firings without a click is finite, as a callback never schedules
    another one. *)
Theorem timers_terminate s : sn timer_step s.
Proof.
  revert s. apply (wf_projected (<) pendingTimers); [|exact lt_wf].
  intros s' s Hs. unfold flip in Hs. by apply timer_step_pending in Hs as [? _].
Qed.

(** C29. Every scheduled advance happens: from any page with [n] pending
    callbacks, [n] timer steps lead to a page with none pending, where no
    timer can fire, and the level has advanced by [n]. *)
Theorem pending_advances_all_happen s :
  exists s', nsteps timer_step (pendingTimers s) s s' /\ nf timer_step s' /\
             currentLevel s' = currentLevel s + pendingTimers s.
Proof.
  destruct (timers_fire (pendingTimers s) s eq_refl) as (s' & Hs & H0 & Hl).
  exists s'. split_and!; [done | by apply timer_nf | done].
Qed.

(** C30. A solved level is left: on a reachable page of a level of the
    catalog whose containers spell 1 + 1 = 2, a click on "Check" followed by
    the firing of its timer reaches the next level. *)
Theorem solved_level_is_left s lv :
  reachable s -> cfg_levels !! currentLevel s = Some lv ->
  target_chars (area_chars (puzzleArea s)) ->
  exists s', rtc any_step s s' /\ currentLevel s' = S (currentLevel s).
Proof.
  intros Hr Hlv Ht. destruct (reachable_page_ok s Hr) as [Hb _].
  unfold budget_ok in Hb. rewrite Hlv in Hb. destruct Hb as [Hle _].
  set (s1 := dispatch ClickCheck s).
  assert (Hs1 : s1 = set_timers (S (pendingTimers s)) (set_feedback "Correct! Well done!" s))
    by (apply (check_success s lv); done).
  exists (dispatch TimerFires s1). split.
  - apply (rtc_l _ _ s1); [exists ClickCheck; by constructor|].
    apply rtc_once. exists TimerFires. constructor.
    rewrite Hs1. destruct s. reflexivity.
  - rewrite (proj1 (timer_advances s1)), Hs1. by destruct s.
Qed.
End LivenessTheorems.

Section OneLevel.
#[local] Existing Instance one_level_config | 0.

(** With the one-level catalog the loaded page is already solved. *)
Lemma solved_level_is_left_witness :
  exists s', rtc any_step loaded_page s' /\ currentLevel s' = S (currentLevel loaded_page).
Proof.
  eapply solved_level_is_left; [apply reachable_loaded | reflexivity |].
  apply target_chars_cons. split_and!; reflexivity.
Defined.
End OneLevel.
