(* ===== verification/PageShape.v ===== *)
(** * The page always shows the puzzle of the current level

    Rendering, moving sticks, checking and the timer callbacks interact
    through the puzzle area: [renderPuzzle] builds it from the level's
    puzzle string, the clicks move sticks between its containers, the
    callbacks render the next level.  [level_chars] and [level_stick_count]
    are what a render of a level shows; the invariant [shape_ok] says the
    area of every reachable page of a level of the catalog has exactly
    those characters and that many sticks. *)

From S2P Require Import Prelude JsRuntime Templates Levels Puzzle Dom Render Click Check Session.

Section Shape.
Context `{!GameConfig}.

(** The characters of the containers a render of [lv] builds: the capture
    groups, or none when the regular expression fails (line 77). *)
Definition level_chars (lv : Level) : list string :=
  match puzzle_match (puzzle lv) with Some m => groups m | None => [] end.

(** The number of sticks a render of [lv] builds. *)
Definition level_stick_count (lv : Level) : nat :=
  sum_list (map (fun c => length (template_of c)) (level_chars lv)).

Definition shape_ok (s : State) : Prop :=
  forall lv, cfg_levels !! currentLevel s = Some lv ->
  area_chars (puzzleArea s) = level_chars lv /\
  length (area_sticks (puzzleArea s)) = level_stick_count lv.
End Shape.

Section ShapeProofs.
Context `{!GameConfig}.

Lemma layout_sticks_length n cs :
  length (area_sticks (layout n cs)) = sum_list (map (fun c => length (template_of c)) cs).
Proof.
  revert n. induction cs as [|c cs IH]; intros n; [done|].
  unfold area_sticks in *. cbn. rewrite length_app, length_seq, IH. done.
Qed.

Local Arguments layout : simpl never.
Local Arguments layout_heap : simpl never.
Local Arguments area_sticks : simpl never.

Lemma render_shape_ok s : shape_ok (final_state (renderPuzzle (currentLevel s) s)).
Proof.
  intros lv Hl. destruct (cfg_levels !! currentLevel s) as [lv'|] eqn:Hlv.
  - rewrite (renderPuzzle_level _ lv') in * by done.
    assert (currentLevel (rendered_page (currentLevel s) lv' s) = currentLevel s) as E
      by (unfold rendered_page; destruct (puzzle_match _); by destruct s).
    cbn in Hl. rewrite E, Hlv in Hl. injection Hl as <-.
    unfold rendered_page, level_stick_count, level_chars.
    destruct (puzzle_match (puzzle lv')) as [m|]; destruct s; cbn; [|done].
    by rewrite layout_chars, layout_sticks_length.
  - rewrite renderPuzzle_no_level in Hl by done. destruct s; cbn in *. congruence.
Qed.

Lemma shape_ok_step s ev :
  page_ok s -> shape_ok s -> enabled ev s = true -> shape_ok (dispatch ev s).
Proof.
  intros Hok Hs Hen. destruct ev as [id| | | |]; simpl in Hen.
  - apply bool_decide_eq_true in Hen.
    destruct (click_frame s id) as (Hc & Hl & _).
    pose proof (click_area_sticks s id Hok Hen) as Hp.
    unfold dispatch, handler, shape_ok. rewrite Hl, Hc, (Permutation_length Hp). exact Hs.
  - unfold dispatch, handler.
    apply (checkButtonClick_cases s shape_ok); intros; destruct s; exact Hs.
  - unfold dispatch, handler, resetButtonClick. js_simpl. apply render_shape_ok.
  - unfold dispatch, handler, hintButtonClick. js_simpl.
    destruct (cfg_levels !! currentLevel s); js_simpl; [by destruct s | done].
  - unfold dispatch, handler, advanceLevel. js_simpl.
    destruct s as [cl mv sel area heap nid ld mld fb tm]. cbn -[Nat.ltb].
    destruct (Nat.ltb_spec (S cl) (length cfg_levels)).
    + apply (render_shape_ok (mkState (S cl) mv sel area heap nid ld mld fb (pred tm))).
    + intros lv' Hl. cbn in Hl. rewrite lookup_ge_None_2 in Hl by lia. discriminate.
Qed.

Lemma reachable_shape_ok s : reachable s -> shape_ok s.
Proof.
  induction 1 as [|s ev s' Hr IH Hstep].
  - apply (render_shape_ok initial_page).
  - inversion Hstep; subst. apply shape_ok_step; [by apply reachable_page_ok | done | done].
Qed.
End ShapeProofs.

Section ShapeTheorems.
Context `{!GameConfig}.

(** C31. On every reachable page of a level of the catalog, the puzzle
    area shows that level's puzzle: its containers hold the capture groups
    of the level's puzzle string (none when it does not match), and it
    holds as many sticks as their templates give, whatever was clicked
    and however many levels were passed. *)
Theorem page_shows_current_level s lv :
  reachable s -> cfg_levels !! currentLevel s = Some lv ->
  area_chars (puzzleArea s) = level_chars lv /\
  length (area_sticks (puzzleArea s)) = level_stick_count lv.
Proof. intros Hr Hlv. exact (reachable_shape_ok s Hr lv Hlv). Qed.
End ShapeTheorems.

Lemma page_shows_current_level_witness :
  area_chars (puzzleArea (run [ClickStick 1; ClickStick 4; ClickHint] loaded_page)) =
    level_chars (mkLevel "1-1=9" 2
      (fun num1 op num2 res => (num1 =? 1)%Z && String.eqb op "+" && (num2 =? 1)%Z && (res =? 2)%Z)
      "1+1=2") /\
  length (area_sticks (puzzleArea (run [ClickStick 1; ClickStick 4; ClickHint] loaded_page))) =
    level_stick_count (mkLevel "1-1=9" 2
      (fun num1 op num2 res => (num1 =? 1)%Z && String.eqb op "+" && (num2 =? 1)%Z && (res =? 2)%Z)
      "1+1=2").
Proof.
  apply page_shows_current_level; [apply reachable_run, reachable_loaded | vm_compute; reflexivity].
Defined.
