(* ===== verification/SessionSpec.v ===== *)
(** * The specification's Level Session state machine, and the code

    Section 4.5 of the specification describes the orchestrator as a state
    machine [Loading -> Active -> Solved | Failed(reason)], with [reset]
    back to [Active] from any state and [advance] from [Solved] to the next
    level or to [Completed].  The code keeps no such state: this file reads
    it off a page, the way the player sees it ([session_state]): past the
    catalog the game is [Completed]; with an advance pending (the
    [setTimeout] of line 205, scheduled by a successful check) the level is
    [Solved], the specification's "the core's state is already [Solved]
    before the delay begins"; otherwise the feedback text tells [Failed]
    from [Active].

    [sstep] is the machine of section 4.5 with its guards abstracted (which
    of [Solved] and [Failed] a check reaches is left to the code), the code's
    events are mapped to its commands as a refinement map ([event_commands]:
    a stick click is (half of) a [relocate], the timer is [advance] and the
    [load] of the next level, the hint is presentation only), and
    [conforms] is the command surface the specification allows in each
    state.  The refinement theorem: on the runs where the player only uses
    the commands the specification allows and never resets a [Solved] or
    [Completed] session, every step of the code is a sequence of steps of
    the machine.  The two exclusions are divergences, proved below: a reset
    does not cancel a scheduled advance, and past the catalog it throws. *)

From S2P Require Import Prelude JsRuntime Templates Levels Puzzle Dom Render Click Check Session PageShape.
Local Open Scope string_scope.

Inductive FailReason := MovesExhausted | IncorrectOnCheck.
Inductive SessionState := Loading | Active | Solved | Failed (r : FailReason) | Completed.
Inductive Command := CmdLoad | CmdRelocate | CmdCheck | CmdReset | CmdAdvance.

#[export] Instance FailReason_eq_dec : EqDecision FailReason.
Proof. solve_decision. Defined.
#[export] Instance SessionState_eq_dec : EqDecision SessionState.
Proof. solve_decision. Defined.

(** The transitions of section 4.5. *)
Inductive sstep : SessionState -> Command -> SessionState -> Prop :=
| SLoad : sstep Loading CmdLoad Active
| SRelocate : sstep Active CmdRelocate Active
| SCheckSolved : sstep Active CmdCheck Solved
| SCheckFailed : sstep Active CmdCheck (Failed IncorrectOnCheck)
| SReset st : sstep st CmdReset Active
| SAdvanceNext : sstep Solved CmdAdvance Loading
| SAdvanceDone : sstep Solved CmdAdvance Completed.

Inductive ssteps : SessionState -> list Command -> SessionState -> Prop :=
| ssteps_nil st : ssteps st [] st
| ssteps_cons st c st' cs st'' :
    sstep st c st' -> ssteps st' cs st'' -> ssteps st (c :: cs) st''.

#[export] Hint Constructors sstep ssteps : js.

(** The commands an event of the code stands for. *)
Definition event_commands (ev : Event) : list (list Command) :=
  match ev with
  | ClickStick _ => [[CmdRelocate]]
  | ClickCheck => [[CmdCheck]]
  | ClickReset => [[CmdReset]]
  | ClickHint => [[]]
  | TimerFires => [[CmdAdvance; CmdLoad]; [CmdAdvance]]
  end.

(** The player's events the specification allows in each state: relocate
    and check in [Active] only, a reset of a session that is [Active] or
    [Failed], the hint when it does not hide a failure; the timer is the
    code's own. *)
Definition conforms (st : SessionState) (ev : Event) : bool :=
  match ev, st with
  | ClickStick _, Active | ClickCheck, Active => true
  | ClickReset, (Active | Failed _) => true
  | ClickHint, (Active | Solved | Completed) => true
  | TimerFires, _ => true
  | _, _ => false
  end.

Definition feedback_state (fb : string) : SessionState :=
  if String.eqb fb "Not quite right. Try again!" then Failed IncorrectOnCheck
  else if String.eqb fb "Too many moves!" then Failed MovesExhausted
  else Active.

Section Abstraction.
Context `{!GameConfig}.

Definition session_state (s : State) : SessionState :=
  if decide (length cfg_levels <= currentLevel s) then Completed
  else if decide (0 < pendingTimers s) then Solved
  else feedback_state (feedbackMessage s).

(** The runs of the code in which the player keeps to [conforms]. *)
Inductive conforming : State -> Prop :=
| conforming_loaded : conforming loaded_page
| conforming_step s ev s' :
    conforming s -> conforms (session_state s) ev = true -> step s ev s' -> conforming s'.
End Abstraction.

Section AbstractionFacts.
Context `{!GameConfig}.

Lemma session_state_playing s :
  currentLevel s < length cfg_levels -> pendingTimers s = 0 ->
  session_state s = feedback_state (feedbackMessage s).
Proof. intros Hl Hp. unfold session_state. rewrite !decide_False by lia. done. Qed.

Lemma session_state_solved s :
  currentLevel s < length cfg_levels -> 0 < pendingTimers s -> session_state s = Solved.
Proof. intros Hl Hp. unfold session_state. by rewrite decide_False, decide_True by lia. Qed.

(** What the abstract state says of the page. *)
Lemma session_state_inv s st :
  session_state s = st ->
  match st with
  | Completed => length cfg_levels <= currentLevel s
  | Solved => currentLevel s < length cfg_levels /\ 0 < pendingTimers s
  | _ => currentLevel s < length cfg_levels /\ pendingTimers s = 0 /\
         feedback_state (feedbackMessage s) = st
  end.
Proof.
  unfold session_state. intros <-. repeat case_decide; [lia | lia |].
  unfold feedback_state.
  destruct (String.eqb (feedbackMessage s) "Not quite right. Try again!"),
    (String.eqb (feedbackMessage s) "Too many moves!"); cbn; split_and!; done || lia.
Qed.

(** A player event other than "Check" keeps the pending advances. *)
Lemma non_check_keeps_pending ev s :
  ev <> TimerFires -> ev <> ClickCheck -> pendingTimers (dispatch ev s) = pendingTimers s.
Proof.
  intros Ht Hc. destruct ev as [id| | | |]; try done.
  - apply (click_frame s id).
  - unfold dispatch, handler, resetButtonClick. js_simpl. apply render_keeps_level_timers.
  - unfold dispatch, handler, hintButtonClick. js_simpl.
    destruct (cfg_levels !! currentLevel s); js_simpl; [by destruct s | done].
Qed.

(** A render of a level of the catalog clears the feedback. *)
Lemma render_clears_feedback i lv s :
  cfg_levels !! i = Some lv -> feedbackMessage (final_state (renderPuzzle i s)) = "".
Proof.
  intros Hlv. rewrite (renderPuzzle_level _ lv) by done. unfold rendered_page.
  destruct (puzzle_match _); by destruct s.
Qed.

(** The last pending advance: the next level, or the end of the game. *)
Lemma timer_session s :
  pendingTimers s = 1 ->
  session_state (dispatch TimerFires s) =
    if decide (S (currentLevel s) < length cfg_levels) then Active else Completed.
Proof.
  intros Hp. destruct (timer_advances s) as [Hl Ht].
  case_decide as Hlt.
  - rewrite session_state_playing by lia.
    unfold dispatch, handler, advanceLevel in *. js_simpl.
    destruct s as [cl mv sel area heap nid ld mld fb tm]; cbn -[Nat.ltb] in *.
    rewrite (proj2 (Nat.ltb_lt _ _) Hlt).
    destruct (lookup_lt_is_Some_2 cfg_levels (S cl) Hlt) as [lv Hlv].
    by rewrite (render_clears_feedback _ lv).
  - unfold session_state. by rewrite decide_True by lia.
Qed.
End AbstractionFacts.

Section EventFacts.
Context `{!GameConfig}.

Lemma feedback_state_cases fb : feedback_state fb = Active \/ exists r, feedback_state fb = Failed r.
Proof. unfold feedback_state. repeat case_match; eauto. Qed.

(** A stick click in an [Active] session leaves it [Active]: the level and
    the pending advances are kept, and the feedback is kept or is the
    refusal of a selection. *)
Lemma click_session s id :
  session_state s = Active -> session_state (dispatch (ClickStick id) s) = Active.
Proof.
  intros (Hl & Hp & Hf)%session_state_inv.
  destruct (click_frame s id) as (_ & Hl' & Hp' & _ & Hfb).
  unfold dispatch, handler. rewrite session_state_playing by lia.
  by destruct Hfb as [-> | ->].
Qed.

(** The pending advances after "Check": at most one more. *)
Lemma check_pending s : pendingTimers (dispatch ClickCheck s) <= S (pendingTimers s).
Proof.
  unfold dispatch, handler.
  apply (checkButtonClick_cases s (fun s' => pendingTimers s' <= S (pendingTimers s)));
    intros; destruct s; cbn; lia.
Qed.

(** A reset of a session that has a level and no pending advance makes it
    [Active]. *)
Lemma reset_session s :
  currentLevel s < length cfg_levels -> pendingTimers s = 0 ->
  session_state (dispatch ClickReset s) = Active.
Proof.
  intros Hl Hp. destruct (lookup_lt_is_Some_2 cfg_levels _ Hl) as [lv Hlv].
  unfold dispatch, handler, resetButtonClick. js_simpl.
  destruct (render_keeps_level_timers (currentLevel s) s) as [Hl' Hp'].
  rewrite session_state_playing by lia. by rewrite (render_clears_feedback _ lv).
Qed.

(** The hint does not change the state of a session that has not failed. *)
Lemma hint_session s :
  (forall r, session_state s <> Failed r) -> session_state (dispatch ClickHint s) = session_state s.
Proof.
  intros Hnf. unfold dispatch, handler, hintButtonClick. js_simpl.
  destruct (cfg_levels !! currentLevel s) as [lv|] eqn:Hlv; js_simpl; [|done].
  unfold session_state in *. destruct s as [cl mv sel area heap nid ld mld fb tm]; cbn in *.
  repeat case_decide; try done.
  destruct (feedback_state_cases fb) as [-> | [r Hr]]; [reflexivity|].
  by destruct (Hnf r).
Qed.
End EventFacts.

Section Refinement.
Context `{!GameConfig}.

(** Every puzzle string of the catalog matches the regular expression of
    line 76.  The specification's [load] refuses to enter [Active] on a
    [ParseError]; the code instead shows an empty puzzle area on which
    "Check" throws, so the refinement holds for catalogs that parse. *)
Hypothesis catalog_parses : Forall (fun lv => is_Some (puzzle_match (puzzle lv))) cfg_levels.

(** On a reachable page of a level of a parsing catalog the area has the
    five containers "Check" reads. *)
Lemma reachable_five_containers s lv :
  reachable s -> cfg_levels !! currentLevel s = Some lv -> length (puzzleArea s) = 5.
Proof.
  intros Hr Hlv. destruct (reachable_shape_ok s Hr lv Hlv) as [Hc _].
  destruct (Forall_lookup_1 _ _ _ _ catalog_parses Hlv) as [m Hm].
  unfold level_chars in Hc. rewrite Hm in Hc.
  unfold area_chars in Hc. by rewrite <- (length_map c_char), Hc.
Qed.

(** "Check" in an [Active] session reaches [Solved] or
    [Failed(IncorrectOnCheck)]. *)
Lemma check_session s :
  reachable s -> session_state s = Active ->
  session_state (dispatch ClickCheck s) = Solved \/
  session_state (dispatch ClickCheck s) = Failed IncorrectOnCheck.
Proof.
  intros Hr (Hl & Hp & Hf)%session_state_inv.
  destruct (lookup_lt_is_Some_2 cfg_levels _ Hl) as [lv Hlv].
  destruct (reachable_page_ok s Hr) as [Hb _]. unfold budget_ok in Hb. rewrite Hlv in Hb.
  pose proof (reachable_five_containers s lv Hr Hlv) as H5.
  unfold dispatch, handler. apply checkButtonClick_cases; intros; simplify_eq; try lia.
  - left. apply session_state_solved; destruct s; cbn in *; lia.
  - right. rewrite session_state_playing by (destruct s; cbn in *; lia). by destruct s.
Qed.

(** The invariant of the conforming runs: they are runs of the code, at
    most one advance is pending, and only on a level of the catalog. *)
Definition conforming_inv (s : State) : Prop :=
  reachable s /\ pendingTimers s <= 1 /\ (0 < pendingTimers s -> currentLevel s < length cfg_levels).

Lemma conforming_inv_holds s : conforming s -> conforming_inv s.
Proof.
  induction 1 as [|s ev s' _ (Hr & Hp1 & Hpl) Hconf Hstep].
  - assert (pendingTimers loaded_page = 0) as H0
      by apply (render_keeps_level_timers 0 initial_page).
    split_and!; [apply reachable_loaded | lia | lia].
  - inversion Hstep as [? ? Hen]; subst s'. split; [by econstructor|].
    destruct (decide (ev = TimerFires)) as [->|Ht].
    + destruct (timer_advances s) as [_ ->]. lia.
    + destruct (player_event_frame s ev Ht) as [-> _].
      destruct (decide (ev = ClickCheck)) as [->|Hc].
      * destruct (session_state s) eqn:Hst; try done.
        apply session_state_inv in Hst as (? & ? & _). pose proof (check_pending s). lia.
      * rewrite non_check_keeps_pending by done. done.
Qed.
End Refinement.

Section RefinementTheorems.
Context `{!GameConfig}.
Hypothesis catalog_parses : Forall (fun lv => is_Some (puzzle_match (puzzle lv))) cfg_levels.

(** C37. The code refines the specification's Level Session machine: on a
    run in which the player only relocates and checks in an [Active]
    session, resets only an [Active] or [Failed] one and asks for a hint
    only when no failure is shown, every event of the code (the player's
    and the timer's) moves the session along the machine's transitions for
    the commands it stands for: a stick click is a [relocate] within
    [Active], "Check" goes to [Solved] or [Failed(IncorrectOnCheck)] (never
    to [Failed(MovesExhausted)]), a reset to [Active], the hint changes
    nothing, and the timer is the [advance] to the next level (then its
    [load]) or to [Completed].  The catalog's puzzles are assumed to parse. *)
Theorem code_refines_session s ev s' :
  conforming s -> conforms (session_state s) ev = true -> step s ev s' ->
  exists cmds, cmds ∈ event_commands ev /\ ssteps (session_state s) cmds (session_state s').
Proof.
  intros Hc Hconf Hstep. destruct (conforming_inv_holds s Hc) as (Hr & Hp1 & Hpl).
  inversion Hstep as [? ? Hen]; subst s'.
  destruct ev as [id| | | |]; cbn in Hconf.
  - destruct (session_state s) eqn:Hst; try done.
    exists [CmdRelocate]. rewrite click_session by done. split; [set_solver | eauto with js].
  - destruct (session_state s) eqn:Hst; try done.
    exists [CmdCheck]. split; [set_solver|].
    destruct (check_session catalog_parses s Hr Hst) as [-> | ->]; eauto with js.
  - exists [CmdReset]. split; [set_solver|].
    assert (currentLevel s < length cfg_levels /\ pendingTimers s = 0) as [Hl Hp].
    { destruct (session_state s) eqn:Hst; try done; apply session_state_inv in Hst; naive_solver. }
    rewrite reset_session by done. eauto with js.
  - exists []. split; [set_solver|]. rewrite hint_session; [constructor|].
    intros r Hr'. by rewrite Hr' in Hconf.
  - cbn -[Nat.ltb] in Hen. apply Nat.ltb_lt in Hen.
    assert (pendingTimers s = 1) as Hp by lia.
    rewrite session_state_solved, timer_session by auto.
    case_decide; [exists [CmdAdvance; CmdLoad] | exists [CmdAdvance]];
      (split; [set_solver | eauto with js]).
Qed.
End RefinementTheorems.

Section Divergence.
Context `{!GameConfig}.

(** C38. A reset does not cancel a scheduled advance: on a [Solved] page
    (an advance pending), a click on "Reset" leaves the session [Solved],
    where the specification's [reset] leads to [Active], and the pending
    timer still fires and moves the game to the next level. *)
Theorem reset_keeps_scheduled_advance s :
  session_state s = Solved ->
  session_state (dispatch ClickReset s) = Solved /\ ~ ssteps Solved [CmdReset] Solved /\
  step (dispatch ClickReset s) TimerFires (dispatch TimerFires (dispatch ClickReset s)) /\
  currentLevel (dispatch TimerFires (dispatch ClickReset s)) = S (currentLevel s).
Proof.
  intros (Hl & Hp)%session_state_inv.
  assert (currentLevel (dispatch ClickReset s) = currentLevel s /\
          pendingTimers (dispatch ClickReset s) = pendingTimers s) as [Hl' Hp']
    by (unfold dispatch, handler, resetButtonClick; js_simpl; apply render_keeps_level_timers).
  split_and!.
  - apply session_state_solved; lia.
  - by inversion 1 as [|? ? ? ? ? Hs Hs']; inversion Hs; subst; inversion Hs'.
  - constructor. cbn -[Nat.ltb]. apply Nat.ltb_lt. lia.
  - rewrite (proj1 (timer_advances _)). lia.
Qed.
End Divergence.

(** The catalog of the repository parses. *)
Lemma source_catalog_parses : Forall (fun lv => is_Some (puzzle_match (puzzle lv))) cfg_levels.
Proof. apply (bool_decide_unpack _). vm_compute. reflexivity. Qed.

Lemma code_refines_session_witness :
  exists cmds, cmds ∈ event_commands ClickCheck /\
    ssteps (session_state loaded_page) cmds (session_state (dispatch ClickCheck loaded_page)).
Proof.
  apply (code_refines_session source_catalog_parses loaded_page ClickCheck);
    [apply conforming_loaded | vm_compute; reflexivity | constructor; reflexivity].
Defined.

Lemma reset_keeps_scheduled_advance_witness :
  let s := run [ClickCheck] (demo_page (demo_area ["1"; "+"; "1"; "="; "2"]) None 0) in
  session_state (dispatch ClickReset s) = Solved /\ ~ ssteps Solved [CmdReset] Solved /\
  step (dispatch ClickReset s) TimerFires (dispatch TimerFires (dispatch ClickReset s)) /\
  currentLevel (dispatch TimerFires (dispatch ClickReset s)) = S (currentLevel s).
Proof. apply reset_keeps_scheduled_advance. vm_compute. reflexivity. Defined.
