(* ===== verification/Ledger.v ===== *)
(** * The move ledger of the specification and the click handler

    The specification's Move Ledger (section 4.4) counts an accepted
    relocation of a stick to a different slot and rejects a counted move
    once the budget is spent.  [Ledger] and [recordMove] are that abstract
    component; [ledger_of] reads the ledger off a page of the code, with
    the containers as slots.  The refinement theorem shows that every
    placement the code performs on a reachable page is a move the ledger
    accepts, with the counter of the code equal to the ledger's: the code
    checks the budget when a stick is selected instead of when it is
    placed, which is why no placement is ever rejected. *)

From S2P Require Import Prelude JsRuntime Templates Levels Puzzle Dom Render Click Check Session.

Record Ledger := mkLedger {
  movesUsed : nat;
  ledgerAllowed : nat
}.

(** [recordMove(fromSlot, toSlot)]: a move within a slot is accepted for
    free; another one is counted if the budget allows, rejected otherwise. *)
Definition recordMove (l : Ledger) (fromSlot toSlot : nat) : bool * Ledger :=
  if decide (fromSlot = toSlot) then (true, l)
  else if (movesUsed l <? ledgerAllowed l)%nat
  then (true, mkLedger (S (movesUsed l)) (ledgerAllowed l))
  else (false, l).

(** The ledger of a page of level [lv]. *)
Definition ledger_of (lv : Level) (s : State) : Ledger :=
  mkLedger (movesMadeThisLevel s) (movesAllowed lv).

Section RefinementProofs.
Context `{!GameConfig}.

(** C21. The click handler refines the ledger: on a reachable page of a
    level of the catalog, placing the selected stick (in container [q]) on
    another displayed stick (in container [p]) is a relocation from [q] to
    [p] that the ledger accepts, and the code's move counter afterwards is
    the ledger's. *)
Theorem click_refines_ledger s sel clicked lv p q :
  reachable s -> cfg_levels !! currentLevel s = Some lv ->
  selectedStick s = Some sel -> clicked ∈ area_sticks (puzzleArea s) -> clicked ≠ sel ->
  parentElement (puzzleArea s) sel = Some q -> parentElement (puzzleArea s) clicked = Some p ->
  recordMove (ledger_of lv s) q p = (true, ledger_of lv (dispatch (ClickStick clicked) s)).
Proof.
  intros Hr Hlv Hsel Hin Hne Hq Hp.
  destruct (reachable_page_ok s Hr) as [Hb (_ & Halive & _)].
  unfold budget_ok in Hb. rewrite Hlv in Hb. destruct Hb as [_ Hlt].
  specialize (Hlt (ltac:(by eexists))).
  destruct (Halive clicked Hin) as [st Hst].
  unfold dispatch, handler. rewrite (handleStickClick_place s sel clicked st p) by done.
  rewrite Hlv. cbn -[Nat.ltb]. unfold recordMove, ledger_of, moves_after_place. rewrite Hq.
  destruct s; cbn -[Nat.ltb] in *.
  destruct (decide (q = p)) as [->|Hqp]; [by rewrite decide_True|].
  rewrite decide_False by congruence.
  by rewrite (proj2 (Nat.ltb_lt _ _) Hlt).
Qed.
End RefinementProofs.

Lemma click_refines_ledger_witness :
  recordMove (ledger_of (mkLevel "1-1=9" 2
     (fun num1 op num2 res => (num1 =? 1)%Z && String.eqb op "+" && (num2 =? 1)%Z && (res =? 2)%Z)
     "1+1=2") (run [ClickStick 1] loaded_page)) 0 3 =
  (true, ledger_of (mkLevel "1-1=9" 2
     (fun num1 op num2 res => (num1 =? 1)%Z && String.eqb op "+" && (num2 =? 1)%Z && (res =? 2)%Z)
     "1+1=2") (dispatch (ClickStick 4) (run [ClickStick 1] loaded_page))).
Proof.
  apply (click_refines_ledger _ 1 4);
    [apply reachable_run, reachable_loaded | vm_compute; reflexivity | vm_compute; reflexivity
    | vm_compute; set_solver | lia | vm_compute; reflexivity | vm_compute; reflexivity].
Defined.
